(** * MarineScope: the resolution-and-enrichment pipeline of [MarineScope.py]

    A shallow embedding of the response cache ([APICache]), the retrying
    fetch layer ([api_request_with_cache]), the text heuristics (depth
    patterns, ocean basins), the enrichment aggregator, the name resolver,
    the browse sampler, the search thread with the window's search and
    browse handlers, the start-up list of high-level taxa, the image loader
    and the extraction of scientific names from prose, followed by the
    properties proved about them.

    Conventions of the embedding.
    - A Python value that may be [None] is an [option]; [None] is Python's
      [None].
    - [time.time()] and the arguments of [time.sleep] are rationals (seconds).
      The differences the cache computes are differences of nearby binary64
      timestamps, which are exact, so the rational is the value Python sees.
    - Depths are binary64 floats (the kernel's primitive floats), with the
      rounding of every operation.
    - An [OrderedDict] is an association list with distinct keys; the front of
      the list is the oldest position, the back the most recent one.
    - Strings are ASCII.
    - Effects are threaded through an explicit world: the cache, the clock,
      the network calls made, the sleeps.
    - An exception is modelled where a handler upstream of it decides what
      the caller sees: a fallible conversion returns an [option], and a
      routine that may raise returns a [Py.result], which the handler of its
      caller turns into that caller's value.
    - [print] calls are diagnostics and are left out; they are taken not to
      raise. *)

From Stdlib Require Import ZArith List String Ascii Bool QArith Qpower Lqa Lia Sorted.
From Stdlib Require Uint63 DecimalString.
From Stdlib Require Import SpecFloat PrimFloat FloatOps FloatAxioms.
Import ListNotations.

Set Implicit Arguments.

(** ** Rational comparison used for [<] on timestamps and coordinates *)

Definition Qltb (a b : Q) : bool := negb (Qle_bool b a).

(** ** ResponseCache: [class APICache] *)

Module APICache.

Section WithValue.

(** The cached payloads; an entry holds [option value] because the fetch layer
    also stores [None]. *)
Variable value : Type.

Definition entry : Type := (option value * Q)%type.
Definition odict : Type := list (string * entry).

(** [key in self.cache] / [self.cache[key]] *)
Fixpoint od_get (k : string) (d : odict) : option entry :=
  match d with
  | [] => None
  | (k', e) :: d' => if String.eqb k k' then Some e else od_get k d'
  end.

Definition od_mem (k : string) (d : odict) : bool :=
  match od_get k d with Some _ => true | None => false end.

(** [del self.cache[key]] *)
Definition od_del (k : string) (d : odict) : odict :=
  filter (fun p => negb (String.eqb k (fst p))) d.

(** [self.cache.move_to_end(key)]; it is only called on a key that is present. *)
Definition od_move_to_end (k : string) (d : odict) : odict :=
  match od_get k d with
  | Some e => od_del k d ++ [(k, e)]
  | None => d
  end.

(** [self.cache[key] = e]: an existing key keeps its position, a new key goes
    to the back. *)
Fixpoint od_setitem (k : string) (e : entry) (d : odict) : odict :=
  match d with
  | [] => [(k, e)]
  | (k', e') :: d' =>
      if String.eqb k k' then (k, e) :: d' else (k', e') :: od_setitem k e d'
  end.

Record t : Type := mk {
  cache : odict;
  max_size : Z;
  ttl : Q
}.

(** [APICache.__init__(max_size, ttl)] *)
Definition init (max_size : Z) (ttl : Q) : t := mk [] max_size ttl.

Definition with_cache (c : t) (d : odict) : t := mk d (max_size c) (ttl c).

(** [APICache.get(key)], run when [time.time()] reads [now]. The result is the
    returned object and the cache afterwards. A stored [None] and a miss both
    return [None]. *)
Definition get (c : t) (now : Q) (k : string) : option value * t :=
  match od_get k (cache c) with
  | Some (data, timestamp) =>
      if Qltb (now - timestamp) (ttl c)
      then (data, with_cache c (od_move_to_end k (cache c)))
      else (None, with_cache c (od_del k (cache c)))
  | None => (None, c)
  end.

(** [APICache.set(key, value)], run when [time.time()] reads [now].
    [popitem(last=False)] on an empty dict raises [KeyError]: that is the
    [None] result (it needs [max_size <= 0]). *)
Definition set (c : t) (now : Q) (k : string) (v : option value) : option t :=
  if od_mem k (cache c) then
    Some (with_cache c (od_setitem k (v, now) (od_move_to_end k (cache c))))
  else if (max_size c <=? Z.of_nat (List.length (cache c)))%Z then
    match cache c with
    | [] => None
    | _ :: rest => Some (with_cache c (od_setitem k (v, now) rest))
    end
  else Some (with_cache c (od_setitem k (v, now) (cache c))).

(** [APICache.clear()] *)
Definition clear (c : t) : t := with_cache c [].

(** A run of reads: each [get] is performed for its effect on the cache. *)
Fixpoint gets (c : t) (reads : list (Q * string)) : t :=
  match reads with
  | [] => c
  | (now, k) :: reads' => gets (snd (get c now k)) reads'
  end.

Definition keys (c : t) : list string := map fst (cache c).

(** The dict invariant: keys are distinct. *)
Definition wf (c : t) : Prop := NoDup (keys c).

(** *** Use histories

    To speak of the least recently used entry, a run of cache operations is
    followed together with the history of uses it makes: a [set] uses its key,
    and so does a [get] that returns the entry (present and not expired). The
    history has the most recent use first. *)

Inductive op : Type :=
| OpGet (now : Q) (k : string)
| OpSet (now : Q) (k : string) (v : option value).

Definition hit (c : t) (now : Q) (k : string) : bool :=
  match od_get k (cache c) with
  | Some (_, timestamp) => Qltb (now - timestamp) (ttl c)
  | None => false
  end.

Definition step (s : t * list string) (o : op) : option (t * list string) :=
  let (c, h) := s in
  match o with
  | OpGet now k =>
      Some (snd (get c now k), if hit c now k then k :: h else h)
  | OpSet now k v =>
      match set c now k v with
      | Some c' => Some (c', k :: h)
      | None => None
      end
  end.

Fixpoint run (s : t * list string) (ops : list op) : option (t * list string) :=
  match ops with
  | [] => Some s
  | o :: ops' =>
      match step s o with
      | Some s' => run s' ops'
      | None => None
      end
  end.

End WithValue.

(** [age h k]: how many uses ago key [k] was last used. *)
Fixpoint age (h : list string) (k : string) : option nat :=
  match h with
  | [] => None
  | x :: h' => if String.eqb k x then Some 0%nat else option_map S (age h' k)
  end.

(** [older h a b]: the last use of [a] lies further back than that of [b]. *)
Definition older (h : list string) (a b : string) : Prop :=
  match age h a, age h b with
  | Some x, Some y => (y < x)%nat
  | _, _ => False
  end.

End APICache.

(** ** FetchClient: [api_request_with_cache] *)

Module Fetch.

(** [sub in s] on strings *)
Definition contains (sub s : string) : bool :=
  match String.index 0 sub s with Some _ => true | None => false end.

Section WithValue.

(** [value]: the objects [response.json()] yields, other than [None];
    [params]: the query-parameter dicts passed to [requests.get]. *)
Variables value params : Type.

(** What [response.content] / [response.json()] give: an empty body, a body
    that is not JSON ([response.json()] raises [json.JSONDecodeError], which
    is caught next to the call), a body on which [response.json()] raises an
    exception of another class (a [RecursionError] on a deeply nested
    document, or the decoder's own error when [requests] decodes with
    [simplejson]), which only the handler of the whole attempt catches, or
    the parsed object (JSON [null] parses to [None]). *)
Inductive body : Type :=
| Empty
| Malformed
| Unreadable
| Json (data : option value).

(** What one call of [requests.get] does: raise [requests.exceptions.Timeout],
    raise another exception, or return a response. *)
Inductive outcome : Type :=
| TimedOut
| Failed
| Response (status_code : Z) (content : body).

(** The outside world: the [n]-th call of [requests.get] made by the process
    (counting from 0) has the outcome [requests_get n url params timeout] and
    takes [latency n] seconds; [str_params] is Python's [str] on the
    parameter dict (or [None]). *)
Record upstream : Type := {
  requests_get : nat -> string -> option params -> Z -> outcome;
  latency : nat -> Q;
  str_params : option params -> string
}.

(** The process state the fetch layer touches: the contents of the global
    [API_CACHE = APICache(max_size=2000, ttl=3600)], the clock, the calls of
    [requests.get] made so far (url, params, timeout), the waits of
    [time.sleep], and (ghost) the requests handed to
    [api_request_with_cache]. *)
Record world : Type := {
  entries : APICache.odict value;
  clock : Q;
  sent : list (string * option params * Z);
  slept : list Q;
  requested : list (string * option params)
}.

Definition initial_world : world :=
  {| entries := []; clock := 0; sent := []; slept := []; requested := [] |}.

Definition API_CACHE (w : world) : APICache.t value :=
  APICache.mk (entries w) 2000 3600.

Definition with_entries (w : world) (d : APICache.odict value) : world :=
  {| entries := d; clock := clock w; sent := sent w; slept := slept w;
     requested := requested w |}.

(** [API_CACHE.get(key)] *)
Definition API_CACHE_get (k : string) (w : world) : option value * world :=
  let (data, c) := APICache.get (API_CACHE w) (clock w) k in
  (data, with_entries w (APICache.cache c)).

(** [API_CACHE.set(key, value)]; with [max_size = 2000] the [KeyError] case of
    [APICache.set] does not arise (lemma [API_CACHE_set_defined]). *)
Definition API_CACHE_set (k : string) (v : option value) (w : world) : world :=
  match APICache.set (API_CACHE w) (clock w) k v with
  | Some c => with_entries w (APICache.cache c)
  | None => w
  end.

(** Time passing while the process is idle. *)
Definition elapse (seconds : Q) (w : world) : world :=
  {| entries := entries w; clock := clock w + seconds; sent := sent w;
     slept := slept w; requested := requested w |}.

(** [time.sleep(seconds)] *)
Definition sleep (seconds : Q) (w : world) : world :=
  {| entries := entries w; clock := clock w + seconds; sent := sent w;
     slept := slept w ++ [seconds]; requested := requested w |}.

(** The state after one call of [requests.get]. *)
Definition after_get (U : upstream) (url : string) (p : option params)
    (timeout : Z) (w : world) : world :=
  {| entries := entries w;
     clock := clock w + latency U (List.length (sent w));
     sent := sent w ++ [(url, p, timeout)];
     slept := slept w; requested := requested w |}.

Definition note_request (url : string) (p : option params) (w : world) : world :=
  {| entries := entries w; clock := clock w; sent := sent w; slept := slept w;
     requested := requested w ++ [(url, p)] |}.

(** The per-attempt timeout chosen from the upstream family. *)
Definition timeout_for (url : string) : Z :=
  if contains "marinespecies.org" url then 10
  else if contains "api.obis.org" url then 15
  else 8.

(** The body of [for attempt in range(retries + 1)], with [n] iterations left.
    [response.raise_for_status()] is reached only with a status below 400,
    where it does nothing, so the [HTTPError] handler is dead. An exception
    that is neither a [Timeout] nor an [HTTPError], raised by [requests.get]
    or by [response.json()], is caught by the last handler, which waits half
    a second and goes on to the next attempt while one is left. *)
Fixpoint attempt_loop (U : upstream) (n : nat) (attempt : Z) (url : string)
    (p : option params) (cache_key : string) (retries : Z) (w : world)
    : option value * world :=
  match n with
  | O => (None, API_CACHE_set cache_key None w)
  | S n' =>
      let timeout := timeout_for url in
      let r := requests_get U (List.length (sent w)) url p timeout in
      let w := after_get U url p timeout w in
      match r with
      | Response status_code content =>
          if (status_code =? 204)%Z then (None, API_CACHE_set cache_key None w)
          else if (status_code =? 404)%Z then (None, API_CACHE_set cache_key None w)
          else if (status_code >=? 400)%Z && negb (status_code =? 204)%Z then
            if (status_code =? 429)%Z && (attempt <? retries)%Z then
              let wait_time := inject_Z (2 ^ (attempt + 1)) in
              attempt_loop U n' (attempt + 1) url p cache_key retries
                (sleep wait_time w)
            else (None, API_CACHE_set cache_key None w)
          else
            match content with
            | Empty => (None, API_CACHE_set cache_key None w)
            | Json data => (data, API_CACHE_set cache_key data w)
            | Malformed => (None, API_CACHE_set cache_key None w)
            | Unreadable =>
                if (attempt <? retries)%Z then
                  attempt_loop U n' (attempt + 1) url p cache_key retries
                    (sleep (1 # 2) w)
                else (None, API_CACHE_set cache_key None w)
            end
      | TimedOut =>
          if (attempt <? retries)%Z then
            attempt_loop U n' (attempt + 1) url p cache_key retries
              (sleep (1 # 2) w)
          else (None, API_CACHE_set cache_key None w)
      | Failed =>
          if (attempt <? retries)%Z then
            attempt_loop U n' (attempt + 1) url p cache_key retries
              (sleep (1 # 2) w)
          else (None, API_CACHE_set cache_key None w)
      end
  end.

(** [if cache_key is None: cache_key = url + str(params)] *)
Definition request_key (U : upstream) (url : string) (p : option params)
    (cache_key : option string) : string :=
  match cache_key with
  | Some k => k
  | None => (url ++ str_params U p)%string
  end.

(** [api_request_with_cache(url, params, cache_key, retries)] *)
Definition api_request_with_cache (U : upstream) (url : string)
    (p : option params) (cache_key : option string) (retries : Z) (w : world)
    : option value * world :=
  let cache_key := request_key U url p cache_key in
  let (cached_data, w) := API_CACHE_get cache_key (note_request url p w) in
  match cached_data with
  | Some data => (Some data, w)
  | None =>
      attempt_loop U (Z.to_nat (retries + 1)) 0 url p cache_key retries w
  end.

(** The definitive negatives of the fetch layer: HTTP 404, HTTP 204, or a
    response below 400 with an empty body. *)
Definition definitive_negative (status_code : Z) (content : body) : Prop :=
  status_code = 404%Z \/ status_code = 204%Z \/
  ((status_code < 400)%Z /\ content = Empty).

End WithValue.

End Fetch.

(** ** The fragment of Python's [re] used by the text heuristics

    Texts are sequences of ASCII characters. A pattern is matched by
    backtracking, in the priority order of [re]: a greedy repetition tries the
    longest run first, a lazy one the shortest. Repetition is only ever applied
    to a single character class in the patterns of the source, and capturing
    groups never nest. *)

Module Re.

Definition text : Type := list ascii.

Definition code (c : ascii) : nat := nat_of_ascii c.

Definition between (lo hi : nat) (c : ascii) : bool :=
  (lo <=? code c)%nat && (code c <=? hi)%nat.

(** [\d], [\s], [\w], [[a-z]], [[A-Z]] on ASCII *)
Definition digit (c : ascii) : bool := between 48 57 c.
Definition lower_case (c : ascii) : bool := between 97 122 c.
Definition upper_case (c : ascii) : bool := between 65 90 c.
Definition space (c : ascii) : bool :=
  between 9 13 c || between 28 32 c.
Definition word (c : ascii) : bool :=
  digit c || lower_case c || upper_case c || (code c =? 95)%nat.
Definition space_or_word (c : ascii) : bool := space c || word c.

(** [str.lower()] on one ASCII character *)
Definition to_lower (c : ascii) : ascii :=
  if upper_case c then ascii_of_nat (code c + 32) else c.

Inductive regex : Type :=
| Lit (c : ascii)
| Cls (p : ascii -> bool)
| Rep (p : ascii -> bool) (lo : nat) (hi : option nat) (greedy : bool)
| Cat (r1 r2 : regex)
| Group (r : regex)
| Eps
| EndOfString.

(** A compiled pattern: the expression and the [re.IGNORECASE] flag. *)
Record pattern : Type := compile {
  expr : regex;
  ignorecase : bool
}.

(** A sequence of expressions, and a literal word *)
Definition cat (rs : list regex) : regex := fold_right Cat Eps rs.

Definition lit (s : string) : regex :=
  cat (map Lit (list_ascii_of_string s)).

Fixpoint n_groups (r : regex) : nat :=
  match r with
  | Cat r1 r2 => n_groups r1 + n_groups r2
  | Group r1 => S (n_groups r1)
  | _ => 0
  end.

Section Matcher.

Variable icase : bool.
Variable R : Type.

Definition lit_eq (c x : ascii) : bool :=
  if icase then Ascii.eqb (to_lower c) (to_lower x) else Ascii.eqb c x.

Definition may_repeat (hi : option nat) : bool :=
  match hi with Some O => false | _ => true end.

(** [p{lo,hi}] (greedy) or [p{lo,hi}?] (lazy), then the continuation [k]. *)
Fixpoint rep (p : ascii -> bool) (lo : nat) (hi : option nat) (greedy : bool)
    (s : text) (k : text -> option R) : option R :=
  match s with
  | c :: s' =>
      if p c && may_repeat hi then
        if greedy then
          match rep p (pred lo) (option_map pred hi) greedy s' k with
          | Some r => Some r
          | None => if (lo =? 0)%nat then k s else None
          end
        else
          match (if (lo =? 0)%nat then k s else None) with
          | Some r => Some r
          | None => rep p (pred lo) (option_map pred hi) greedy s' k
          end
      else if (lo =? 0)%nat then k s else None
  | [] => if (lo =? 0)%nat then k s else None
  end.

(** [rmatch r s caps k]: match [r] at the front of [s]; [caps] are the groups
    closed so far; [k] continues on the rest of the text. *)
Fixpoint rmatch (r : regex) (s : text) (caps : list text)
    (k : text -> list text -> option R) : option R :=
  match r with
  | Lit c =>
      match s with
      | x :: s' => if lit_eq c x then k s' caps else None
      | [] => None
      end
  | Cls p =>
      match s with
      | x :: s' => if p x then k s' caps else None
      | [] => None
      end
  | Rep p lo hi greedy => rep p lo hi greedy s (fun s' => k s' caps)
  | Cat r1 r2 => rmatch r1 s caps (fun s' caps' => rmatch r2 s' caps' k)
  | Group r1 =>
      rmatch r1 s caps
        (fun s' caps' =>
           k s' (caps' ++ [firstn (List.length s - List.length s') s]))
  | Eps => k s caps
  | EndOfString =>
      match s with
      | [] => k s caps
      | [c] => if (code c =? 10)%nat then k s caps else None
      | _ => None
      end
  end.

End Matcher.

(** One match object: the whole match, its groups, and the text after it. *)
Record match_object : Type := {
  whole : text;
  groups : list text;
  after : text
}.

(** [pattern.match(s)]: a match anchored at the start of [s]. *)
Definition match_ (pat : pattern) (s : text) : option match_object :=
  rmatch (ignorecase pat) (expr pat) s []
    (fun s' caps =>
       Some {| whole := firstn (List.length s - List.length s') s;
               groups := caps; after := s' |}).

(** The matches [finditer] yields, left to right and not overlapping. No
    pattern of the source matches the empty string; after an empty match the
    scan moves on by one character. *)
Fixpoint scan (fuel : nat) (pat : pattern) (s : text) : list match_object :=
  match fuel with
  | O => []
  | S fuel' =>
      match match_ pat s with
      | Some m =>
          if (List.length (after m) <? List.length s)%nat
          then m :: scan fuel' pat (after m)
          else m :: match s with [] => [] | _ :: s' => scan fuel' pat s' end
      | None =>
          match s with [] => [] | _ :: s' => scan fuel' pat s' end
      end
  end.

(** An element of the list [findall] returns: a string when the pattern has
    at most one group, a tuple of strings otherwise. *)
Inductive found : Type :=
| Str (s : text)
| Tuple (gs : list text).

Definition shape (pat : pattern) (m : match_object) : found :=
  match n_groups (expr pat), groups m with
  | O, _ => Str (whole m)
  | S O, [g] => Str g
  | _, gs => Tuple gs
  end.

(** [pattern.findall(s)] *)
Definition findall (pat : pattern) (s : text) : list found :=
  map (shape pat) (scan (S (List.length s)) pat s).

(** What a pattern can match, and the groups it then captures. *)
Fixpoint matches (icase : bool) (r : regex) (w : text) (gs : list text) : Prop :=
  match r with
  | Lit c => exists x, w = [x] /\ lit_eq icase c x = true /\ gs = []
  | Cls p => exists x, w = [x] /\ p x = true /\ gs = []
  | Rep p lo hi _ =>
      Forall (fun x => p x = true) w /\ (lo <= List.length w)%nat /\
      match hi with Some n => (List.length w <= n)%nat | None => True end /\
      gs = []
  | Cat r1 r2 =>
      exists w1 w2 g1 g2,
        w = w1 ++ w2 /\ gs = g1 ++ g2 /\
        matches icase r1 w1 g1 /\ matches icase r2 w2 g2
  | Group r1 => exists g1, gs = g1 ++ [w] /\ matches icase r1 w g1
  | Eps => w = [] /\ gs = []
  | EndOfString => w = [] /\ gs = []
  end.


End Re.

(** ** Python numbers and strings *)

Module Py.

(** A Python number: an [int] or a [float] (IEEE 754 binary64). *)
Inductive number : Type :=
| PyInt (z : Z)
| PyFloat (f : float).

(** [float(n)] for an [int] that binary64 represents exactly
    ([0 <= n < 2**53]); the integers converted by the source are sums of at
    most two numbers of at most five digits. *)
Definition float_of_int (z : Z) : float := PrimFloat.of_uint63 (Uint63.of_Z z).

(** [min(xs)] and [max(xs)] on floats: the first element is kept until a
    later one compares strictly smaller (larger). *)
Definition float_min (x : float) (xs : list float) : float :=
  fold_left (fun m y => if PrimFloat.ltb y m then y else m) xs x.

Definition float_max (x : float) (xs : list float) : float :=
  fold_left (fun m y => if PrimFloat.ltb m y then y else m) xs x.

(** [sum(xs)] on floats, added left to right from [0]. *)
Definition float_sum (xs : list float) : float :=
  fold_left PrimFloat.add xs 0%float.



Definition int_min (x : Z) (xs : list Z) : Z :=
  fold_left (fun m y => if (y <? m)%Z then y else m) xs x.

Definition int_max (x : Z) (xs : list Z) : Z :=
  fold_left (fun m y => if (m <? y)%Z then y else m) xs x.

Definition int_sum (xs : list Z) : Z := fold_left Z.add xs 0%Z.

(** The exact value of a finite float. *)
Definition float_value (f : float) : option Q :=
  match Prim2SF f with
  | S754_zero _ => Some 0
  | S754_finite s m e =>
      let q := (inject_Z (Z.pos m) * (2 ^ e))%Q in
      Some (if s then (- q)%Q else q)
  | _ => None
  end.


(** [a < b] *)
Definition number_ltb (a b : number) : bool :=
  match a, b with
  | PyInt x, PyInt y => (x <? y)%Z
  | PyFloat x, PyFloat y => PrimFloat.ltb x y
  | PyInt x, PyFloat y =>
      match Prim2SF y with
      | S754_nan => false
      | S754_infinity s => negb s
      | _ => match float_value y with
             | Some q => Qltb (inject_Z x) q
             | None => false
             end
      end
  | PyFloat x, PyInt y =>
      match Prim2SF x with
      | S754_nan => false
      | S754_infinity s => s
      | _ => match float_value x with
             | Some q => Qltb q (inject_Z y)
             | None => false
             end
      end
  end.

(** The value of a string of decimal digits. *)
Fixpoint digits_value (acc : Z) (s : list ascii) : option Z :=
  match s with
  | [] => Some acc
  | c :: s' =>
      if Re.digit c
      then digits_value (10 * acc + Z.of_nat (Re.code c - 48)) s'
      else None
  end.

(** [int(s)] on a string of decimal digits; [None] stands for [ValueError].
    CPython (from 3.11 on, and the later releases of 3.7 to 3.10) refuses a
    string of more than [sys.get_int_max_str_digits()] digits, 4300 unless
    set otherwise; a limit of [0] is no limit. *)
Definition int_of_digits (max_str_digits : nat) (s : string) : option Z :=
  if negb (max_str_digits =? 0)%nat && (max_str_digits <? String.length s)%nat
  then None
  else digits_value 0 (list_ascii_of_string s).

(** [s.strip()] on a character list *)
Fixpoint lstrip (s : list ascii) : list ascii :=
  match s with
  | c :: s' => if Re.space c then lstrip s' else s
  | [] => []
  end.

Definition strip_chars (s : list ascii) : list ascii :=
  rev (lstrip (rev (lstrip s))).

(** [int(s.replace(',', '').strip())] on the strings the depth patterns
    capture (runs of digits); [None] stands for [ValueError]. *)
Definition int_of_text (s : list ascii) : option Z :=
  let s := strip_chars (filter (fun c => negb (Ascii.eqb c ","%char)) s) in
  match s with
  | [] => None
  | _ => digits_value 0 s
  end.

(** [s.strip()], [s.lower()], [sub in s], truth value of a string *)
Definition strip (s : string) : string :=
  string_of_list_ascii (strip_chars (list_ascii_of_string s)).

Definition lower (s : string) : string :=
  string_of_list_ascii (map Re.to_lower (list_ascii_of_string s)).

Definition nonempty (s : string) : bool :=
  match s with EmptyString => false | _ => true end.

(** Truth value of [d.get(key)] for a string-valued key. *)
Definition truthy (s : option string) : bool :=
  match s with Some s => nonempty s | None => false end.

(** [s.isdigit()] on ASCII *)
Definition isdigit (s : string) : bool :=
  nonempty s && forallb Re.digit (list_ascii_of_string s).

(** What a call gives that may raise: [Raised] when an exception leaves it,
    [Returned v] when it returns [v]. The handlers that catch the exceptions
    modelled this way ([except Exception] and the bare [except]) do not look
    at the exception, so it is not kept. *)
Inductive result (A : Type) : Type :=
| Raised
| Returned (value : A).

Arguments Raised {A}.

(** One statement after the other: the second is not run when the first
    raises. *)
Definition and_then {A B : Type} (r : result A) (k : A -> result B)
    : result B :=
  match r with
  | Raised => Raised
  | Returned a => k a
  end.

End Py.

(** ** Upstream payloads

    The JSON documents the three upstreams answer with, typed by what the
    source reads from them. An object or an array has the shape its endpoint
    gives it (an array is not [null] and holds no [null] entry); a string, a
    number or a boolean is of its JSON type, missing, or [null]. A key the
    source reads with [d.get(key)] is an [option] ([None]: the key is missing
    or [null]); a key read with a default carries that default when missing.
    Where the source calls a string method on what [d.get(key, '')]
    returned, [null] makes the call raise.
    - For the keys read while a species record is built ([environment],
      [rank], [vernacular], [language]) the field is an [option] whose [None]
      is that [null], a missing key being the empty string.
    - For the keys read inside the loops over search results, where the
      exception only makes the loop go on to the next item, a [null]
      [status] is the empty string (the item is passed over either way),
      and a listed record is taken not to have a [null] [scientificname].
    Every endpoint is taken to answer with its own shape or with something
    unusable ([JOther]). *)

Module Data.

(** One entry of [record['vernaculars']]; [None] is [null]. An entry without
    the key ['vernacular'] is passed over like one whose name is empty. *)
Record vernacular_entry : Type := {
  vernacular : option string;
  language : option string
}.

(** A WoRMS Aphia record *)
Record aphia_record : Type := {
  AphiaID : option Z;
  status : string;
  scientificname : option string;
  valid_name : option string;
  isMarine : bool;
  isBrackish : bool;
  isFreshwater : bool;
  isTerrestrial : bool;
  environment : option string;
  vernaculars : list vernacular_entry;
  valid_vernacular : option string;
  distribution : option string;
  picture_url : option string
}.

(** The nested [AphiaClassificationByAphiaID] document: a node with its
    [child], or the empty dict (also standing for a missing child). A [rank]
    of [None] is [null]; a [name] that is missing or [null] is the empty
    string, all three being passed over alike. *)
Inductive classification : Type :=
| NoNode
| Node (rank : option string) (name : string) (child : classification).

(** One OBIS occurrence. The depth is a JSON number, read through
    [float(depth)]; the coordinates are only ever compared with integer
    constants, so their exact rational value is all the code sees. *)
Record occurrence : Type := {
  depth : option float;
  decimalLatitude : option Q;
  decimalLongitude : option Q;
  locality : option string;
  waterBody : option string;
  country : option string;
  year : option Z
}.

(** The OBIS answer: [{'total': ..., 'results': [...]}] *)
Record occurrences : Type := {
  total : Z;
  results : list occurrence
}.

(** One page of the Wikipedia answer, under its page id *)
Record wiki_page : Type := {
  extract : string;
  thumbnail : option string;
  page_title : string;
  fullurl : string
}.

(** One entry of [AphiaImagesByAphiaID] *)
Record image_entry : Type := {
  url : option string;
  thumbnail_url : option string;
  image_url : option string
}.

Inductive payload : Type :=
| JRecord (r : aphia_record)
| JRecords (l : list aphia_record)
| JClassification (c : classification)
| JDistributions (l : list (option string))
| JOccurrences (o : occurrences)
| JWikipedia (pages : list (string * wiki_page))
| JImages (l : list image_entry)
| JOther (truth : bool).

(** [bool(data)] for a parsed payload *)
Definition truth (d : payload) : bool :=
  match d with
  | JRecords [] | JDistributions [] | JImages [] => false
  | JClassification NoNode => false
  | JOther b => b
  | _ => true
  end.

(** What [get_obis_data_fast] returns: [{'occurrences': ..., 'scientific_name': ...}] *)
Record obis_data : Type := {
  obis_occurrences : payload;
  obis_scientific_name : string
}.

(** What [get_wikipedia_data_fast] returns when it finds a page *)
Record wiki_data : Type := {
  description : string;
  thumb_url : option string;
  title : string;
  is_common_name : bool;
  wiki_url : string
}.

(** The [depth_info] dict: [record_count] and [source] are always set when it
    is returned; the three depths are set together, or not at all. *)
Record depth_info : Type := {
  min_depth : option Py.number;
  max_depth : option Py.number;
  avg_depth : option Py.number;
  record_count : Z;
  source : string
}.

End Data.

(** ** TextHeuristics *)

Module Heuristics.
Import Re Data.

(** [(\d{1,5})] and [\s*] *)
Definition digits_1_5 : regex := Group (Rep digit 1 (Some 5%nat) true).
Definition spaces : regex := Rep space 0 None true.

(** [DEPTH_PATTERNS], all compiled with [re.IGNORECASE] *)
Definition DEPTH_PATTERNS : list pattern :=
  [ (* depth[\s\w]{0,30}?(\d{1,5})\s*m *)
    compile (cat [lit "depth"; Rep space_or_word 0 (Some 30%nat) false;
                  digits_1_5; spaces; lit "m"]) true;
    (* (\d{1,5})\s*m[\s\w]{0,20}depth *)
    compile (cat [digits_1_5; spaces; lit "m";
                  Rep space_or_word 0 (Some 20%nat) true; lit "depth"]) true;
    (* (\d{1,5})\s*-\s*(\d{1,5})\s*m *)
    compile (cat [digits_1_5; spaces; lit "-"; spaces; digits_1_5; spaces;
                  lit "m"]) true;
    (* (\d{1,5})\s*meter *)
    compile (cat [digits_1_5; spaces; lit "meter"]) true;
    (* (\d{1,5})\s*to\s*(\d{1,5})\s*m *)
    compile (cat [digits_1_5; spaces; lit "to"; spaces; digits_1_5; spaces;
                  lit "m"]) true ].

(** [SCIENTIFIC_NAME_PATTERN]: [^[A-Z][a-z]+\s+[a-z]+$] *)
Definition SCIENTIFIC_NAME_PATTERN : pattern :=
  compile (cat [Cls upper_case; Rep lower_case 1 None true;
                Rep space 1 None true; Rep lower_case 1 None true;
                EndOfString]) false.

(** [is_scientific_name(query)] *)
Definition is_scientific_name (query : string) : bool :=
  match match_ SCIENTIFIC_NAME_PATTERN (list_ascii_of_string (Py.strip query)) with
  | Some _ => true
  | None => false
  end.

(** [obis_data['occurrences'].get('results', [])] when [obis_data] is a dict
    holding an occurrences dict, [[]] otherwise *)
Definition obis_results (obis : option obis_data) : list occurrence :=
  match obis with
  | Some o =>
      match obis_occurrences o with
      | JOccurrences occ => results occ
      | _ => []
      end
  | None => []
  end.

(** The [depths] list: the depths of the first 20 occurrences that have one *)
Fixpoint collect_depths (l : list occurrence) : list float :=
  match l with
  | [] => []
  | o :: l' =>
      match depth o with
      | Some d => d :: collect_depths l'
      | None => collect_depths l'
      end
  end.

Definition summary_of_depths (d : float) (ds : list float) : depth_info :=
  {| min_depth := Some (Py.PyFloat (Py.float_min d ds));
     max_depth := Some (Py.PyFloat (Py.float_max d ds));
     avg_depth :=
       Some (Py.PyFloat
               (Py.float_sum (d :: ds) /
                Py.float_of_int (Z.of_nat (List.length (d :: ds)))));
     record_count := Z.of_nat (List.length (d :: ds));
     source := "OBIS v3" |}.

(** [[int(m.replace(',', '').strip()) for m in t if m]]; [None] when an
    [int(...)] raises *)
Fixpoint ints_of_groups (gs : list text) : option (list Z) :=
  match gs with
  | [] => Some []
  | g :: gs' =>
      match g with
      | [] => ints_of_groups gs'
      | _ =>
          match Py.int_of_text g, ints_of_groups gs' with
          | Some n, Some ns => Some (n :: ns)
          | _, _ => None
          end
      end
  end.

(** The body of the [try] for the first match of one pattern; [None] when it
    raises (the loop then continues with the next pattern). *)
Definition summary_of_match (m : found) : option depth_info :=
  match m with
  | Tuple gs =>
      match ints_of_groups gs with
      | Some (n :: ns) =>
          Some {| min_depth := Some (Py.PyInt (Py.int_min n ns));
                  max_depth := Some (Py.PyInt (Py.int_max n ns));
                  avg_depth :=
                    Some (Py.PyFloat
                            (Py.float_of_int (Py.int_sum (n :: ns)) /
                             Py.float_of_int (Z.of_nat (List.length (n :: ns)))));
                  record_count := 1;
                  source := "WoRMS" |}
      | Some [] =>
          Some {| min_depth := None; max_depth := None; avg_depth := None;
                  record_count := 1; source := "WoRMS" |}
      | None => None
      end
  | Str s =>
      match Py.int_of_text s with
      | Some d =>
          Some {| min_depth := Some (Py.PyInt d);
                  max_depth := Some (Py.PyInt d);
                  avg_depth := Some (Py.PyInt d);
                  record_count := 1;
                  source := "WoRMS" |}
      | None => None
      end
  end.

(** [for pattern in DEPTH_PATTERNS: ...] over the environment text *)
Fixpoint depth_from_text (pats : list pattern) (environment : text)
    : option depth_info :=
  match pats with
  | [] => None
  | pat :: pats' =>
      match findall pat environment with
      | m :: _ =>
          match summary_of_match m with
          | Some info => Some info
          | None => depth_from_text pats' environment
          end
      | [] => depth_from_text pats' environment
      end
  end.

(** [extract_depth_from_obis_fast(obis_data, worms_record)]. Without
    occurrence depths the patterns are run over
    [worms_record.get('environment', '')]; [pattern.findall(None)] raises
    [TypeError], outside the [try] of the loop. *)
Definition extract_depth_from_obis_fast (obis : option obis_data)
    (worms_record : aphia_record) : Py.result (option depth_info) :=
  match collect_depths (firstn 20 (obis_results obis)) with
  | d :: ds => Py.Returned (Some (summary_of_depths d ds))
  | [] =>
      match environment worms_record with
      | Some environment =>
          Py.Returned
            (depth_from_text DEPTH_PATTERNS (list_ascii_of_string environment))
      | None => Py.Raised
      end
  end.

(** The if-chain of [extract_ocean_basins_fast] for one coordinate pair;
    [None] when no branch adds a basin. *)
Definition basin_of (lat lon : Q) : option string :=
  if Qltb lon (-30) then
    if Qltb 0 lat then Some "North Atlantic"%string
    else Some "South Atlantic"%string
  else if Qle_bool (-30) lon && Qle_bool lon 30 then
    Some "Tropical Atlantic"%string
  else if Qltb 100 lon && Qltb lon 180 then
    if Qltb 0 lat then Some "North Pacific"%string
    else Some "South Pacific"%string
  else if Qltb lon (-100) then Some "Eastern Pacific"%string
  else if Qltb 30 lon && Qltb lon 100 then Some "Indian Ocean"%string
  else None.

(** [basins.add(b)]: the set is kept as a list without repetitions, in the
    order of first insertion. Python leaves the order in which [list(basins)]
    enumerates a set unspecified; nothing proved below depends on it. *)
Definition set_add (b : string) (s : list string) : list string :=
  if existsb (String.eqb b) s then s else s ++ [b].

Fixpoint collect_basins (l : list occurrence) (basins : list string)
    : list string :=
  match l with
  | [] => basins
  | o :: l' =>
      match decimalLatitude o, decimalLongitude o with
      | Some lat, Some lon =>
          match basin_of lat lon with
          | Some b => collect_basins l' (set_add b basins)
          | None => collect_basins l' basins
          end
      | _, _ => collect_basins l' basins
      end
  end.

(** [extract_ocean_basins_fast(obis_data)] *)
Definition extract_ocean_basins_fast (obis : option obis_data) : list string :=
  match collect_basins (firstn 20 (obis_results obis)) [] with
  | [] => ["Multiple ocean basins"%string]
  | basins => firstn 3 basins
  end.

End Heuristics.

(** ** More string operations of Python *)

Module PyStr.

Local Open Scope string_scope.

(** [str(n)] for an [int] *)
Definition str_of_int (z : Z) : string :=
  DecimalString.NilZero.string_of_int (Z.to_int z).

(** [s.startswith(prefix)] *)
Definition startswith (prefix s : string) : bool := String.prefix prefix s.

(** [sep.join(parts)] *)
Definition join (sep : string) (parts : list string) : string :=
  String.concat sep parts.

(** [s.split(sep)[0]] for a non-empty separator: the text before the first
    occurrence of [sep], or all of [s]. *)
Definition before_first (sep s : string) : string :=
  match String.index 0 sep s with
  | Some n => String.substring 0 n s
  | None => s
  end.

(** [s.replace(old, new)] for a non-empty [old]: occurrences are replaced
    left to right, without overlap. [skip] counts the characters of an
    occurrence still to be dropped. *)
Fixpoint replace_from (skip : nat) (old new s : string) : string :=
  match s with
  | EmptyString => EmptyString
  | String c s' =>
      match skip with
      | S n => replace_from n old new s'
      | O =>
          if String.prefix old s
          then new ++ replace_from (String.length old - 1) old new s'
          else String c (replace_from 0 old new s')
      end
  end.

Definition replace (old new s : string) : string := replace_from 0 old new s.

Definition hex_digit (n : nat) : ascii :=
  if (n <? 10)%nat then ascii_of_nat (48 + n) else ascii_of_nat (55 + n).

(** [requests.utils.quote(s)] on ASCII text: letters, digits and [_.-~/] stay,
    every other character becomes [%XX]. *)
Definition quote_char (c : ascii) : string :=
  if Re.word c || Ascii.eqb c "." || Ascii.eqb c "-" || Ascii.eqb c "~"
     || Ascii.eqb c "/"
  then String c EmptyString
  else String "%" (String (hex_digit (Re.code c / 16))
                     (String (hex_digit (Re.code c mod 16)) EmptyString)).

Fixpoint quote (s : string) : string :=
  match s with
  | EmptyString => EmptyString
  | String c s' => quote_char c ++ quote s'
  end.

End PyStr.

(** ** The species record assembled by the aggregator *)

Module Species.

Record occurrence_stats : Type := {
  total_records : Z;
  has_depth_data : bool;
  has_coordinates : bool;
  year_range : option string
}.

(** The dict [get_complete_species_data_parallel] returns *)
Record t : Type := {
  title : string;
  common_name : option string;
  latin_name : option string;
  aphia_id : Z;
  habitat : string;
  depth_info : option Data.depth_info;
  distribution : list string;
  ocean_basins : list string;
  stats : occurrence_stats;
  extract : string;
  thumb_url : option string;
  image_source : option string;
  wiki_url : option string;
  taxonomy : list (string * string);
  source : string;
  is_marine : bool;
  is_brackish : bool;
  is_freshwater : bool;
  is_terrestrial : bool
}.

End Species.

(** ** The pipeline over the fetch layer *)

Module Pipeline.
Import Data Heuristics.

Local Open Scope string_scope.

(** Query parameters: keys with their values as [str] renders them. *)
Definition params : Type := list (string * string).

Definition world : Type := Fetch.world payload params.

(** What the pipeline does not decide: the network, whether
    [future.result(timeout=10)] times out for a task (given the number of
    network calls made before the tasks were started), the order
    [random.shuffle] leaves a list in (given the number of network calls made
    so far), the candidate names
    [extract_scientific_names_from_text_fast] reads from a text, and the
    interpreter's limit on the digits of a string given to [int]
    ([sys.get_int_max_str_digits()]: 4300 by default, [0] for none). *)
Record runtime : Type := {
  net : Fetch.upstream payload params;
  future_times_out : nat -> string -> bool;
  shuffle : nat -> list string -> list string;
  extract_scientific_names_from_text_fast : string -> list string;
  int_max_str_digits : nat
}.

(** *** A state monad over the world *)

Definition M (A : Type) : Type := world -> A * world.

Definition ret {A : Type} (a : A) : M A := fun w => (a, w).

Definition bind {A B : Type} (m : M A) (k : A -> M B) : M B :=
  fun w => let (a, w') := m w in k a w'.

Notation "x <- m ;; k" := (bind m (fun x => k))
  (at level 61, m at next level, right associativity).

(** *** Endpoints *)

Definition WORMS_API_BASE := "https://www.marinespecies.org/rest".
Definition WORMS_API_RECORD := WORMS_API_BASE ++ "/AphiaRecordByAphiaID".
Definition WORMS_API_CLASSIFICATION :=
  WORMS_API_BASE ++ "/AphiaClassificationByAphiaID".
Definition WORMS_API_DISTRIBUTION :=
  WORMS_API_BASE ++ "/AphiaDistributionsByAphiaID".
Definition WORMS_API_VERNACULAR_SEARCH :=
  WORMS_API_BASE ++ "/AphiaRecordsByVernacular".
Definition OBIS_API_OCCURRENCES := "https://api.obis.org/v3/occurrence".
Definition WIKI_API_ENDPOINT := "https://en.wikipedia.org/w/api.php".

Definition record_url (aphia_id : Z) : string :=
  WORMS_API_RECORD ++ "/" ++ PyStr.str_of_int aphia_id.

Definition exact_url (query : string) : string :=
  WORMS_API_BASE ++ "/AphiaRecordsByName/" ++ PyStr.quote query
  ++ "?marine_only=true&like=false&offset=1&limit=10".

Definition fuzzy_url (query : string) : string :=
  WORMS_API_BASE ++ "/AphiaRecordsByName/" ++ PyStr.quote query
  ++ "?marine_only=true&like=true&offset=1&limit=15".

Definition vernacular_url (common_name : string) : string :=
  WORMS_API_VERNACULAR_SEARCH ++ "/" ++ PyStr.quote common_name.

Definition wiki_params (search_term : string) : params :=
  [("action", "query"); ("titles", search_term);
   ("prop", "extracts|pageimages"); ("exintro", "True");
   ("explaintext", "True"); ("pithumbsize", "300"); ("pilimit", "3");
   ("format", "json"); ("utf8", "True")].

Definition obis_params (scientific_name : string) : params :=
  [("scientificname", scientific_name); ("limit", "50"); ("offset", "0")].

(** *** Extraction routines *)

(** [extract_habitat_info_fast(record_data, classification_data, obis_data)] *)
Definition habitat_keywords : list (string * string) :=
  [("benthic", "Benthic"); ("pelagic", "Pelagic"); ("demersal", "Demersal");
   ("reef", "Coral Reef"); ("coral", "Coral Reef");
   ("intertidal", "Intertidal"); ("subtidal", "Subtidal")].

Definition depth_zone_habitat (obis : option obis_data) (record_data : aphia_record)
    : Py.result (list string) :=
  match obis with
  | Some o =>
      if truth (obis_occurrences o) then
        Py.and_then (extract_depth_from_obis_fast obis record_data)
          (fun depth_info =>
             Py.Returned
               match depth_info with
               | Some info =>
                   match avg_depth info with
                   | Some avg =>
                       if Py.number_ltb avg (Py.PyInt 200) then ["Epipelagic"]
                       else if Py.number_ltb avg (Py.PyInt 1000)
                       then ["Mesopelagic"]
                       else ["Deep Sea"]
                   | None => []
                   end
               | None => []
               end)
      else Py.Returned []
  | None => Py.Returned []
  end.

(** [record_data.get('environment', '').lower()] raises [AttributeError] on
    a [null] environment. *)
Definition extract_habitat_info_fast (record_data : aphia_record)
    (obis : option obis_data) : Py.result string :=
  let habitat :=
    if isMarine record_data then
      if isBrackish record_data then "Marine/Brackish" else "Marine"
    else "Marine" in
  match environment record_data with
  | None => Py.Raised
  | Some environment =>
      let environment := Py.lower environment in
      Py.and_then (depth_zone_habitat obis record_data)
        (fun depth_zone =>
           let habitat_types :=
             (map snd (filter (fun kv => Fetch.contains (fst kv) environment)
                              habitat_keywords)
              ++ depth_zone)%list in
           Py.Returned
             match habitat_types with
             | [] => habitat
             | _ => habitat ++ " (" ++ PyStr.join ", " (firstn 3 habitat_types)
                    ++ ")"
             end)
  end.

(** [distribution.add(x)] for each usable locality *)
Fixpoint add_localities (l : list (option string)) (s : list string)
    : list string :=
  match l with
  | [] => s
  | Some x :: l' =>
      if Py.nonempty x then add_localities l' (set_add x s)
      else add_localities l' s
  | None :: l' => add_localities l' s
  end.

(** The first usable one of [locality], [waterBody], [country] *)
Definition occurrence_place (o : occurrence) : option string :=
  if Py.truthy (locality o) then locality o
  else if Py.truthy (waterBody o) then waterBody o
  else if Py.truthy (country o) then country o
  else None.

(** [for sep in [';', ',', '|']: ...] on the record's distribution text *)
Fixpoint first_part (seps : list string) (dist_text : string) : option string :=
  match seps with
  | [] => None
  | sep :: seps' =>
      if Fetch.contains sep dist_text then
        let part := Py.strip (PyStr.before_first sep dist_text) in
        if Py.nonempty part then Some part else first_part seps' dist_text
      else first_part seps' dist_text
  end.

(** [extract_distribution_fast(distribution_data, obis_data, worms_record)] *)
Definition extract_distribution_fast (distribution_data : option payload)
    (obis : option obis_data) (worms_record : aphia_record) : list string :=
  let s :=
    match distribution_data with
    | Some (JDistributions l) => add_localities (firstn 5 l) []
    | _ => []
    end in
  let s := add_localities (map occurrence_place (firstn 5 (obis_results obis))) s in
  let s :=
    match s, Data.distribution worms_record with
    | [], Some dist_text =>
        if Py.nonempty dist_text then
          match first_part [";"; ","; "|"] dist_text with
          | Some part => [part]
          | None =>
              if Py.nonempty (Py.strip dist_text) then [Py.strip dist_text]
              else []
          end
        else []
    | _, _ => s
    end in
  match s with
  | [] => ["Global distribution"]
  | _ => firstn 4 s
  end.

(** [extract_taxonomy_fast(classification_data)]: rank to name, the first
    name met for a rank being kept. [node.get('rank', '').lower()] raises
    [AttributeError] on a [null] rank. *)
Fixpoint taxonomy_of (node : classification) (taxonomy : list (string * string))
    : Py.result (list (string * string)) :=
  match node with
  | NoNode => Py.Returned taxonomy
  | Node None name child => Py.Raised
  | Node (Some rank) name child =>
      let rank := Py.lower rank in
      let taxonomy :=
        if Py.nonempty rank && Py.nonempty name
           && negb (existsb (fun kv => String.eqb (fst kv) rank) taxonomy)
        then (taxonomy ++ [(rank, name)])%list
        else taxonomy in
      taxonomy_of child taxonomy
  end.

Definition extract_taxonomy_fast (classification_data : option payload)
    : Py.result (list (string * string)) :=
  match classification_data with
  | Some (JClassification c) => taxonomy_of c []
  | _ => Py.Returned []
  end.

(** [extract_occurrence_stats_fast(obis_data)] *)
Definition years_of (l : list occurrence) : list Z :=
  flat_map (fun o => match year o with
                     | Some y => if (y =? 0)%Z then [] else [y]
                     | None => []
                     end) l.

Definition extract_occurrence_stats_fast (obis : option obis_data)
    : Species.occurrence_stats :=
  match obis with
  | Some {| obis_occurrences := JOccurrences occ |} =>
      let rs := firstn 10 (results occ) in
      {| Species.total_records := total occ;
         Species.has_depth_data :=
           existsb (fun o => match depth o with Some _ => true | None => false end) rs;
         Species.has_coordinates :=
           existsb (fun o => match decimalLatitude o, decimalLongitude o with
                             | Some _, Some _ => true
                             | _, _ => false
                             end) rs;
         Species.year_range :=
           match years_of rs with
           | y :: ys =>
               Some (PyStr.str_of_int (Py.int_min y ys) ++ "-"
                     ++ PyStr.str_of_int (Py.int_max y ys))
           | [] => None
           end |}
  | _ =>
      {| Species.total_records := 0; Species.has_depth_data := false;
         Species.has_coordinates := false; Species.year_range := None |}
  end.

Definition looks_scientific (s : string) : bool :=
  match Re.match_ SCIENTIFIC_NAME_PATTERN (list_ascii_of_string s) with
  | Some _ => true
  | None => false
  end.

(** The loop over [vernaculars[:2]] of [extract_common_name_fast]: an English
    name returns at once ([inl]); otherwise the first name met is kept
    ([inr]). [v.get('vernacular', '').strip()] and
    [v.get('language', '').lower()] raise [AttributeError] on [null]. *)
Fixpoint scan_vernaculars (l : list vernacular_entry) (common_name : string)
    : Py.result (string + string) :=
  match l with
  | [] => Py.Returned (inr common_name)
  | v :: l' =>
      match vernacular v with
      | None => Py.Raised
      | Some name =>
          let name := Py.strip name in
          if Py.nonempty name then
            match language v with
            | None => Py.Raised
            | Some lang =>
                if String.eqb (Py.lower lang) "english"
                then Py.Returned (inl name)
                else if Py.nonempty common_name
                then scan_vernaculars l' common_name
                else scan_vernaculars l' name
            end
          else scan_vernaculars l' common_name
      end
  end.

(** [extract_common_name_fast(record_data, wiki_data, search_term, scientific_name)] *)
Definition extract_common_name_fast (record_data : aphia_record)
    (wiki : option wiki_data) (search_term : option string)
    (scientific_name : option string) : Py.result (option string) :=
  Py.and_then (scan_vernaculars (firstn 2 (vernaculars record_data)) "")
    (fun scanned =>
       Py.Returned
         match scanned with
         | inl name => Some name
         | inr common_name =>
             if Py.nonempty common_name then Some common_name
             else if Py.truthy (valid_vernacular record_data) then
               option_map Py.strip (valid_vernacular record_data)
             else
               match wiki with
               | Some wd =>
                   if Py.nonempty (title wd)
                      && negb (looks_scientific (title wd))
                   then Some (title wd)
                   else
                     match search_term with
                     | Some st =>
                         if Py.nonempty st && negb (String.eqb st "null")
                            && negb (looks_scientific st)
                         then Some st else scientific_name
                     | None => scientific_name
                     end
               | None =>
                   match search_term with
                   | Some st =>
                       if Py.nonempty st && negb (String.eqb st "null")
                          && negb (looks_scientific st)
                       then Some st else scientific_name
                   | None => scientific_name
                   end
               end
         end).

(** [str(x)] inside an f-string *)
Definition fmt (s : option string) : string :=
  match s with Some s => s | None => "None" end.

Definition option_string_eqb (a b : option string) : bool :=
  match a, b with
  | Some x, Some y => String.eqb x y
  | None, None => true
  | _, _ => false
  end.

(** [create_description_fast(...)] *)
Definition described_by_wikipedia (wiki : option wiki_data) : option string :=
  match wiki with
  | Some wd =>
      if Py.nonempty (description wd)
         && (30 <? String.length (Py.strip (description wd)))%nat
      then Some (description wd) else None
  | None => None
  end.

Definition create_description_fast (common_name scientific_name : option string)
    (habitat_info : string) (distribution : list string)
    (depth : option depth_info) (wiki : option wiki_data) : string :=
  match described_by_wikipedia wiki with
  | Some text => text
  | None =>
      let subject :=
        if Py.truthy common_name
           && negb (option_string_eqb common_name scientific_name)
        then "The " ++ fmt common_name ++ " (" ++ fmt scientific_name ++ ")"
        else "The marine species " ++ fmt scientific_name in
      let kind :=
        if Py.nonempty habitat_info then
          let habitat_simple :=
            if Fetch.contains "(" habitat_info
            then Py.strip (PyStr.before_first "(" habitat_info)
            else habitat_info in
          "is a " ++ Py.lower habitat_simple ++ " species."
        else "is a marine species." in
      let places :=
        match distribution with
        | [] => []
        | _ => ["It is found in " ++ PyStr.join ", " (firstn 2 distribution) ++ "."]
        end in
      let zone :=
        match depth with
        | Some info =>
            let avg := match avg_depth info with
                       | Some a => a
                       | None => Py.PyInt 0
                       end in
            ["This species inhabits "
             ++ (if Py.number_ltb avg (Py.PyInt 200) then "shallow coastal waters"
                 else if Py.number_ltb avg (Py.PyInt 1000) then "moderate depths"
                 else "deep ocean waters")
             ++ "."]
        | None => []
        end in
      PyStr.join " " ([subject; kind] ++ places ++ zone)%list
  end.

(** [determine_image_source_fast(worms_image_url, wiki_data, scientific_name)] *)
Definition determine_image_source_fast (worms_image_url : option string)
    (wiki : option wiki_data) : option string * option string :=
  if Py.truthy worms_image_url then (worms_image_url, Some "WoRMS")
  else
    match wiki with
    | Some wd =>
        if Py.truthy (thumb_url wd) then (thumb_url wd, Some "Wikipedia")
        else (None, None)
    | None => (None, None)
    end.

Section WithRuntime.

Variable RT : runtime.

(** [api_request_with_cache(url)], with the default [retries=2] *)
Definition api (url : string) (p : option params) (cache_key : option string)
    : M (option payload) :=
  Fetch.api_request_with_cache (net RT) url p cache_key 2.

(** *** Wikipedia and OBIS *)

(** The loop over [pages.items()] of [get_wikipedia_data_fast] *)
Fixpoint first_usable_page (pages : list (string * wiki_page))
    : option wiki_data :=
  match pages with
  | [] => None
  | (pid, page) :: pages' =>
      if String.eqb pid "-1" then first_usable_page pages'
      else if Py.nonempty (extract page)
              && (30 <? String.length (Py.strip (extract page)))%nat
      then Some {| description := Py.strip (extract page);
                   thumb_url := if Py.truthy (thumbnail page)
                                then thumbnail page else None;
                   title := page_title page;
                   is_common_name :=
                     match Re.match_ SCIENTIFIC_NAME_PATTERN
                             (list_ascii_of_string (page_title page)) with
                     | Some _ => false
                     | None => true
                     end;
                   wiki_url := fullurl page |}
      else first_usable_page pages'
  end.

(** [get_wikipedia_data_fast(search_term)]; [None] is the empty dict. *)
Definition get_wikipedia_data_fast (search_term : string)
    : M (option wiki_data) :=
  let search_term := Py.strip search_term in
  data <- api WIKI_API_ENDPOINT (Some (wiki_params search_term)) None ;;
  ret match data with
      | Some (JWikipedia pages) => first_usable_page pages
      | _ => None
      end.

(** [get_obis_data_fast(scientific_name)] *)
Definition get_obis_data_fast (scientific_name : string)
    : M (option obis_data) :=
  data <- api OBIS_API_OCCURRENCES (Some (obis_params scientific_name))
              (Some ("obis_" ++ scientific_name)) ;;
  ret match data with
      | Some d =>
          if truth d
          then Some {| obis_occurrences := d;
                       obis_scientific_name := scientific_name |}
          else None
      | None => None
      end.

(** *** Images *)

Definition is_http (u : string) : bool :=
  PyStr.startswith "http://" u || PyStr.startswith "https://" u.

Definition ensure_https (u : string) : string :=
  if PyStr.startswith "http://" u
  then PyStr.replace "http://" "https://" u
  else u.

(** [for field in url_fields: ...] for one image entry *)
Fixpoint pick_url (fields : list (option string)) (image_urls : list string)
    : list string :=
  match fields with
  | [] => image_urls
  | f :: fields' =>
      match f with
      | Some u =>
          if Py.nonempty u && is_http u then
            if existsb (String.eqb (ensure_https u)) image_urls
            then pick_url fields' image_urls
            else image_urls ++ [ensure_https u]
          else pick_url fields' image_urls
      | None => pick_url fields' image_urls
      end
  end.

Definition collect_image_urls (l : list image_entry) : list string :=
  fold_left
    (fun image_urls e => pick_url [url e; thumbnail_url e; image_url e] image_urls)
    l [].

(** [get_worms_images_fast(aphia_id)] *)
Definition get_worms_images_fast (aphia_id : Z) : M (list string) :=
  data <- api (WORMS_API_BASE ++ "/AphiaImagesByAphiaID/"
               ++ PyStr.str_of_int aphia_id) None
              (Some ("worms_images_" ++ PyStr.str_of_int aphia_id)) ;;
  let image_urls :=
    match data with
    | Some (JImages l) => collect_image_urls (firstn 3 l)
    | _ => []
    end in
  match image_urls with
  | [] =>
      record_data <- api (record_url aphia_id) None
                         (Some ("worms_record_" ++ PyStr.str_of_int aphia_id)) ;;
      ret match record_data with
          | Some (JRecord r) =>
              match picture_url r with
              | Some u =>
                  if Py.nonempty u && is_http u then [ensure_https u] else []
              | None => []
              end
          | _ => []
          end
  | _ => ret (firstn 3 image_urls)
  end.

(** [get_worms_image_fast(aphia_id)] *)
Definition get_worms_image_fast (aphia_id : Z) : M (option string) :=
  images <- get_worms_images_fast aphia_id ;;
  ret (hd_error images).

(** *** EnrichmentAggregator *)

Definition usable_name (r : aphia_record) : bool :=
  Py.truthy (scientificname r) || Py.truthy (valid_name r).

(** The end of [get_complete_species_data_parallel]: the extraction routines
    are run one after the other on the base record, the four gathered
    results and the WoRMS image, and the record is built from what they
    return; an exception raised by one of them leaves the block. *)
Definition assemble (aphia_id : Z) (search_term : option string)
    (record_data : aphia_record)
    (classification_data distribution_data : option payload)
    (obis : option obis_data) (wiki : option wiki_data)
    (worms_image_url : option string) : Py.result Species.t :=
  let scientific_name := scientificname record_data in
  Py.and_then (extract_habitat_info_fast record_data obis) (fun habitat_info =>
  Py.and_then (extract_depth_from_obis_fast obis record_data) (fun depth =>
  let distribution :=
    extract_distribution_fast distribution_data obis record_data in
  Py.and_then (extract_taxonomy_fast classification_data) (fun taxonomy =>
  Py.and_then
    (extract_common_name_fast record_data wiki search_term scientific_name)
    (fun common_name =>
  let image := determine_image_source_fast worms_image_url wiki in
  Py.Returned
    {| Species.title :=
         if Py.truthy (valid_name record_data)
         then fmt (valid_name record_data)
         else match scientific_name with Some s => s | None => "Unknown" end;
       Species.common_name := common_name;
       Species.latin_name := scientific_name;
       Species.aphia_id := aphia_id;
       Species.habitat := habitat_info;
       Species.depth_info := depth;
       Species.distribution := distribution;
       Species.ocean_basins := extract_ocean_basins_fast obis;
       Species.stats := extract_occurrence_stats_fast obis;
       Species.extract :=
         create_description_fast common_name scientific_name habitat_info
           distribution depth wiki;
       Species.thumb_url := fst image;
       Species.image_source := snd image;
       Species.wiki_url := option_map wiki_url wiki;
       Species.taxonomy := taxonomy;
       Species.source := "worms_obis";
       Species.is_marine := isMarine record_data;
       Species.is_brackish := isBrackish record_data;
       Species.is_freshwater := isFreshwater record_data;
       Species.is_terrestrial := isTerrestrial record_data |})))).

(** [try: ... except Exception: return None] around the building of the
    record *)
Definition caught {A : Type} (r : Py.result A) : option A :=
  match r with
  | Py.Returned a => Some a
  | Py.Raised => None
  end.

(** The terms [fetch_wiki] tries, in order *)
Definition wiki_search_terms (search_term : option string)
    (record_data : aphia_record) : list string :=
  ((if Py.truthy search_term then [fmt search_term] else [])
   ++ (if Py.truthy (valid_name record_data)
       then [fmt (valid_name record_data)] else [])
   ++ (if Py.truthy (scientificname record_data)
       then [fmt (scientificname record_data)] else []))%list.

(** The task [fetch_wiki] *)
Fixpoint fetch_wiki (terms : list string) : M (option wiki_data) :=
  match terms with
  | [] => ret None
  | term :: terms' =>
      if Py.nonempty term && negb (String.eqb term "null") then
        wiki <- get_wikipedia_data_fast term ;;
        match wiki with
        | Some wd =>
            if Py.nonempty (description wd) then ret (Some wd)
            else fetch_wiki terms'
        | None => fetch_wiki terms'
        end
      else fetch_wiki terms'
  end.

(** The task [fetch_obis] *)
Definition fetch_obis (scientific_name : option string) : M (option obis_data) :=
  match scientific_name with
  | Some name => if Py.nonempty name then get_obis_data_fast name else ret None
  | None => ret None
  end.

(** [results[key] = future.result(timeout=10)], or [None] on a timeout.
    [started] is the number of network calls made before the tasks ran. *)
Definition gathered {A : Type} (started : nat) (key : string)
    (result : option A) : option A :=
  if future_times_out RT started key then None else result.

(** [get_complete_species_data_parallel(aphia_id, search_term)]. The four
    tasks of the pool are run one after the other, in the order of their
    submission. The body is one [try] whose handler returns [None]: this is
    where an answer of the record endpoint that is not a dict ends
    ([record_data.get] raises on it), and an exception raised while the
    record is built. *)
Definition get_complete_species_data_parallel (aphia_id : Z)
    (search_term : option string) : M (option Species.t) :=
  if (aphia_id =? 0)%Z then ret None
  else
    record_data <- api (record_url aphia_id) None None ;;
    match record_data with
    | Some (JRecord r) =>
        if usable_name r then
          fun w =>
            let started := List.length (Fetch.sent w) in
            (classification <-
               api (WORMS_API_CLASSIFICATION ++ "/" ++ PyStr.str_of_int aphia_id)
                   None None ;;
             distribution <-
               api (WORMS_API_DISTRIBUTION ++ "/" ++ PyStr.str_of_int aphia_id)
                   None None ;;
             obis <- fetch_obis (scientificname r) ;;
             wiki <- fetch_wiki (wiki_search_terms search_term r) ;;
             worms_image_url <- get_worms_image_fast aphia_id ;;
             ret (caught (assemble aphia_id search_term r
                            (gathered started "classification" classification)
                            (gathered started "distribution" distribution)
                            (gathered started "obis" obis)
                            (gathered started "wiki" wiki)
                            worms_image_url))) w
        else ret None
    | _ => ret None
    end.

(** [get_complete_species_data(aphia_id, search_term)] *)
Definition get_complete_species_data (aphia_id : Z)
    (search_term : option string) : M (option Species.t) :=
  get_complete_species_data_parallel aphia_id search_term.

(** *** NameResolver *)

Definition accepted (item : aphia_record) : bool :=
  String.eqb (Py.lower (status item)) "accepted".

(** [item.get('scientificname', '').lower().strip()]; WoRMS names every
    record it lists (a [null] name is not modelled). *)
Definition item_name (item : aphia_record) : string :=
  Py.strip (Py.lower (match scientificname item with
                      | Some s => s
                      | None => ""
                      end)).

(** The usable id of a listed record: [None] when [not aphia_id] *)
Definition item_id (item : aphia_record) : option Z :=
  match AphiaID item with
  | Some id => if (id =? 0)%Z then None else Some id
  | None => None
  end.

(** The loop over the exact-search answer: the first accepted record whose
    name equals the query and that can be enriched is returned at once. *)
Fixpoint exact_loop (query query_lower : string) (items : list aphia_record)
    : M (option Species.t) :=
  match items with
  | [] => ret None
  | item :: items' =>
      match item_id item with
      | Some aphia_id =>
          if accepted item && String.eqb (item_name item) query_lower then
            species_data <- get_complete_species_data aphia_id (Some query) ;;
            match species_data with
            | Some sp => ret (Some sp)
            | None => exact_loop query query_lower items'
            end
          else exact_loop query query_lower items'
      | None => exact_loop query query_lower items'
      end
  end.

Definition has_id (aphia_id : Z) (results : list Species.t) : bool :=
  existsb (fun r => (Species.aphia_id r =? aphia_id)%Z) results.

(** The loop over the fuzzy-search answer *)
Fixpoint fuzzy_loop (query query_lower : string) (items : list aphia_record)
    (results : list Species.t) : M (list Species.t) :=
  match items with
  | [] => ret results
  | item :: items' =>
      match item_id item with
      | Some aphia_id =>
          if accepted item
             && (Fetch.contains query_lower (item_name item)
                 || Fetch.contains (item_name item) query_lower) then
            species_data <- get_complete_species_data aphia_id (Some query) ;;
            match species_data with
            | Some sp =>
                if has_id aphia_id results
                then fuzzy_loop query query_lower items' results
                else fuzzy_loop query query_lower items' (results ++ [sp])%list
            | None => fuzzy_loop query query_lower items' results
            end
          else fuzzy_loop query query_lower items' results
      | None => fuzzy_loop query query_lower items' results
      end
  end.

Definition listed (data : option payload) : list aphia_record :=
  match data with
  | Some (JRecords l) => l
  | _ => []
  end.

(** [search_worms_species_robust(query)] *)
Definition search_worms_species_robust (query : string) : M (list Species.t) :=
  let query_lower := Py.strip (Py.lower query) in
  data <- api (exact_url query) None None ;;
  hit <- exact_loop query query_lower (listed data) ;;
  match hit with
  | Some sp => ret [sp]
  | None =>
      data <- api (fuzzy_url query) None None ;;
      results <- fuzzy_loop query query_lower (listed data) [] ;;
      ret (firstn 8 results)
  end.

(** [for sci_name in scientific_names[:3]: ...]: the first candidate with
    results wins *)
Fixpoint try_names (names : list string) : M (list Species.t) :=
  match names with
  | [] => ret []
  | sci_name :: names' =>
      results <- search_worms_species_robust sci_name ;;
      match results with
      | [] => try_names names'
      | _ => ret results
      end
  end.

(** [wikipedia_mediated_search_fast(common_name)] *)
Definition wikipedia_mediated_search_fast (common_name : string)
    : M (list Species.t) :=
  wiki <- get_wikipedia_data_fast common_name ;;
  match wiki with
  | Some wd =>
      if Py.nonempty (description wd) then
        try_names (firstn 3 (extract_scientific_names_from_text_fast RT
                               (description wd)))
      else ret []
  | None => ret []
  end.

(** The loop over [data[:8]] of [search_by_common_name_fast] *)
Fixpoint vernacular_loop (common_name : string) (items : list aphia_record)
    (results : list Species.t) (seen_ids : list Z) : M (list Species.t) :=
  match items with
  | [] => ret results
  | item :: items' =>
      match item_id item with
      | Some aphia_id =>
          if existsb (Z.eqb aphia_id) seen_ids
          then vernacular_loop common_name items' results seen_ids
          else
            record_data <- api (record_url aphia_id) None None ;;
            match record_data with
            | Some (JRecord r) =>
                if accepted r && isMarine r then
                  species_data <-
                    get_complete_species_data aphia_id (Some common_name) ;;
                  match species_data with
                  | Some sp =>
                      if (5 <=? List.length (results ++ [sp]))%nat
                      then ret (results ++ [sp])%list
                      else vernacular_loop common_name items'
                             (results ++ [sp])%list (aphia_id :: seen_ids)
                  | None => vernacular_loop common_name items' results seen_ids
                  end
                else vernacular_loop common_name items' results seen_ids
            | _ => vernacular_loop common_name items' results seen_ids
            end
      | None => vernacular_loop common_name items' results seen_ids
      end
  end.

(** [search_by_common_name_fast(common_name)] *)
Definition search_by_common_name_fast (common_name : string)
    : M (list Species.t) :=
  data <- api (vernacular_url common_name) None None ;;
  results <- vernacular_loop common_name (firstn 8 (listed data)) [] [] ;;
  match results with
  | [] => wikipedia_mediated_search_fast common_name
  | _ => ret results
  end.

(** [fuzzy_search_common_name_fast(query)] *)
Definition fuzzy_search_common_name_fast (query : string)
    : M (list Species.t) :=
  wiki <- get_wikipedia_data_fast query ;;
  match wiki with
  | Some wd =>
      let scientific_names :=
        (extract_scientific_names_from_text_fast RT (description wd)
         ++ (if is_scientific_name (title wd) then [title wd] else []))%list in
      results <- try_names (firstn 3 scientific_names) ;;
      match results with
      | [] => search_worms_species_robust (title wd)
      | _ => ret results
      end
  | None => ret []
  end.

(** [search_worms_species_fast(query)]; an exception raised by
    [int(clean_query)] is caught by the handler of the whole function, which
    returns the empty list. *)
Definition search_worms_species_fast (query : string) : M (list Species.t) :=
  let clean_query := Py.strip query in
  if (String.length clean_query <? 2)%nat then ret []
  else if Py.isdigit clean_query then
    match Py.int_of_digits (int_max_str_digits RT) clean_query with
    | Some aphia_id =>
        species_data <- get_complete_species_data aphia_id (Some "") ;;
        ret match species_data with
            | Some sp => [sp]
            | None => []
            end
    | None => ret []
    end
  else if is_scientific_name clean_query then
    search_worms_species_robust clean_query
  else
    results <- search_worms_species_robust clean_query ;;
    results <- match results with
               | [] => search_by_common_name_fast clean_query
               | _ => ret results
               end ;;
    results <- match results with
               | [] => fuzzy_search_common_name_fast clean_query
               | _ => ret results
               end ;;
    ret (firstn 10 results).

(** *** BrowseSampler *)

Definition popular_marine_groups : list string :=
  ["whale"; "dolphin"; "shark"; "ray"; "turtle"; "seal"; "octopus"; "crab";
   "jellyfish"; "starfish"; "coral"].

Definition scientific_groups : list string :=
  ["Orcinus orca"; "Delphinus delphis"; "Carcharodon carcharias";
   "Chelonia mydas"; "Phoca vitulina"; "Octopus vulgaris"].

(** [for species_data in search_results: ...]: the species list and the ids
    seen, after the results of one seed term *)
Fixpoint take_results (offset limit : nat) (search_results : list Species.t)
    (marine_species : list Species.t) (seen_aphia_ids : list Z)
    : list Species.t * list Z :=
  match search_results with
  | [] => (marine_species, seen_aphia_ids)
  | species_data :: rest =>
      let aphia_id := Species.aphia_id species_data in
      if (aphia_id =? 0)%Z || existsb (Z.eqb aphia_id) seen_aphia_ids
      then take_results offset limit rest marine_species seen_aphia_ids
      else
        let '(marine_species, seen_aphia_ids) :=
          if (offset <=? List.length marine_species)%nat
          then ((marine_species ++ [species_data])%list,
                aphia_id :: seen_aphia_ids)
          else (marine_species, seen_aphia_ids) in
        if (offset + limit <=? List.length marine_species)%nat
        then (marine_species, seen_aphia_ids)
        else take_results offset limit rest marine_species seen_aphia_ids
  end.

(** [for search_term in all_search_terms: ...] *)
Fixpoint browse_terms (offset limit : nat) (terms : list string)
    (marine_species : list Species.t) (seen_aphia_ids : list Z)
    : M (list Species.t) :=
  match terms with
  | [] => ret marine_species
  | search_term :: terms' =>
      if (offset + limit <=? List.length marine_species)%nat
      then ret marine_species
      else
        search_results <- search_worms_species_fast search_term ;;
        let '(marine_species, seen_aphia_ids) :=
          take_results offset limit search_results marine_species
            seen_aphia_ids in
        fun w =>
          browse_terms offset limit terms' marine_species seen_aphia_ids
            (Fetch.sleep (3 # 10) w)
  end.

(** [browse_marine_animals_fast(offset, limit)] *)
Definition browse_marine_animals_fast (offset limit : nat)
    : M (list Species.t) :=
  fun w =>
    let all_search_terms :=
      shuffle RT (List.length (Fetch.sent w))
        (popular_marine_groups ++ scientific_groups)%list in
    (marine_species <- browse_terms offset limit all_search_terms [] [] ;;
     let start_idx := Nat.min offset (List.length marine_species) in
     let end_idx := Nat.min (offset + limit) (List.length marine_species) in
     ret (skipn start_idx (firstn end_idx marine_species))) w.

End WithRuntime.

End Pipeline.

(** ** Searching and browsing from the main window

    [MarineSearchThread] and the slots of [MainWindow] that start it and
    receive its results. A click is followed to its end: the handler, the
    thread's [run], and the slot connected to [finished]. Of the window, the
    attributes these handlers assign and the widgets they show, hide or fill
    are kept; the detail pane is represented by the record it displays
    ([current_species_data]). The [progress] signal is connected to nothing
    and is left out. *)

Module Gui.
Import Pipeline.

Local Open Scope string_scope.

Definition BROWSE_LIMIT_INITIAL : nat := 20.
Definition BROWSE_LIMIT_INCREMENT : nat := 5.

Section WithRuntime.

Variable RT : runtime.

(** A species the user added by hand; searching and browsing only carry
    such rows along. *)
Variable local : Type.

(** An element of [current_search_results] *)
Inductive row : Type :=
| Fetched (species_data : Species.t)
| UserAdded (species_data : local).

(** *** [class MarineSearchThread] *)

Record MarineSearchThread : Type := {
  query : string;
  browse_mode : bool;
  thread_browse_offset : nat;
  browse_limit : nat
}.

(** [MarineSearchThread.browse_marine_animals()] *)
Definition browse_marine_animals (t : MarineSearchThread) : M (list Species.t) :=
  browse_marine_animals_fast RT (thread_browse_offset t) (browse_limit t).

(** [MarineSearchThread.search_marine_species(query)] *)
Definition search_marine_species (query : string) : M (list Species.t) :=
  if negb (Py.nonempty query) || (String.length (Py.strip query) <? 2)%nat
  then ret []
  else
    results <- search_worms_species_fast RT query ;;
    match results with
    | [] => ret []
    | _ => ret results
    end.

(** [MarineSearchThread.run()]: the list handed to [finished.emit]. Neither
    branch raises, so [error] is never emitted. *)
Definition run (t : MarineSearchThread) : M (list Species.t) :=
  if browse_mode t then browse_marine_animals t
  else search_marine_species (query t).

(** *** [class MainWindow] *)

Record window : Type := {
  search_input : string;
  is_browsing : bool;
  browse_offset : nat;
  current_search_results : list row;
  current_species_data : option row;
  (** the rows of [list_widget], the text of [results_count], whether
      [browse_more_btn] and [loading_overlay] are shown *)
  list_widget : list row;
  results_count : string;
  browse_more_btn : bool;
  loading_overlay : bool
}.

Definition count_text (n : nat) : string :=
  PyStr.str_of_int (Z.of_nat n) ++ " marine animals".

(** [show_loading(message)] / [hide_loading()] *)
Definition show_loading (win : window) : window :=
  {| search_input := search_input win; is_browsing := is_browsing win;
     browse_offset := browse_offset win;
     current_search_results := current_search_results win;
     current_species_data := current_species_data win;
     list_widget := list_widget win; results_count := results_count win;
     browse_more_btn := browse_more_btn win; loading_overlay := true |}.

Definition hide_loading (win : window) : window :=
  {| search_input := search_input win; is_browsing := is_browsing win;
     browse_offset := browse_offset win;
     current_search_results := current_search_results win;
     current_species_data := current_species_data win;
     list_widget := list_widget win; results_count := results_count win;
     browse_more_btn := browse_more_btn win; loading_overlay := false |}.

(** [handle_search_results(results)] *)
Definition handle_search_results (results : list Species.t) (win : window)
    : window :=
  let rows := map Fetched results in
  {| search_input := search_input win; is_browsing := is_browsing win;
     browse_offset := browse_offset win;
     current_search_results := rows;
     current_species_data :=
       match rows with
       | first :: _ => Some first
       | [] => current_species_data win
       end;
     list_widget := rows;
     results_count := count_text (List.length results);
     browse_more_btn :=
       is_browsing win && (BROWSE_LIMIT_INITIAL <=? List.length results)%nat;
     loading_overlay := false |}.

(** [handle_browse_more_results(new_results)] *)
Definition handle_browse_more_results (new_results : list Species.t)
    (win : window) : window :=
  let win := hide_loading win in
  match new_results with
  | [] => win
  | _ =>
      let rows := (current_search_results win ++ map Fetched new_results)%list in
      {| search_input := search_input win; is_browsing := is_browsing win;
         browse_offset := browse_offset win;
         current_search_results := rows;
         current_species_data := current_species_data win;
         list_widget := (list_widget win ++ map Fetched new_results)%list;
         results_count := count_text (List.length rows);
         browse_more_btn :=
           (BROWSE_LIMIT_INCREMENT <=? List.length new_results)%nat;
         loading_overlay := loading_overlay win |}
  end.

(** [on_search()], with the thread it starts and the slot that receives the
    results *)
Definition on_search (win : window) : M window :=
  let query := Py.strip (search_input win) in
  if negb (Py.nonempty query) then ret win
  else
    let win :=
      show_loading
        {| search_input := search_input win; is_browsing := false;
           browse_offset := 0;
           current_search_results := current_search_results win;
           current_species_data := current_species_data win;
           list_widget := list_widget win; results_count := results_count win;
           browse_more_btn := false;
           loading_overlay := loading_overlay win |} in
    results <- run {| query := query; browse_mode := false;
                      thread_browse_offset := 0;
                      browse_limit := BROWSE_LIMIT_INITIAL |} ;;
    ret (handle_search_results results win).

(** [on_browse_all()] *)
Definition on_browse_all (win : window) : M window :=
  let win :=
    show_loading
      {| search_input := ""; is_browsing := true; browse_offset := 0;
         current_search_results := current_search_results win;
         current_species_data := current_species_data win;
         list_widget := list_widget win; results_count := results_count win;
         browse_more_btn := browse_more_btn win;
         loading_overlay := loading_overlay win |} in
  results <- run {| query := ""; browse_mode := true;
                    thread_browse_offset := browse_offset win;
                    browse_limit := BROWSE_LIMIT_INITIAL |} ;;
  ret (handle_search_results results win).

(** [on_browse_more()] *)
Definition on_browse_more (win : window) : M window :=
  if negb (is_browsing win) then ret win
  else
    let win :=
      show_loading
        {| search_input := search_input win; is_browsing := is_browsing win;
           browse_offset := browse_offset win + BROWSE_LIMIT_INCREMENT;
           current_search_results := current_search_results win;
           current_species_data := current_species_data win;
           list_widget := list_widget win; results_count := results_count win;
           browse_more_btn := browse_more_btn win;
           loading_overlay := loading_overlay win |} in
    results <- run {| query := ""; browse_mode := true;
                      thread_browse_offset := browse_offset win;
                      browse_limit := BROWSE_LIMIT_INCREMENT |} ;;
    ret (handle_browse_more_results results win).

(** [n] clicks on "Browse More", one after the other *)
Fixpoint browse_more_clicks (n : nat) (win : window) : M window :=
  match n with
  | O => ret win
  | S n' =>
      win <- on_browse_more win ;;
      browse_more_clicks n' win
  end.

End WithRuntime.

End Gui.

(** ** The high-level taxa offered at start-up

    [fetch_high_level_taxa_cached] and [get_vernacular_name_cached], with the
    memo tables [functools.lru_cache] keeps for them. *)

Module Taxa.

Local Open Scope string_scope.

(** One record of the [AphiaRecordsByName] answer, as far as it is read
    here. [rank] is [None] for a JSON [null] (on which [.lower()] raises)
    and [""] for a missing key. *)
Record taxon_item : Type := {
  AphiaID : option Z;
  rank : option string;
  scientificname : option string;
  isMarine : bool
}.

(** One entry of the [AphiaVernacularsByAphiaID] answer. A field is [None]
    for a JSON [null] and [""] for a missing key. *)
Record vernacular_item : Type := {
  vernacular : option string;
  language : option string
}.

(** What the two endpoints may answer: a list of records, a single record,
    a list of vernaculars, a dict of another shape, or a value that is
    neither a dict nor a list (with its truth value). *)
Inductive payload : Type :=
| JItems (l : list taxon_item)
| JItem (i : taxon_item)
| JVernaculars (l : list vernacular_item)
| JOtherDict (truth : bool)
| JScalar (truth : bool).

(** [bool(data)] *)
Definition truth (d : payload) : bool :=
  match d with
  | JItems [] | JVernaculars [] => false
  | JOtherDict b | JScalar b => b
  | _ => true
  end.

Definition params : Type := Pipeline.params.

(** An entry of [HIGH_LEVEL_TAXA] *)
Record taxon : Type := {
  name : option string;
  aphia_id : Z;
  taxon_rank : string;
  scientific : option string
}.

(** The process state: the fetch layer's, and the two memo tables. The
    table of [get_vernacular_name_cached] lists the ids looked up, the most
    recent first. *)
Record state : Type := {
  net : Fetch.world payload params;
  vernacular_memo : list (Z * option string);
  taxa_memo : option (list taxon)
}.

Definition M (A : Type) : Type := state -> A * state.

Definition ret {A : Type} (a : A) : M A := fun s => (a, s).

Definition bind {A B : Type} (m : M A) (k : A -> M B) : M B :=
  fun s => let (a, s') := m s in k a s'.

Notation "x <- m ;; k" := (bind m (fun x => k))
  (at level 61, m at next level, right associativity).

Definition WORMS_API_SEARCH := Pipeline.WORMS_API_BASE ++ "/AphiaRecordsByName".
Definition WORMS_API_VERNACULARS :=
  Pipeline.WORMS_API_BASE ++ "/AphiaVernacularsByAphiaID".

Definition to_upper (c : ascii) : ascii :=
  if Re.lower_case c then ascii_of_nat (Re.code c - 32) else c.

(** [s.capitalize()] on ASCII *)
Definition capitalize (s : string) : string :=
  match s with
  | EmptyString => EmptyString
  | String c s' => String (to_upper c) (Py.lower s')
  end.

Definition marine_animal_groups : list string :=
  ["Cetacea"; "Actinopterygii"; "Elasmobranchii"; "Chondrichthyes";
   "Mammalia"; "Pinnipedia"; "Sirenia"; "Cephalopoda"].

Definition search_params (group : string) : params :=
  [("scientificname", group); ("marine_only", "True"); ("like", "False");
   ("offset", "1"); ("limit", "5")].

Definition default_taxa : list taxon :=
  [ {| name := Some "Whales & Dolphins"; aphia_id := 1837;
       taxon_rank := "Order"; scientific := Some "Cetacea" |};
    {| name := Some "Bony Fish"; aphia_id := 10194;
       taxon_rank := "Class"; scientific := Some "Actinopterygii" |};
    {| name := Some "Sharks & Rays"; aphia_id := 10215;
       taxon_rank := "Class"; scientific := Some "Elasmobranchii" |};
    {| name := Some "Marine Mammals"; aphia_id := 1836;
       taxon_rank := "Infraorder"; scientific := Some "Cetacea" |};
    {| name := Some "Squid & Octopus"; aphia_id := 123084;
       taxon_rank := "Class"; scientific := Some "Cephalopoda" |} ].

(** The list returned when the body raises *)
Definition fallback_taxa : list taxon :=
  [ {| name := Some "Whales & Dolphins"; aphia_id := 1837;
       taxon_rank := "Order"; scientific := Some "Cetacea" |};
    {| name := Some "Bony Fish"; aphia_id := 10194;
       taxon_rank := "Class"; scientific := Some "Actinopterygii" |};
    {| name := Some "Sharks & Rays"; aphia_id := 10215;
       taxon_rank := "Class"; scientific := Some "Elasmobranchii" |};
    {| name := Some "Squid & Octopus"; aphia_id := 123084;
       taxon_rank := "Class"; scientific := Some "Cephalopoda" |};
    {| name := Some "Sea Turtles"; aphia_id := 1840;
       taxon_rank := "Order"; scientific := Some "Testudines" |} ].

Section WithUpstream.

Variable U : Fetch.upstream payload params.

(** [api_request_with_cache(url, params=params)] *)
Definition api (url : string) (p : option params) : M (option payload) :=
  fun s =>
    let (data, w) := Fetch.api_request_with_cache U url p None 2 (net s) in
    (data, {| net := w; vernacular_memo := vernacular_memo s;
              taxa_memo := taxa_memo s |}).

(** *** [get_vernacular_name_cached] *)

(** [for v in data: if v.get('language', '').lower() == 'english': return
    v.get('vernacular', '').strip()]; a [null] on which [.lower()] or
    [.strip()] raises ends the function with [None]. *)
Fixpoint first_english (l : list vernacular_item) : option string :=
  match l with
  | [] => None
  | v :: l' =>
      match language v with
      | None => None
      | Some lang =>
          if String.eqb (Py.lower lang) "english"
          then match vernacular v with
               | Some name => Some (Py.strip name)
               | None => None
               end
          else first_english l'
      end
  end.

(** The body of [get_vernacular_name_cached]. A list of dicts without a
    ['language'] key holds no English entry. *)
Definition get_vernacular_name (aphia_id : Z) : M (option string) :=
  data <- api (WORMS_API_VERNACULARS ++ "/" ++ PyStr.str_of_int aphia_id) None ;;
  ret match data with
      | Some (JVernaculars l) => first_english l
      | _ => None
      end.

Fixpoint memo_get (aphia_id : Z) (memo : list (Z * option string))
    : option (option string) :=
  match memo with
  | [] => None
  | (k, v) :: memo' =>
      if (k =? aphia_id)%Z then Some v else memo_get aphia_id memo'
  end.

Definition memo_del (aphia_id : Z) (memo : list (Z * option string))
    : list (Z * option string) :=
  filter (fun kv => negb (fst kv =? aphia_id)%Z) memo.

(** [@lru_cache(maxsize=500)]: a hit returns the remembered result and makes
    the entry the most recent one; a miss runs the body, remembers its
    result, and drops the least recent entry when the table is full. *)
Definition get_vernacular_name_cached (aphia_id : Z) : M (option string) :=
  fun s =>
    match memo_get aphia_id (vernacular_memo s) with
    | Some result =>
        (result,
         {| net := net s;
            vernacular_memo :=
              (aphia_id, result) :: memo_del aphia_id (vernacular_memo s);
            taxa_memo := taxa_memo s |})
    | None =>
        let (result, s') := get_vernacular_name aphia_id s in
        let memo := vernacular_memo s' in
        let memo :=
          if (500 <=? List.length memo)%nat then removelast memo else memo in
        (result,
         {| net := net s'; vernacular_memo := (aphia_id, result) :: memo;
            taxa_memo := taxa_memo s' |})
    end.

(** *** [fetch_high_level_taxa_cached] *)

Definition wanted_ranks : list string := ["class"; "order"; "subclass"].

(** [for item in items: ...]: the taxa and the ids seen afterwards, and
    whether the outer loop goes on; [None] when an item raises. *)
Fixpoint scan_items (items : list taxon_item) (taxa : list taxon)
    (seen_ids : list Z) : M (option (list taxon * list Z)) :=
  match items with
  | [] => ret (Some (taxa, seen_ids))
  | item :: items' =>
      match rank item with
      | None => ret None
      | Some r =>
          let rank := Py.lower r in
          match AphiaID item with
          | Some aphia_id =>
              if negb (aphia_id =? 0)%Z && isMarine item
                 && existsb (String.eqb rank) wanted_ranks
                 && negb (existsb (Z.eqb aphia_id) seen_ids)
              then
                common_name <- get_vernacular_name_cached aphia_id ;;
                let display_name :=
                  if Py.truthy common_name then common_name
                  else scientificname item in
                let taxa :=
                  (taxa ++ [{| name := display_name; aphia_id := aphia_id;
                               taxon_rank := capitalize rank;
                               scientific := scientificname item |}])%list in
                let seen_ids := aphia_id :: seen_ids in
                if (8 <=? List.length taxa)%nat then ret (Some (taxa, seen_ids))
                else scan_items items' taxa seen_ids
              else scan_items items' taxa seen_ids
          | None => scan_items items' taxa seen_ids
          end
      end
  end.

(** [items = data if isinstance(data, list) else [data]], for a truthy
    answer; [None] when reading an item raises (it is not a dict). A dict
    without the keys read here has no ['AphiaID'] and is passed over. *)
Definition items_of (d : payload) : option (list taxon_item) :=
  match d with
  | JItems l => Some l
  | JItem i => Some [i]
  | JVernaculars _ | JOtherDict _ => Some []
  | JScalar _ => None
  end.

(** [for group in marine_animal_groups: ...] *)
Fixpoint scan_groups (groups : list string) (taxa : list taxon)
    (seen_ids : list Z) : M (option (list taxon * list Z)) :=
  match groups with
  | [] => ret (Some (taxa, seen_ids))
  | group :: groups' =>
      data <- api WORMS_API_SEARCH (Some (search_params group)) ;;
      match data with
      | Some d =>
          if truth d then
            match items_of d with
            | Some items =>
                r <- scan_items items taxa seen_ids ;;
                match r with
                | Some (taxa, seen_ids) =>
                    if (8 <=? List.length taxa)%nat
                    then ret (Some (taxa, seen_ids))
                    else scan_groups groups' taxa seen_ids
                | None => ret None
                end
            | None => ret None
            end
          else scan_groups groups' taxa seen_ids
      | None => scan_groups groups' taxa seen_ids
      end
  end.

(** [for taxon in default_taxa: if taxon['aphia_id'] not in seen_ids: ...] *)
Fixpoint add_defaults (defaults : list taxon) (taxa : list taxon)
    (seen_ids : list Z) : list taxon :=
  match defaults with
  | [] => taxa
  | taxon :: defaults' =>
      if existsb (Z.eqb (aphia_id taxon)) seen_ids
      then add_defaults defaults' taxa seen_ids
      else add_defaults defaults' (taxa ++ [taxon])%list
             (aphia_id taxon :: seen_ids)
  end.

(** The body of [fetch_high_level_taxa_cached] *)
Definition fetch_high_level_taxa : M (list taxon) :=
  r <- scan_groups marine_animal_groups [] [] ;;
  match r with
  | Some (high_level_taxa, seen_ids) =>
      let high_level_taxa :=
        if (List.length high_level_taxa <? 5)%nat
        then add_defaults default_taxa high_level_taxa seen_ids
        else high_level_taxa in
      ret (firstn 8 high_level_taxa)
  | None => ret fallback_taxa
  end.

(** [@lru_cache(maxsize=100)] on a function without arguments: the body
    runs once. *)
Definition fetch_high_level_taxa_cached : M (list taxon) :=
  fun s =>
    match taxa_memo s with
    | Some result => (result, s)
    | None =>
        let (result, s') := fetch_high_level_taxa s in
        (result,
         {| net := net s'; vernacular_memo := vernacular_memo s';
            taxa_memo := Some result |})
    end.

End WithUpstream.

End Taxa.

(** ** Loading an image: [load_image_from_url_bytes_fast] *)

Module ImageLoader.

Local Open Scope string_scope.

(** What the code reads of a response: the status, the [content-type]
    header ([""] when absent) and the body. *)
Record response : Type := {
  status_code : Z;
  content_type : string;
  content : list Byte.byte
}.

(** One call of [requests.get]: it raises, or it returns a response. *)
Inductive outcome : Type :=
| Raised
| Answered (resp : response).

(** [s.split(sep)] for a non-empty [sep]. [skip] counts the characters of a
    separator still to be dropped, [piece] is the piece being read. *)
Fixpoint split_from (skip : nat) (sep s piece : string) : list string :=
  match s with
  | EmptyString => [piece]
  | String c s' =>
      match skip with
      | S n => split_from n sep s' piece
      | O =>
          if String.prefix sep s
          then piece :: split_from (String.length sep - 1) sep s' ""
          else split_from 0 sep s' (piece ++ String c "")
      end
  end.

Definition split (sep s : string) : list string := split_from 0 sep s "".

(** The repair of the address: a scheme-less ["//host/..."] gets ["https:"],
    and ["http://"] is replaced by ["https://"]. *)
Definition fix_url (url : string) : string :=
  if PyStr.startswith "//" url then "https:" ++ url
  else if PyStr.startswith "http://" url
       then PyStr.replace "http://" "https://" url
       else url.

(** For a Wikipedia thumbnail, the address at which the original image is
    looked for first. *)
Definition thumb_original (url : string) : option string :=
  if Fetch.contains "/thumb/" url
     && (Fetch.contains "wikipedia.org" url
         || Fetch.contains "wikimedia.org" url)
  then
    match split "/thumb/" url with
    | _ :: thumb_part :: _ =>
        if Fetch.contains "/" thumb_part then
          match split "/" thumb_part with
          | (_ :: _ :: _) as subparts =>
              Some ("https://upload.wikimedia.org/wikipedia/commons/"
                    ++ PyStr.join "/" (removelast subparts))
          | _ => None
          end
        else None
    | _ => None
    end
  else None.

(** [resp.headers.get('content-type', '').startswith('image/')] *)
Definition is_image (resp : response) : bool :=
  PyStr.startswith "image/" (content_type resp).

Section WithNetwork.

(** The outcome of the [n]-th call of [requests.get] made for images
    (counting from 0), by its address *)
Variable requests_get : nat -> string -> outcome.

(** The state: the addresses requested so far *)
Definition M (A : Type) : Type := list string -> A * list string.

Definition get (url : string) : M outcome :=
  fun calls => (requests_get (List.length calls) url, (calls ++ [url])%list).

(** [load_image_from_url_bytes_fast(url)] *)
Definition load_image_from_url_bytes_fast (url : string)
    : M (option (list Byte.byte)) :=
  fun calls =>
    let url := fix_url url in
    let (original, calls) :=
      match thumb_original url with
      | Some original_url =>
          let (o, calls) := get original_url calls in
          (match o with
           | Answered resp =>
               if (status_code resp =? 200)%Z && is_image resp
               then Some (content resp) else None
           | Raised => None
           end, calls)
      | None => (None, calls)
      end in
    match original with
    | Some image => (Some image, calls)
    | None =>
        let (o, calls) := get url calls in
        (match o with
         | Answered resp =>
             if (status_code resp =? 200)%Z
             then if is_image resp then Some (content resp) else None
             else None
         | Raised => None
         end, calls)
    end.

End WithNetwork.

End ImageLoader.

(** ** Reading scientific names out of prose

    [extract_scientific_names_from_text_fast] and the four patterns of
    [SCIENTIFIC_NAME_EXTRACT_PATTERNS]. These patterns look around them
    ([\b], [(?![a-z])]) and one has an alternation, so the matcher carries
    the character before the current position. Repetitions are greedy and
    applied to one character class, as in the source. *)

Module Names.
Import Re.

Local Open Scope string_scope.
Local Open Scope list_scope.

Inductive regex : Type :=
| Lit (c : ascii)
| Cls (p : ascii -> bool)
| Rep (p : ascii -> bool) (lo : nat) (hi : option nat)
| Cat (r1 r2 : regex)
| Alt (r1 r2 : regex)
| Group (r : regex)
| Eps
| WordBoundary
| NotFollowedBy (p : ascii -> bool).

Definition cat (rs : list regex) : regex := fold_right Cat Eps rs.

Definition lit (s : string) : regex :=
  cat (map Lit (list_ascii_of_string s)).

(** [(?:r|r1|r2|...)] *)
Definition alt (r : regex) (rs : list regex) : regex := fold_left Alt rs r.

Fixpoint n_groups (r : regex) : nat :=
  match r with
  | Cat r1 r2 | Alt r1 r2 => n_groups r1 + n_groups r2
  | Group r1 => S (n_groups r1)
  | _ => 0
  end.

(** Whether the character at a position (none at either end of the text) is
    a word character *)
Definition is_word (c : option ascii) : bool :=
  match c with Some c => word c | None => false end.

Section Matcher.

Variable R : Type.

(** [p{lo,hi}], then the continuation [k]; [prev] is the character before
    the current position. *)
Fixpoint rep (p : ascii -> bool) (lo : nat) (hi : option nat)
    (prev : option ascii) (s : text) (k : option ascii -> text -> option R)
    : option R :=
  match s with
  | c :: s' =>
      if p c && may_repeat hi then
        match rep p (pred lo) (option_map pred hi) (Some c) s' k with
        | Some r => Some r
        | None => if (lo =? 0)%nat then k prev s else None
        end
      else if (lo =? 0)%nat then k prev s else None
  | [] => if (lo =? 0)%nat then k prev s else None
  end.

Fixpoint rmatch (r : regex) (prev : option ascii) (s : text)
    (caps : list text) (k : option ascii -> text -> list text -> option R)
    : option R :=
  match r with
  | Lit c =>
      match s with
      | x :: s' => if Ascii.eqb c x then k (Some x) s' caps else None
      | [] => None
      end
  | Cls p =>
      match s with
      | x :: s' => if p x then k (Some x) s' caps else None
      | [] => None
      end
  | Rep p lo hi => rep p lo hi prev s (fun prev' s' => k prev' s' caps)
  | Cat r1 r2 =>
      rmatch r1 prev s caps (fun prev' s' caps' => rmatch r2 prev' s' caps' k)
  | Alt r1 r2 =>
      match rmatch r1 prev s caps k with
      | Some x => Some x
      | None => rmatch r2 prev s caps k
      end
  | Group r1 =>
      rmatch r1 prev s caps
        (fun prev' s' caps' =>
           k prev' s' (caps' ++ [firstn (List.length s - List.length s') s]))
  | Eps => k prev s caps
  | WordBoundary =>
      if xorb (is_word prev) (is_word (hd_error s)) then k prev s caps
      else None
  | NotFollowedBy p =>
      match s with
      | c :: _ => if p c then None else k prev s caps
      | [] => k prev s caps
      end
  end.

End Matcher.

(** One match: the whole match, its groups, the text after it and the last
    character before that text. *)
Record match_object : Type := {
  whole : text;
  groups : list text;
  after : text;
  before_after : option ascii
}.

(** A match that starts at the current position *)
Definition match_at (r : regex) (prev : option ascii) (s : text)
    : option match_object :=
  rmatch r prev s []
    (fun prev' s' caps =>
       Some {| whole := firstn (List.length s - List.length s') s;
               groups := caps; after := s'; before_after := prev' |}).

(** The matches [findall] goes through, left to right and not overlapping.
    After an empty match the scan moves on by one character. *)
Fixpoint scan (fuel : nat) (r : regex) (prev : option ascii) (s : text)
    : list match_object :=
  match fuel with
  | O => []
  | S fuel' =>
      match match_at r prev s with
      | Some m =>
          if (List.length (after m) <? List.length s)%nat
          then m :: scan fuel' r (before_after m) (after m)
          else m :: match s with
                    | [] => []
                    | c :: s' => scan fuel' r (Some c) s'
                    end
      | None =>
          match s with
          | [] => []
          | c :: s' => scan fuel' r (Some c) s'
          end
      end
  end.

Definition shape (r : regex) (m : match_object) : found :=
  match n_groups r, groups m with
  | O, _ => Str (whole m)
  | S O, [g] => Str g
  | _, gs => Tuple gs
  end.

(** [pattern.findall(s)] *)
Definition findall (r : regex) (s : text) : list found :=
  map (shape r) (scan (S (List.length s)) r None s).

(** *** The patterns *)

Definition genus_re : regex := Cat (Cls upper_case) (Rep lower_case 1 None).
Definition epithet_re : regex := Rep lower_case 2 None.
Definition binomial_re : regex :=
  cat [genus_re; Rep space 1 None; epithet_re].

(** [\b([A-Z][a-z]+)\s+([a-z]{2,})\b] *)
Definition pair_pattern : regex :=
  cat [WordBoundary; Group genus_re; Rep space 1 None; Group epithet_re;
       WordBoundary].

(** [\(([A-Z][a-z]+\s+[a-z]{2,})\)] *)
Definition parenthesised_pattern : regex :=
  cat [Lit "("; Group binomial_re; Lit ")"].

(** [\b(?:species|genus|family|order|class)\s+([A-Z][a-z]+\s+[a-z]{2,})\b] *)
Definition ranked_pattern : regex :=
  cat [WordBoundary;
       alt (lit "species") [lit "genus"; lit "family"; lit "order";
                            lit "class"];
       Rep space 1 None; Group binomial_re; WordBoundary].

(** [\b([A-Z])\.\s+([a-z]{2,})\b(?![a-z])] *)
Definition abbreviated_pattern : regex :=
  cat [WordBoundary; Group (Cls upper_case); Lit "."; Rep space 1 None;
       Group epithet_re; WordBoundary; NotFollowedBy lower_case].

Definition SCIENTIFIC_NAME_EXTRACT_PATTERNS : list regex :=
  [pair_pattern; parenthesised_pattern; ranked_pattern; abbreviated_pattern].

Definition texts (l : list string) : list text := map list_ascii_of_string l.

Definition COMMON_FALSE_POSITIVES : list text :=
  texts ["sharks are"; "modern sharks"; "some sources"; "the earliest";
         "jurassic around"; "sharks range"; "fish are"; "most fish";
         "many fish"; "the study"; "there are"; "the first";
         "age of"; "bony fish"; "fish have"; "commercial and";
         "turtles are"; "many turtles"; "sea turtles"; "turtles have";
         "some terrestrial"; "turtle habitats"].

Definition COMMON_WORDS : list text :=
  texts ["are"; "and"; "the"; "for"; "with"; "from"; "that"; "which";
         "have"; "has"; "had"; "can"; "may"; "might"; "will"; "would";
         "could"; "should"; "must"; "shall"].

(** The first words that rule a pair out in the first loop, and in the
    second *)
Definition not_a_genus : list text :=
  texts ["sharks"; "turtles"; "fish"; "whales"; "dolphins";
         "modern"; "some"; "the"; "their"; "these"; "those";
         "many"; "most"; "all"; "few"; "several"].

Definition not_a_genus_either : list text :=
  texts ["sharks"; "fish"; "turtles"; "whales"; "dolphins"].

(** *** Python strings, as texts *)

Fixpoint text_eqb (a b : text) : bool :=
  match a, b with
  | [], [] => true
  | x :: a', y :: b' => Ascii.eqb x y && text_eqb a' b'
  | _, _ => false
  end.

(** [t in l] *)
Definition is_in (t : text) (l : list text) : bool := existsb (text_eqb t) l.

(** [s.lower()] *)
Definition lower (s : text) : text := map to_lower s.

(** [p(s[0])] for a test [p] on characters; [None] stands for the
    [IndexError] of [s[0]] on an empty string. *)
Definition first_is (p : ascii -> bool) (s : text) : option bool :=
  match s with
  | c :: _ => Some (p c)
  | [] => None
  end.

(** [s.split(' ', 1)]: one piece, or the pieces before and after the first
    space *)
Fixpoint split_1 (s : text) : list text :=
  match s with
  | [] => [[]]
  | c :: s' =>
      if Ascii.eqb c " " then [[]; s']
      else match split_1 s' with
           | piece :: rest => (c :: piece) :: rest
           | [] => [[c]]
           end
  end.

(** [s.split()]: the maximal runs of characters that are not white space;
    [piece] is the run being read. *)
Fixpoint split_from (s piece : text) : list text :=
  match s with
  | [] => match piece with [] => [] | _ => [piece] end
  | c :: s' =>
      if space c
      then match piece with
           | [] => split_from s' []
           | _ => piece :: split_from s' []
           end
      else split_from s' (piece ++ [c])
  end.

Definition split (s : text) : list text := split_from s [].

(** *** [extract_scientific_names_from_text_fast] *)

(** [if x not in names: names.append(x)] *)
Definition add_name (name : text) (names : list text) : list text :=
  if is_in name names then names else names ++ [name].

(** The body of [for match in matches]; [None] stands for an exception
    ([IndexError], or the [ValueError] of unpacking). *)
Definition consider (m : found) (scientific_names : list text)
    : option (list text) :=
  match m with
  | Tuple [m0; m1] =>
      if is_in (lower m0) not_a_genus then Some scientific_names
      else if is_in (lower m1) COMMON_WORDS then Some scientific_names
      else
        let sci_name := m0 ++ " "%char :: m1 in
        match first_is upper_case m0 with
        | None => None
        | Some false => Some scientific_names
        | Some true =>
            match first_is lower_case m1 with
            | None => None
            | Some false => Some scientific_names
            | Some true => Some (add_name sci_name scientific_names)
            end
        end
  | Tuple _ => Some scientific_names
  | Str m =>
      match m with
      | c :: _ =>
          if upper_case c && existsb (Ascii.eqb " ") m then
            match split_1 m with
            | [genus; species] =>
                match first_is upper_case genus with
                | None => None
                | Some false => Some scientific_names
                | Some true =>
                    match species with
                    | c' :: _ =>
                        if lower_case c'
                        then Some (add_name m scientific_names)
                        else Some scientific_names
                    | [] => Some scientific_names
                    end
                end
            | _ => None
            end
          else Some scientific_names
      | [] => Some scientific_names
      end
  end.

Fixpoint consider_all (matches : list found) (scientific_names : list text)
    : option (list text) :=
  match matches with
  | [] => Some scientific_names
  | m :: matches' =>
      match consider m scientific_names with
      | Some scientific_names => consider_all matches' scientific_names
      | None => None
      end
  end.

(** [for pattern in SCIENTIFIC_NAME_EXTRACT_PATTERNS: ...] *)
Fixpoint gather (patterns : list regex) (text : Re.text)
    (scientific_names : list Re.text) : option (list Re.text) :=
  match patterns with
  | [] => Some scientific_names
  | pattern :: patterns' =>
      match consider_all (findall pattern text) scientific_names with
      | Some scientific_names => gather patterns' text scientific_names
      | None => None
      end
  end.

(** Whether the second loop keeps a name *)
Definition keep (name : text) : option bool :=
  if is_in (lower name) COMMON_FALSE_POSITIVES then Some false
  else
    match split name with
    | [genus; species] =>
        match first_is upper_case genus with
        | None => None
        | Some false => Some false
        | Some true =>
            if (1 <? List.length genus)%nat then
              match first_is lower_case species with
              | None => None
              | Some false => Some false
              | Some true =>
                  Some ((1 <? List.length species)%nat
                        && negb (is_in (lower genus) not_a_genus_either)
                        && negb (is_in species COMMON_WORDS))
              end
            else Some false
        end
    | _ => Some false
    end.

Fixpoint filter_names (scientific_names : list text) : option (list text) :=
  match scientific_names with
  | [] => Some []
  | name :: names' =>
      match keep name with
      | Some kept =>
          match filter_names names' with
          | Some filtered_names =>
              Some (if kept then name :: filtered_names else filtered_names)
          | None => None
          end
      | None => None
      end
  end.

(** "Remove duplicates while preserving order" *)
Fixpoint unique (filtered_names seen : list text) : list text :=
  match filtered_names with
  | [] => []
  | name :: names' =>
      if is_in name seen then unique names' seen
      else name :: unique names' (name :: seen)
  end.

(** The function over a list of patterns *)
Definition extract_with (patterns : list regex) (text : string)
    : option (list string) :=
  if negb (Py.nonempty text) then Some []
  else
    match gather patterns (list_ascii_of_string text) [] with
    | Some scientific_names =>
        match filter_names scientific_names with
        | Some filtered_names =>
            Some (map string_of_list_ascii (unique filtered_names []))
        | None => None
        end
    | None => None
    end.

(** [extract_scientific_names_from_text_fast(text)]; [None] would be an
    exception. *)
Definition extract_scientific_names_from_text_fast (text : string)
    : option (list string) :=
  extract_with SCIENTIFIC_NAME_EXTRACT_PATTERNS text.

End Names.

(* ================================================================== *)
(** * Properties *)
(* ================================================================== *)

(** ** Arithmetic helpers *)

Lemma Qltb_lt (a b : Q) : Qltb a b = true <-> (a < b)%Q.
Proof.
  unfold Qltb. rewrite negb_true_iff. split; intro H.
  - apply Qnot_le_lt. intro L. apply Qle_bool_iff in L. congruence.
  - destruct (Qle_bool b a) eqn:E; [|reflexivity].
    apply Qle_bool_iff in E. exfalso. apply (Qlt_not_le _ _ H E).
Qed.

Lemma Qltb_ge (a b : Q) : Qltb a b = false <-> (b <= a)%Q.
Proof.
  unfold Qltb. rewrite negb_false_iff. apply Qle_bool_iff.
Qed.


(** ** ResponseCache *)

Module APICacheFacts.
Import APICache.

Section WithValue.

Variable value : Type.
Implicit Types (d : odict value) (c : t value) (k : string).

Lemma od_get_app k d1 d2 :
  od_get k (d1 ++ d2) =
  match od_get k d1 with Some e => Some e | None => od_get k d2 end.
Proof.
  induction d1 as [|[k' e'] d1 IH]; simpl; [reflexivity|].
  destruct (String.eqb k k'); auto.
Qed.

Lemma od_get_del_same k d : od_get k (od_del k d) = None.
Proof.
  induction d as [|[k' e'] d IH]; simpl; [reflexivity|].
  destruct (String.eqb k k') eqn:E; simpl; [exact IH|].
  rewrite E. exact IH.
Qed.

Lemma od_get_del_other k k' d :
  k <> k' -> od_get k' (od_del k d) = od_get k' d.
Proof.
  intro N. induction d as [|[k2 e2] d IH]; simpl; [reflexivity|].
  destruct (String.eqb_spec k k2) as [->|N2]; simpl.
  - destruct (String.eqb_spec k' k2) as [->|_]; [congruence|exact IH].
  - destruct (String.eqb k' k2); [reflexivity|exact IH].
Qed.

Lemma od_get_move_to_end k k' d :
  od_get k' (od_move_to_end k d) = od_get k' d.
Proof.
  unfold od_move_to_end. destruct (od_get k d) as [e|] eqn:G; [|reflexivity].
  rewrite od_get_app. destruct (String.eqb_spec k k') as [<-|N].
  - rewrite od_get_del_same. simpl. rewrite String.eqb_refl. congruence.
  - rewrite od_get_del_other by assumption.
    destruct (od_get k' d); [reflexivity|]. simpl.
    destruct (String.eqb_spec k' k); [congruence|reflexivity].
Qed.

Lemma od_get_setitem_same k e d : od_get k (od_setitem k e d) = Some e.
Proof.
  induction d as [|[k' e'] d IH]; simpl.
  - now rewrite String.eqb_refl.
  - destruct (String.eqb k k') eqn:E; simpl.
    + now rewrite String.eqb_refl.
    + now rewrite E.
Qed.

Lemma od_get_setitem_other k k' e d :
  k <> k' -> od_get k' (od_setitem k e d) = od_get k' d.
Proof.
  intro N. induction d as [|[k2 e2] d IH]; simpl.
  - destruct (String.eqb_spec k' k); [congruence|reflexivity].
  - destruct (String.eqb_spec k k2) as [->|N2]; simpl.
    + destruct (String.eqb_spec k' k2); [congruence|reflexivity].
    + destruct (String.eqb k' k2); [reflexivity|exact IH].
Qed.

Lemma od_get_In k d : od_get k d = None <-> ~ In k (map fst d).
Proof.
  induction d as [|[k' e'] d IH]; simpl.
  - tauto.
  - destruct (String.eqb_spec k k') as [->|N].
    + split; [discriminate|]. intro H. exfalso. apply H. now left.
    + rewrite IH. split; intro H; [|tauto].
      intros [E|I]; [congruence|tauto].
Qed.

Lemma od_del_length k d : (List.length (od_del k d) <= List.length d)%nat.
Proof. apply filter_length_le. Qed.

Lemma od_del_length_lt k d :
  od_get k d <> None -> (S (List.length (od_del k d)) <= List.length d)%nat.
Proof.
  induction d as [|[k' e'] d IH]; simpl; [congruence|].
  destruct (String.eqb k k') eqn:E; simpl; intro H.
  - pose proof (od_del_length k d). unfold od_del in *. lia.
  - specialize (IH H). unfold od_del in *. lia.
Qed.

(** What one [get] does to the entry of a key. *)
Lemma get_entry c now k k' :
  od_get k' (cache (snd (get c now k))) = od_get k' (cache c) \/
  (k' = k /\ od_get k' (cache (snd (get c now k))) = None /\
   exists data ts, od_get k (cache c) = Some (data, ts) /\ (ttl c <= now - ts)%Q).
Proof.
  unfold get. destruct (od_get k (cache c)) as [[data ts]|] eqn:G; [|now left].
  destruct (Qltb (now - ts) (ttl c)) eqn:F; simpl.
  - left. apply od_get_move_to_end.
  - destruct (String.eqb_spec k k') as [<-|N].
    + right. split; [reflexivity|]. split; [apply od_get_del_same|].
      exists data, ts. split; [reflexivity|]. now apply Qltb_ge.
    + left. now apply od_get_del_other.
Qed.

Lemma get_ttl c now k : ttl (snd (get c now k)) = ttl c.
Proof.
  unfold get. destruct (od_get k (cache c)) as [[data ts]|]; [|reflexivity].
  destruct (Qltb _ _); reflexivity.
Qed.

Lemma gets_ttl c reads : ttl (gets c reads) = ttl c.
Proof.
  revert c. induction reads as [|[now k] reads IH]; intro c; simpl; [reflexivity|].
  rewrite IH. apply get_ttl.
Qed.

Lemma set_ttl c now k v c' : set c now k v = Some c' -> ttl c' = ttl c.
Proof.
  unfold set. destruct (od_mem k (cache c)).
  - intro H. inversion H. reflexivity.
  - destruct (_ <=? _)%Z; [destruct (cache c)|]; intro H; inversion H; reflexivity.
Qed.

Lemma set_stores c now k v c' :
  set c now k v = Some c' -> od_get k (cache c') = Some (v, now).
Proof.
  unfold set. destruct (od_mem k (cache c)).
  - intro H. inversion H. simpl. apply od_get_setitem_same.
  - destruct (_ <=? _)%Z; [destruct (cache c)|]; intro H; inversion H; simpl;
      apply od_get_setitem_same.
Qed.

(** Reads never change a stored entry: it is either still there, with the value
    and the timestamp of its insertion, or gone. *)
Lemma gets_entry c reads k e :
  od_get k (cache c) = Some e \/ od_get k (cache c) = None ->
  od_get k (cache (gets c reads)) = Some e \/
  od_get k (cache (gets c reads)) = None.
Proof.
  revert c. induction reads as [|[now k'] reads IH]; intros c H; simpl; [exact H|].
  apply IH. destruct (get_entry c now k' k) as [E|(_ & E & _)]; rewrite E; tauto.
Qed.

(** Reads made before the entry's TTL has elapsed keep it. *)
Lemma gets_entry_fresh c reads k v t0 :
  od_get k (cache c) = Some (v, t0) ->
  (forall r, In (r, k) reads -> (r - t0 < ttl c)%Q) ->
  od_get k (cache (gets c reads)) = Some (v, t0).
Proof.
  revert c. induction reads as [|[now k'] reads IH]; intros c G F; simpl; [exact G|].
  apply IH.
  - destruct (get_entry c now k' k) as [E|(-> & _ & data & ts & G' & L)].
    + now rewrite E.
    + rewrite G in G'. inversion G'; subst. exfalso.
      apply (Qlt_not_le _ _ (F now (or_introl eq_refl)) L).
  - intros r I. rewrite get_ttl. apply F. now right.
Qed.

(** *** Recency order *)

Definition aged (h : list string) (k : string) : Prop := age h k <> None.

(** The keys of the dict, front to back, are in the order of their last use,
    oldest first; every key present has been used. *)
Definition recency_inv (h : list string) (l : list string) : Prop :=
  StronglySorted (older h) l /\ Forall (aged h) l.

Lemma age_cons_same h k : age (k :: h) k = Some 0%nat.
Proof. simpl. now rewrite String.eqb_refl. Qed.

Lemma age_cons_other h k a : a <> k -> age (k :: h) a = option_map S (age h a).
Proof. intro N. simpl. destruct (String.eqb_spec a k); [congruence|reflexivity]. Qed.

Lemma older_cons h k a b : a <> k -> b <> k -> older h a b -> older (k :: h) a b.
Proof.
  intros Na Nb. unfold older. rewrite !age_cons_other by assumption.
  destruct (age h a), (age h b); simpl; try tauto. lia.
Qed.

Lemma older_than_newest h k a : a <> k -> aged h a -> older (k :: h) a k.
Proof.
  intros N A. unfold older. rewrite age_cons_same, age_cons_other by assumption.
  unfold aged in A. destruct (age h a); simpl; [lia|congruence].
Qed.

Lemma aged_cons h k a : aged h a -> aged (k :: h) a.
Proof.
  unfold aged. simpl. destruct (String.eqb a k); [discriminate|].
  destruct (age h a); simpl; congruence.
Qed.

Lemma recency_inv_filter h l (f : string -> bool) :
  recency_inv h l -> recency_inv h (filter f l).
Proof.
  intros [S A]. split.
  - induction S as [|a l S IH F]; simpl; [constructor|].
    inversion A; subst. destruct (f a); [|now apply IH].
    constructor; [now apply IH|].
    apply Forall_forall. intros x I. apply filter_In in I.
    rewrite Forall_forall in F. now apply F.
  - apply Forall_forall. intros x I. apply filter_In in I.
    rewrite Forall_forall in A. now apply A.
Qed.

Lemma recency_inv_tail h a l : recency_inv h (a :: l) -> recency_inv h l.
Proof. intros [S A]. inversion S; inversion A; subst. now split. Qed.

Lemma recency_inv_touch h l k :
  recency_inv h l -> ~ In k l -> recency_inv (k :: h) (l ++ [k]).
Proof.
  intros [S A] N. split.
  - induction S as [|a l S IH F]; simpl.
    + repeat constructor.
    + inversion A; subst. simpl in N. constructor.
      * apply IH; [assumption|tauto].
      * apply Forall_app. split.
        -- apply Forall_forall. intros x I. rewrite Forall_forall in F.
           apply older_cons; [intro; subst; tauto|intro; subst; tauto|now apply F].
        -- constructor; [|constructor]. apply older_than_newest; [intro; subst; tauto|assumption].
  - apply Forall_app. split.
    + eapply Forall_impl; [|exact A]. intros a. apply aged_cons.
    + constructor; [|constructor]. unfold aged. now rewrite age_cons_same.
Qed.

Lemma keys_od_del k d :
  map fst (od_del k d) = filter (fun x => negb (String.eqb k x)) (map fst d).
Proof.
  induction d as [|[k' e'] d IH]; simpl; [reflexivity|].
  destruct (String.eqb k k'); simpl; now rewrite IH.
Qed.

Lemma keys_od_setitem_new k e d :
  od_get k d = None -> od_setitem k e d = d ++ [(k, e)].
Proof.
  induction d as [|[k' e'] d IH]; simpl; [reflexivity|].
  destruct (String.eqb k k'); [discriminate|]. intro G. now rewrite IH.
Qed.

Lemma keys_od_setitem_old k e d :
  od_get k d <> None -> map fst (od_setitem k e d) = map fst d.
Proof.
  induction d as [|[k' e'] d IH]; simpl; [congruence|].
  destruct (String.eqb_spec k k') as [->|N]; simpl; [reflexivity|].
  intro G. now rewrite IH.
Qed.

Lemma keys_move_to_end k e d :
  od_get k d = Some e ->
  map fst (od_move_to_end k d) =
  filter (fun x => negb (String.eqb k x)) (map fst d) ++ [k].
Proof.
  intro G. unfold od_move_to_end. rewrite G, map_app, keys_od_del. reflexivity.
Qed.

Lemma not_in_filter_ne k (l : list string) :
  ~ In k (filter (fun x => negb (String.eqb k x)) l).
Proof.
  intro I. apply filter_In in I. destruct I as [_ E].
  now rewrite String.eqb_refl in E.
Qed.

Lemma step_recency c h o c' h' :
  recency_inv h (keys c) -> step (c, h) o = Some (c', h') ->
  recency_inv h' (keys c').
Proof.
  intros I. destruct o as [now k|now k v]; simpl.
  - intro E. inversion E; subst; clear E. unfold get, hit.
    destruct (od_get k (cache c)) as [[data ts]|] eqn:G; [|exact I].
    destruct (Qltb (now - ts) (ttl c)); unfold keys; simpl.
    + rewrite (keys_move_to_end _ _ G).
      apply recency_inv_touch; [now apply recency_inv_filter|apply not_in_filter_ne].
    + rewrite keys_od_del. now apply recency_inv_filter.
  - destruct (set c now k v) as [c2|] eqn:S; [|discriminate].
    intro E. inversion E; subst; clear E. revert S. unfold set, od_mem.
    destruct (od_get k (cache c)) as [e|] eqn:G.
    + intro E. inversion E; subst; clear E. unfold keys; simpl.
      rewrite keys_od_setitem_old
        by (rewrite od_get_move_to_end; congruence).
      rewrite (keys_move_to_end _ _ G).
      apply recency_inv_touch; [now apply recency_inv_filter|apply not_in_filter_ne].
    + assert (N : ~ In k (keys c)) by now apply od_get_In.
      destruct (max_size c <=? _)%Z.
      * unfold keys in *. destruct (cache c) as [|[k0 e0] rest] eqn:C; [discriminate|].
        intro E. inversion E; subst; clear E. simpl in *.
        destruct (String.eqb k k0) eqn:K; [discriminate|].
        rewrite (keys_od_setitem_new _ _ _ G), map_app. simpl.
        apply recency_inv_touch; [now apply recency_inv_tail in I|tauto].
      * intro E. inversion E; subst; clear E. unfold keys in *. simpl.
        rewrite (keys_od_setitem_new _ _ _ G), map_app. simpl.
        now apply recency_inv_touch.
Qed.

Lemma run_recency ops : forall c h c' h',
  recency_inv h (keys c) -> run (c, h) ops = Some (c', h') ->
  recency_inv h' (keys c').
Proof.
  induction ops as [|o ops IH]; intros c h c' h' I; cbn [run].
  - intro E. now inversion E; subst.
  - destruct (step (c, h) o) as [[c1 h1]|] eqn:S; [|discriminate].
    apply IH. eapply step_recency; eassumption.
Qed.

Lemma older_irrefl h a : ~ older h a a.
Proof. unfold older. destruct (age h a); [lia|tauto]. Qed.

Lemma recency_inv_NoDup h l : recency_inv h l -> NoDup l.
Proof.
  intros [S _]. induction S as [|a l S IH F]; constructor; [|exact IH].
  intro I. rewrite Forall_forall in F. exact (@older_irrefl h a (F _ I)).
Qed.

Lemma sorted_before_last (A : Type) (R : A -> A -> Prop) (l : list A) (x a : A) :
  StronglySorted R (l ++ [x]) -> In a l -> R a x.
Proof.
  induction l as [|b l IH]; simpl; [tauto|].
  intros S [->|I].
  - inversion S as [|? ? _ F]; subst. rewrite Forall_forall in F.
    apply F, in_or_app. right. now left.
  - inversion S; subst. now apply IH.
Qed.

Lemma recency_inv_nil : recency_inv [] [].
Proof. split; constructor. Qed.

(** The keys of a cache reached from an empty one are distinct. *)
Lemma run_wf (m : Z) (life : Q) (ops : list (op value)) c h :
  run (init value m life, []) ops = Some (c, h) -> wf c.
Proof.
  intro R. apply (@recency_inv_NoDup h).
  eapply run_recency; [|exact R]. apply recency_inv_nil.
Qed.

Lemma hit_get c now k :
  hit c now k = true ->
  exists e, od_get k (cache c) = Some e /\
            get c now k = (fst e, with_cache c (od_del k (cache c) ++ [(k, e)])).
Proof.
  unfold hit, get, od_move_to_end.
  destruct (od_get k (cache c)) as [[data ts]|]; [|discriminate].
  intros ->. now exists (data, ts).
Qed.

Lemma od_del_nonempty k d :
  NoDup (map fst d) -> (2 <= List.length d)%nat -> od_del k d <> [].
Proof.
  destruct d as [|[k1 e1] [|[k2 e2] d]]; simpl; try lia. intros N _.
  inversion N as [|? ? N1 _]; subst. simpl in N1.
  destruct (String.eqb_spec k k1) as [->|]; simpl; [|discriminate].
  destruct (String.eqb_spec k1 k2) as [->|]; simpl; [tauto|discriminate].
Qed.

(** C6 (as amended). In every cache reached from an empty one: a [get] that
    returns an entry moves it to the most-recently-used end; a [set] of a new
    key on a non-empty cache at capacity removes exactly the entry whose last
    use is the oldest, then appends the new one; hence, when the cache holds
    at least two entries, a key read by a successful [get] immediately before
    such an insertion is still present after it. *)
Theorem C6_lru_eviction :
  forall (m : Z) (life : Q) (ops : list (op value)) (c : t value)
         (h : list string),
    run (init value m life, []) ops = Some (c, h) ->
    (forall now k, hit c now k = true ->
       exists e, od_get k (cache c) = Some e /\
                 fst (get c now k) = fst e /\
                 cache (snd (get c now k)) = od_del k (cache c) ++ [(k, e)] /\
                 forall k', In k' (keys (snd (get c now k))) -> k' <> k ->
                            older (k :: h) k' k) /\
    (forall now k v,
       ~ In k (keys c) -> cache c <> [] ->
       (max_size c <= Z.of_nat (List.length (cache c)))%Z ->
       exists e rest,
         cache c = e :: rest /\
         set c now k v = Some (with_cache c (rest ++ [(k, (v, now))])) /\
         forall k', In k' (map fst rest) -> older h (fst e) k') /\
    (forall now k now' k' v,
       hit c now k = true -> ~ In k' (keys c) ->
       (2 <= List.length (cache c))%nat ->
       exists c', set (snd (get c now k)) now' k' v = Some c' /\
                  In k (keys c') /\ In k' (keys c')).
Proof.
  intros m life ops c h R.
  assert (I : recency_inv h (keys c)).
  { eapply run_recency; [|exact R]. apply recency_inv_nil. }
  split; [|split].
  - intros now k H. destruct (hit_get _ _ _ H) as (e & G & E).
    exists e. rewrite E. simpl. repeat split; auto.
    intros k' In' Nk.
    assert (I' : recency_inv (k :: h) (keys (snd (get c now k)))).
    { apply (@step_recency c h (OpGet value now k)); [exact I|].
      simpl. now rewrite H. }
    rewrite E in I'. unfold keys in In', I'. simpl in In', I'.
    rewrite map_app in In', I'. simpl in In', I'.
    destruct I' as [S _]. apply in_app_or in In'.
    destruct In' as [In'|[->|[]]]; [|congruence].
    exact (@sorted_before_last _ _ _ _ _ S In').
  - intros now k v N NE F. apply od_get_In in N.
    destruct (cache c) as [|[k0 e0] rest] eqn:C; [congruence|].
    exists (k0, e0), rest. split; [reflexivity|]. split.
    + unfold set, od_mem. rewrite C, N.
      apply Z.leb_le in F. rewrite F.
      simpl in N. destruct (String.eqb k k0); [discriminate|].
      now rewrite (keys_od_setitem_new _ _ _ N).
    + destruct I as [S _]. unfold keys in S. rewrite C in S. simpl in S.
      inversion S as [|? ? _ FA]; subst. now apply Forall_forall.
  - intros now k now' k' v H N L. destruct (hit_get _ _ _ H) as (e & G & E).
    rewrite E. simpl. apply od_get_In in N.
    pose proof (recency_inv_NoDup I) as ND. unfold keys in ND.
    pose proof (@od_del_nonempty k _ ND L) as NE.
    assert (K : k' <> k) by (intro; subst; congruence).
    assert (N' : od_get k' (od_del k (cache c) ++ [(k, e)]) = None).
    { rewrite od_get_app.
      destruct (String.eqb_spec k k') as [->|D]; [congruence|].
      rewrite od_get_del_other, N by assumption. simpl.
      destruct (String.eqb_spec k' k); [congruence|reflexivity]. }
    unfold set, od_mem. simpl. rewrite N'.
    destruct (max_size c <=? _)%Z.
    + destruct (od_del k (cache c)) as [|p rest] eqn:D; [congruence|]. simpl in *.
      destruct p as [k0 e0]. destruct (String.eqb k' k0); [discriminate|].
      eexists. split; [reflexivity|]. unfold keys. simpl.
      rewrite (keys_od_setitem_new _ _ _ N'), !map_app. simpl.
      split; apply in_or_app; [left; apply in_or_app|]; right; now left.
    + eexists. split; [reflexivity|]. unfold keys. simpl.
      rewrite (keys_od_setitem_new _ _ _ N'), !map_app. simpl.
      split; apply in_or_app; [left; apply in_or_app|]; right; now left.
Qed.

(** C7. A [get] within the TTL after a [set] returns the stored value; a
    [get] once the TTL has elapsed since the insertion returns [None] and
    deletes the entry, so that it no longer counts in [len(self.cache)]. Both
    hold whatever reads were made in between: reads never refresh the
    timestamp. *)
Theorem C7_ttl_measured_from_insertion :
  forall (c c1 : t value) (t0 : Q) (k : string) (v : option value)
         (reads : list (Q * string)),
    set c t0 k v = Some c1 ->
    (forall now : Q,
        (forall r, In (r, k) reads -> (r - t0 < ttl c)%Q) ->
        (now - t0 < ttl c)%Q ->
        fst (get (gets c1 reads) now k) = v) /\
    (forall now : Q,
        (ttl c <= now - t0)%Q ->
        let c2 := gets c1 reads in
        let c3 := snd (get c2 now k) in
        fst (get c2 now k) = None /\
        ~ In k (keys c3) /\
        cache c3 = od_del k (cache c2) /\
        (od_get k (cache c2) <> None ->
         (S (List.length (cache c3)) <= List.length (cache c2))%nat)).
Proof.
  intros c c1 t0 k v reads S. pose proof (set_stores _ _ _ _ S) as G.
  pose proof (set_ttl _ _ _ _ S) as T. split.
  - intros now F L. rewrite <- T in F, L.
    pose proof (@gets_entry_fresh c1 reads k v t0 G F) as G2.
    unfold get. rewrite G2, gets_ttl.
    apply Qltb_lt in L. now rewrite L.
  - intros now L c2 c3. subst c3 c2.
    destruct (@gets_entry c1 reads k (v, t0) (or_introl G)) as [G2|G2].
    + unfold get. rewrite G2, gets_ttl, T.
      apply Qltb_ge in L. rewrite L. simpl.
      split; [reflexivity|]. split; [|split; [reflexivity|]].
      * unfold keys. simpl. apply od_get_In, od_get_del_same.
      * intros _. apply od_del_length_lt. congruence.
    + unfold get. rewrite G2. simpl.
      split; [reflexivity|]. split; [|split].
      * now apply od_get_In.
      * symmetry. unfold od_del. apply forallb_filter_id.
        apply forallb_forall. intros [k' e'] I. simpl.
        destruct (String.eqb_spec k k') as [<-|]; [|reflexivity].
        exfalso. apply od_get_In in G2. apply G2.
        change k with (fst (k, e')). now apply in_map.
      * congruence.
Qed.

End WithValue.

(** C7, witness: a cache of capacity 2 and TTL 3600 s; ["a"] is set at time
    0 and read at time 10; a read at time 20 returns the value, a read at
    time 3600 returns [None]. *)
Lemma C7_witness :
  let c := APICache.init unit 2 3600 in
  let c1 := APICache.mk [("a"%string, (Some tt, 0%Q))] 2 3600 in
  APICache.set c 0 "a" (Some tt) = Some c1 /\
  fst (APICache.get (APICache.gets c1 [(10%Q, "a"%string)]) 20 "a") = Some tt /\
  fst (APICache.get (APICache.gets c1 [(10%Q, "a"%string)]) 3600 "a") = None.
Proof.
  intros c c1.
  assert (S : APICache.set c 0 "a" (Some tt) = Some c1) by reflexivity.
  destruct (@C7_ttl_measured_from_insertion unit c c1 0 "a"%string (Some tt)
              [(10%Q, "a"%string)] S) as [H1 H2].
  split; [exact S|]. split.
  - apply H1.
    + intros r [E|[]]. inversion E. reflexivity.
    + reflexivity.
  - apply (H2 3600). unfold Qle. simpl. lia.
Defined.

(** C6, witness: a cache of capacity 2 holding ["a"] then ["b"]; ["a"] is
    read, then ["z"] is inserted: ["a"] survives. *)
Lemma C6_witness :
  let c := APICache.mk [("a"%string, (@None unit, 0%Q));
                        ("b"%string, (@None unit, 1%Q))] 2 3600 in
  APICache.run (APICache.init unit 2 3600, [])
    [APICache.OpSet 0 "a" None; APICache.OpSet 1 "b" None]
    = Some (c, ["b"; "a"]%string) /\
  exists c', APICache.set (snd (APICache.get c 2 "a")) 3 "z" None = Some c' /\
             In "a"%string (APICache.keys c') /\ In "z"%string (APICache.keys c').
Proof.
  intro c.
  assert (R : APICache.run (APICache.init unit 2 3600, [])
                [APICache.OpSet 0 "a" None; APICache.OpSet 1 "b" None]
              = Some (c, ["b"; "a"]%string)) by reflexivity.
  split; [exact R|].
  destruct (@C6_lru_eviction unit 2 3600 _ _ _ R) as (_ & _ & P).
  apply (P 2%Q "a"%string 3%Q "z"%string None).
  - reflexivity.
  - simpl. intros [E|[E|[]]]; discriminate.
  - simpl. lia.
Defined.

(** C6, counterexample: in a cache of capacity 1 the entry just returned by
    a successful [get] is both the most and the least recently used one, and
    the next insertion of a new key evicts it. *)
Lemma C6_single_slot_counterexample :
  let c := APICache.mk [("a"%string, (Some tt, 0%Q))] 1 3600 in
  APICache.run (APICache.init unit 1 3600, []) [APICache.OpSet 0 "a" (Some tt)]
    = Some (c, ["a"%string]) /\
  Z.of_nat (List.length (APICache.cache c)) = APICache.max_size c /\
  fst (APICache.get c 1 "a") = Some tt /\
  exists c', APICache.set (snd (APICache.get c 1 "a")) 2 "b" (Some tt) = Some c' /\
             ~ In "a"%string (APICache.keys c').
Proof.
  intro c. repeat split.
  eexists. split; [reflexivity|]. simpl. intros [E|[]]. discriminate.
Qed.

End APICacheFacts.

(** ** FetchClient *)

Module FetchFacts.
Import Fetch.

Section WithValue.

Variables value params : Type.
Variable U : upstream value params.
Implicit Types (w : world value params) (k url : string).

Lemma API_CACHE_set_defined k v w :
  APICache.set (API_CACHE w) (clock w) k v <> None.
Proof.
  unfold APICache.set. destruct (APICache.od_mem _ _); [discriminate|].
  destruct (_ <=? _)%Z eqn:E; [|discriminate].
  simpl in *. destruct (entries w); [|discriminate].
  simpl in E. discriminate.
Qed.

Lemma API_CACHE_set_stores k v w :
  APICache.od_get k (entries (API_CACHE_set k v w)) = Some (v, clock w).
Proof.
  unfold API_CACHE_set.
  destruct (APICache.set (API_CACHE w) (clock w) k v) as [c|] eqn:E.
  - simpl. exact (APICacheFacts.set_stores _ _ _ _ E).
  - exfalso. exact (API_CACHE_set_defined _ _ _ E).
Qed.

Lemma API_CACHE_set_frame k v w :
  clock (API_CACHE_set k v w) = clock w /\
  sent (API_CACHE_set k v w) = sent w /\
  slept (API_CACHE_set k v w) = slept w /\
  requested (API_CACHE_set k v w) = requested w.
Proof.
  unfold API_CACHE_set. destruct (APICache.set _ _ _ _); simpl; auto.
Qed.

Lemma API_CACHE_get_frame k w :
  clock (snd (API_CACHE_get k w)) = clock w /\
  sent (snd (API_CACHE_get k w)) = sent w /\
  slept (snd (API_CACHE_get k w)) = slept w /\
  requested (snd (API_CACHE_get k w)) = requested w.
Proof.
  unfold API_CACHE_get. destruct (APICache.get _ _ _); simpl; auto.
Qed.

(** The network log only grows, and a loop that runs at all makes a call. *)
Lemma attempt_loop_sent (n : nat) : forall attempt url p key retries w,
  (List.length (sent w) + match n with O => 0 | S _ => 1 end
   <= List.length (sent (snd (attempt_loop U n attempt url p key retries w))))%nat.
Proof.
  induction n as [|n IH]; intros attempt url p key retries w.
  - simpl. destruct (API_CACHE_set_frame key None w) as (_ & -> & _). lia.
  - cbn [attempt_loop].
    set (w1 := after_get U url p (timeout_for url) w).
    assert (L1 : List.length (sent w1) = S (List.length (sent w))).
    { unfold w1, after_get. simpl. rewrite length_app. simpl. lia. }
    assert (Hset : forall v, (List.length (sent w) + 1 <=
              List.length (sent (API_CACHE_set key v w1)))%nat).
    { intro v. destruct (API_CACHE_set_frame key v w1) as (_ & -> & _). lia. }
    assert (Hrec : forall a d, (List.length (sent w) + 1 <=
              List.length (sent (snd (attempt_loop U n a url p key retries
                                        (sleep d w1)))))%nat).
    { intros a d. specialize (IH a url p key retries (sleep d w1)).
      change (sent (sleep d w1)) with (sent w1) in IH. destruct n; lia. }
    destruct (requests_get U _ url p _) as [| |status content]; simpl.
    + destruct (_ <? _)%Z; simpl; auto.
    + destruct (_ <? _)%Z; simpl; auto.
    + destruct (status =? 204)%Z; simpl; auto.
      destruct (status =? 404)%Z; simpl; auto.
      destruct (status >=? 400)%Z; simpl; auto.
      * destruct ((status =? 429)%Z && (attempt <? retries)%Z); simpl; auto.
      * destruct content; simpl; auto. destruct (_ <? _)%Z; simpl; auto.
Qed.

(** C5. A request whose first attempt receives HTTP 429 and whose second
    attempt receives HTTP 200 with a JSON body sleeps [2 ** (0 + 1)] seconds
    between the two attempts, returns the parsed payload, and leaves that
    payload in the cache under the request's key. *)
Theorem C5_backoff_then_success_is_cached :
  forall (url : string) (p : option params) (ck : option string)
         (retries : Z) (w : world value params)
         (content : body value) (data : option value),
    (1 <= retries)%Z ->
    let key := request_key U url p ck in
    let n := List.length (sent w) in
    fst (API_CACHE_get key (note_request url p w)) = None ->
    requests_get U n url p (timeout_for url) = Response 429 content ->
    requests_get U (S n) url p (timeout_for url) = Response 200 (Json data) ->
    let r := api_request_with_cache U url p ck retries w in
    fst r = data /\
    slept (snd r) = slept w ++ [inject_Z (2 ^ (0 + 1))] /\
    sent (snd r) =
      sent w ++ [(url, p, timeout_for url)] ++ [(url, p, timeout_for url)] /\
    clock (snd r) =
      (clock w + latency U n + inject_Z (2 ^ (0 + 1)) + latency U (S n))%Q /\
    APICache.od_get key (entries (snd r)) = Some (data, clock (snd r)).
Proof.
  intros url p ck retries w content data R key n G H1 H2 r.
  subst r. unfold api_request_with_cache. fold key.
  destruct (API_CACHE_get_frame key (note_request url p w)) as (Fc & Fs & Fz & _).
  destruct (API_CACHE_get key (note_request url p w)) as [cd w0].
  simpl in G, Fc, Fs, Fz. subst cd.
  destruct (Z.to_nat (retries + 1)) as [|[|m]] eqn:E; try lia.
  cbn [attempt_loop]. rewrite Fs. fold n. rewrite H1.
  assert (L : (0 <? retries)%Z = true) by (apply Z.ltb_lt; lia).
  change ((429 =? 204)%Z) with false. change ((429 =? 404)%Z) with false.
  change ((429 >=? 400)%Z) with true. change ((429 =? 429)%Z) with true.
  rewrite L. cbn [andb negb].
  assert (N : List.length (sent (sleep (inject_Z (2 ^ (0 + 1)))
                (after_get U url p (timeout_for url) w0))) = S n).
  { simpl. rewrite Fs, length_app. simpl. subst n. lia. }
  rewrite N, H2.
  change ((200 =? 204)%Z) with false. change ((200 =? 404)%Z) with false.
  change ((200 >=? 400)%Z) with false. cbn [andb fst snd].
  match goal with |- context [API_CACHE_set key data ?w1] =>
    destruct (API_CACHE_set_frame key data w1) as (Sc & Ss & Sz & _);
    pose proof (API_CACHE_set_stores key data w1) as St
  end.
  rewrite Sc, Ss, Sz, St. simpl. rewrite Fc, Fs, Fz.
  repeat split.
  - now rewrite <- app_assoc.
  - rewrite length_app, Nat.add_1_r. reflexivity.
Qed.

(** C1 (what the code does). After a definitive negative the key holds
    [None] in the cache, and the entry is present and unexpired when the
    identical request is issued again within the TTL; but [API_CACHE.get]
    then returns that [None], which [api_request_with_cache] takes for a
    miss: the second request goes to the network again. *)
Theorem C1_negative_is_cached_but_refetched :
  forall (url : string) (p : option params) (ck : option string)
         (retries : Z) (w : world value params)
         (status_code : Z) (content : body value) (idle : Q),
    (0 <= retries)%Z ->
    definitive_negative status_code content ->
    (0 <= idle)%Q -> (idle < 3600)%Q ->
    let key := request_key U url p ck in
    fst (API_CACHE_get key (note_request url p w)) = None ->
    requests_get U (List.length (sent w)) url p (timeout_for url)
      = Response status_code content ->
    let r1 := api_request_with_cache U url p ck retries w in
    let w1 := elapse idle (snd r1) in
    let r2 := api_request_with_cache U url p ck retries w1 in
    fst r1 = None /\
    sent (snd r1) = sent w ++ [(url, p, timeout_for url)] /\
    APICache.od_get key (entries (snd r1)) = Some (None, clock (snd r1)) /\
    APICache.hit (API_CACHE w1) (clock w1) key = true /\
    (List.length (sent w1) < List.length (sent (snd r2)))%nat.
Proof.
  intros url p ck retries w status content idle R D I0 I1 key G H r1 w1 r2.
  assert (E1 : fst r1 = None /\
               sent (snd r1) = sent w ++ [(url, p, timeout_for url)] /\
               APICache.od_get key (entries (snd r1)) = Some (None, clock (snd r1))).
  { subst r1. unfold api_request_with_cache. fold key.
    destruct (API_CACHE_get_frame key (note_request url p w)) as (_ & Fs & _).
    destruct (API_CACHE_get key (note_request url p w)) as [cd w0].
    simpl in G, Fs. subst cd.
    destruct (Z.to_nat (retries + 1)) as [|m] eqn:E; [lia|].
    cbn [attempt_loop]. rewrite Fs, H.
    set (w2 := after_get U url p (timeout_for url) w0).
    destruct (API_CACHE_set_frame key None w2) as (Sc & Ss & _).
    pose proof (API_CACHE_set_stores key None w2) as St.
    assert (Done : fst (@None value, API_CACHE_set key None w2) = None /\
       sent (snd (@None value, API_CACHE_set key None w2)) =
         sent w ++ [(url, p, timeout_for url)] /\
       APICache.od_get key (entries (snd (@None value, API_CACHE_set key None w2)))
         = Some (None, clock (snd (@None value, API_CACHE_set key None w2)))).
    { simpl. rewrite Ss, Sc, St. unfold w2. simpl. rewrite Fs. auto. }
    destruct D as [->|[->|[Lt ->]]]; try exact Done.
    destruct (status =? 204)%Z; [exact Done|].
    destruct (status =? 404)%Z; [exact Done|].
    replace (status >=? 400)%Z with false; [exact Done|].
    symmetry. rewrite Z.geb_leb. apply Z.leb_gt. exact Lt. }
  destruct E1 as (A & B & C). repeat split; try assumption.
  - unfold APICache.hit. simpl. rewrite C. apply Qltb_lt. lra.
  - subst r2. unfold api_request_with_cache. fold key.
    destruct (API_CACHE_get_frame key (note_request url p w1)) as (_ & Fs & _).
    assert (G2 : fst (API_CACHE_get key (note_request url p w1)) = None).
    { unfold API_CACHE_get, APICache.get. simpl. rewrite C.
      destruct (Qltb _ _); reflexivity. }
    destruct (API_CACHE_get key (note_request url p w1)) as [cd w0].
    simpl in G2, Fs. subst cd.
    pose proof (attempt_loop_sent (Z.to_nat (retries + 1)) 0 url p key retries w0) as M.
    destruct (Z.to_nat (retries + 1)) eqn:E; [lia|].
    rewrite Fs in M. simpl in M. simpl. lia.
Qed.

End WithValue.

End FetchFacts.

(** ** The matcher is sound for [matches] *)

Module ReFacts.
Import Re.

Lemma firstn_prefix (w s' : text) :
  firstn (List.length (w ++ s') - List.length s') (w ++ s') = w.
Proof.
  rewrite length_app, Nat.add_sub.
  rewrite firstn_app, Nat.sub_diag, firstn_all. simpl. apply app_nil_r.
Qed.

Lemma rep_sound (R : Type) (p : ascii -> bool) (greedy : bool)
    (k : text -> option R) (x : R) :
  forall (s : text) (lo : nat) (hi : option nat),
    rep p lo hi greedy s k = Some x ->
    exists w s',
      s = w ++ s' /\ Forall (fun c => p c = true) w /\
      (lo <= List.length w)%nat /\
      match hi with Some n => (List.length w <= n)%nat | None => True end /\
      k s' = Some x.
Proof.
  assert (Stop : forall (s : text) (lo : nat) (hi : option nat),
    (if (lo =? 0)%nat then k s else None) = Some x ->
    exists w s',
      s = w ++ s' /\ Forall (fun c => p c = true) w /\
      (lo <= List.length w)%nat /\
      match hi with Some n => (List.length w <= n)%nat | None => True end /\
      k s' = Some x).
  { intros s lo hi H. destruct (Nat.eqb_spec lo 0) as [->|]; [|discriminate].
    exists [], s. repeat split; auto. destruct hi; simpl; [lia|exact I]. }
  induction s as [|c s IH]; intros lo hi H; simpl in H.
  - now apply Stop.
  - destruct (p c) eqn:P; simpl in H; [|now apply Stop].
    destruct (may_repeat hi) eqn:M; [|now apply Stop].
    assert (More : rep p (pred lo) (option_map pred hi) greedy s k = Some x ->
      exists w s',
        c :: s = w ++ s' /\ Forall (fun c => p c = true) w /\
        (lo <= List.length w)%nat /\
        match hi with Some n => (List.length w <= n)%nat | None => True end /\
        k s' = Some x).
    { intro H'. destruct (IH _ _ H') as (w & s' & -> & F & L & U & K).
      exists (c :: w), s'.
      split; [reflexivity|]. split; [now constructor|].
      split; [simpl; lia|]. split; [|exact K].
      destruct hi as [[|n]|]; simpl in *; try discriminate; try lia. }
    destruct greedy.
    + destruct (rep p (pred lo) (option_map pred hi) true s k) eqn:E.
      * apply More. congruence.
      * now apply Stop.
    + destruct (if (lo =? 0)%nat then k (c :: s) else None) eqn:E.
      * apply Stop. congruence.
      * now apply More.
Qed.





End ReFacts.

(** ** Python numbers *)

Module PyFacts.
Import Py.

(** *** The order of binary64 floats *)









(** *** Dividing by one *)







End PyFacts.

(** ** TextHeuristics *)

Module HeuristicsFacts.
Import Re Data Heuristics.

Local Open Scope string_scope.

(** C8. With no occurrence depths at hand, depth extraction on a record whose
    environment text is "found at depths of 200-600 m" yields min 200 and
    max 600 (from the third pattern, the first that matches), and on
    "occurs around 1500 meter" yields 1500 for min, max and avg (from the
    fourth pattern, the first that matches). *)
Theorem C8_depth_extraction_examples :
  forall (obis : option obis_data) (r : aphia_record),
    collect_depths (firstn 20 (obis_results obis)) = [] ->
    (environment r = Some "found at depths of 200-600 m" ->
     map (fun p => findall p
                     (list_ascii_of_string "found at depths of 200-600 m"))
         DEPTH_PATTERNS
       = [ []; [];
           [Tuple [list_ascii_of_string "200"; list_ascii_of_string "600"]];
           []; [] ] /\
     extract_depth_from_obis_fast obis r =
       Py.Returned
         (Some {| min_depth := Some (Py.PyInt 200);
                  max_depth := Some (Py.PyInt 600);
                  avg_depth := Some (Py.PyFloat 400);
                  record_count := 1;
                  source := "WoRMS" |})) /\
    (environment r = Some "occurs around 1500 meter" ->
     map (fun p => findall p (list_ascii_of_string "occurs around 1500 meter"))
         DEPTH_PATTERNS
       = [ []; []; []; [Str (list_ascii_of_string "1500")]; [] ] /\
     extract_depth_from_obis_fast obis r =
       Py.Returned
         (Some {| min_depth := Some (Py.PyInt 1500);
                  max_depth := Some (Py.PyInt 1500);
                  avg_depth := Some (Py.PyInt 1500);
                  record_count := 1;
                  source := "WoRMS" |})).
Proof.
  intros obis r D. unfold extract_depth_from_obis_fast. rewrite D.
  split; intros ->; split; vm_compute; reflexivity.
Qed.

(** *** Depth summaries *)








Lemma digit_props (c : ascii) :
  digit c = true ->
  space c = false /\ Ascii.eqb c ","%char = false /\
  (0 <= Z.of_nat (code c - 48) <= 9)%Z.
Proof.
  intro D. assert (R : (48 <= code c <= 57)%nat).
  { unfold digit, between in D. apply andb_prop in D. destruct D as [A B].
    apply Nat.leb_le in A, B. lia. }
  split; [|split; [|lia]].
  - unfold space, between.
    destruct (Nat.leb_spec 9 (code c)), (Nat.leb_spec (code c) 13),
             (Nat.leb_spec 28 (code c)), (Nat.leb_spec (code c) 32);
      simpl; try reflexivity; lia.
  - destruct (Ascii.eqb_spec c ","%char) as [->|]; [|reflexivity].
    vm_compute in R. lia.
Qed.



Lemma digits_value_bound (g : text) : forall acc : Z,
  Forall (fun c => digit c = true) g ->
  exists v, Py.digits_value acc g = Some v /\
            (acc * 10 ^ Z.of_nat (List.length g) <= v
             < (acc + 1) * 10 ^ Z.of_nat (List.length g))%Z.
Proof.
  induction g as [|c g IH]; intros acc F.
  - exists acc. simpl. split; [reflexivity|lia].
  - inversion F as [|? ? D F']; subst. simpl Py.digits_value. rewrite D.
    destruct (digit_props _ D) as (_ & _ & R).
    destruct (IH (10 * acc + Z.of_nat (code c - 48))%Z F') as (v & E & B).
    exists v. split; [exact E|].
    replace (Z.of_nat (List.length (c :: g)))
      with (Z.succ (Z.of_nat (List.length g))) by (simpl List.length; lia).
    rewrite Z.pow_succ_r by lia.
    set (P := (10 ^ Z.of_nat (List.length g))%Z) in *.
    assert (0 < P)%Z by (apply Z.pow_pos_nonneg; lia). nia.
Qed.














(** *** Ocean basins *)

(** C4 (what the code does). The test [lon < -30] comes first, so a pair
    west of -100 degrees is binned as Atlantic; no coordinate pair is ever
    binned as "Eastern Pacific", and the basins returned never contain it. *)
Theorem C4_west_of_minus_100_is_binned_atlantic :
  (forall lat lon : Q,
      (lon < -100)%Q ->
      basin_of lat lon = Some "North Atlantic" \/
      basin_of lat lon = Some "South Atlantic") /\
  (forall lat lon : Q, basin_of lat lon <> Some "Eastern Pacific") /\
  (forall obis : option obis_data,
      ~ In "Eastern Pacific" (extract_ocean_basins_fast obis)).
Proof.
  assert (B : forall lat lon : Q, basin_of lat lon <> Some "Eastern Pacific").
  { intros lat lon. unfold basin_of.
    destruct (Qltb lon (-30)) eqn:E1.
    - destruct (Qltb 0 lat); discriminate.
    - destruct (Qle_bool (-30) lon && Qle_bool lon 30); [discriminate|].
      destruct (Qltb 100 lon && Qltb lon 180).
      + destruct (Qltb 0 lat); discriminate.
      + destruct (Qltb lon (-100)) eqn:E2.
        * apply Qltb_ge in E1. apply Qltb_lt in E2. exfalso. lra.
        * destruct (Qltb 30 lon && Qltb lon 100); discriminate. }
  split; [|split; [exact B|]].
  - intros lat lon L. unfold basin_of.
    assert (E : Qltb lon (-30) = true) by (apply Qltb_lt; lra).
    rewrite E. destruct (Qltb 0 lat); auto.
  - intro obis. unfold extract_ocean_basins_fast.
    assert (C : forall l acc, ~ In "Eastern Pacific" acc ->
                ~ In "Eastern Pacific" (collect_basins l acc)).
    { induction l as [|o l IH]; intros acc N; simpl; [exact N|].
      destruct (decimalLatitude o) as [lat|]; [|now apply IH].
      destruct (decimalLongitude o) as [lon|]; [|now apply IH].
      destruct (basin_of lat lon) as [b|] eqn:E; [|now apply IH].
      apply IH. unfold set_add. destruct (existsb _ acc); [exact N|].
      intro I. apply in_app_or in I. destruct I as [I|[I|[]]]; [tauto|].
      subst b. exact (B _ _ E). }
    specialize (C (firstn 20 (obis_results obis)) [] (fun x => x)).
    destruct (collect_basins _ _) as [|b bs].
    + simpl. intros [H|[]]. discriminate.
    + intro I. apply C. rewrite <- (firstn_skipn 3 (b :: bs)).
      apply in_or_app. now left.
Qed.

End HeuristicsFacts.
(** An upstream that answers 429 to the first call and 200 with a payload to
    every later one, and an upstream that always answers 404. *)
Definition busy_then_ok : Fetch.upstream unit unit :=
  {| Fetch.requests_get := fun n _ _ _ =>
       match n with
       | O => Fetch.Response 429 (Fetch.Empty unit)
       | S _ => Fetch.Response 200 (Fetch.Json (Some tt))
       end;
     Fetch.latency := fun _ => 1 # 4;
     Fetch.str_params := fun _ => "None"%string |}.

Definition always_404 : Fetch.upstream unit unit :=
  {| Fetch.requests_get := fun _ _ _ _ => Fetch.Response 404 (Fetch.Empty unit);
     Fetch.latency := fun _ => 1 # 4;
     Fetch.str_params := fun _ => "None"%string |}.

(** C5, witness: the first request of a fresh process, with the default
    [retries = 2]. *)
Lemma C5_witness :
  let r := Fetch.api_request_with_cache busy_then_ok
             "https://api.obis.org/v3/occurrence" None None 2
             (Fetch.initial_world unit unit) in
  fst r = Some tt /\
  Fetch.slept (snd r) = [2%Q] /\
  APICache.od_get "https://api.obis.org/v3/occurrenceNone"
    (Fetch.entries (snd r)) = Some (Some tt, Fetch.clock (snd r)).
Proof.
  intro r.
  destruct (@FetchFacts.C5_backoff_then_success_is_cached unit unit busy_then_ok
              "https://api.obis.org/v3/occurrence"%string None None 2
              (Fetch.initial_world unit unit) (Fetch.Empty unit) (Some tt))
    as (A & B & _ & _ & C); try reflexivity.
  - lia.
  - split; [exact A|]. split; [exact B|exact C].
Defined.

(** C1, witness: a request answered 404, repeated ten seconds later. *)
Lemma C1_witness :
  let url := "https://www.marinespecies.org/rest/AphiaRecordByAphiaID/1"%string in
  let r1 := Fetch.api_request_with_cache always_404 url None None 2
              (Fetch.initial_world unit unit) in
  let r2 := Fetch.api_request_with_cache always_404 url None None 2
              (Fetch.elapse 10 (snd r1)) in
  fst r1 = None /\
  (List.length (Fetch.sent (snd r1)) < List.length (Fetch.sent (snd r2)))%nat.
Proof.
  intros url r1 r2.
  destruct (@FetchFacts.C1_negative_is_cached_but_refetched unit unit always_404
              url None None 2 (Fetch.initial_world unit unit) 404
              (Fetch.Empty unit) 10)
    as (A & _ & _ & _ & B); try reflexivity.
  - lia.
  - left. reflexivity.
  - unfold Qle. simpl. lia.
  - split; [exact A|exact B].
Defined.


(** ** Examples for the text heuristics *)

Module HeuristicsExamples.
Import Re Data Heuristics HeuristicsFacts.

Definition record_with_environment (text : string) : aphia_record :=
  {| AphiaID := Some 137102%Z; status := "accepted";
     scientificname := Some "Orcinus orca"%string;
     valid_name := Some "Orcinus orca"%string;
     isMarine := true; isBrackish := false; isFreshwater := false;
     isTerrestrial := false; environment := Some text; vernaculars := [];
     valid_vernacular := None; distribution := None; picture_url := None |}.

(** C8, witness: no OBIS data, and the first text of the claim. *)
Lemma C8_witness :
  collect_depths (firstn 20 (obis_results None)) = [] /\
  extract_depth_from_obis_fast None
    (record_with_environment "found at depths of 200-600 m") =
  Py.Returned
    (Some {| min_depth := Some (Py.PyInt 200);
             max_depth := Some (Py.PyInt 600);
             avg_depth := Some (Py.PyFloat 400);
             record_count := 1;
             source := "WoRMS" |}).
Proof.
  split; [reflexivity|].
  destruct (@C8_depth_extraction_examples None
              (record_with_environment "found at depths of 200-600 m")
              eq_refl) as [H _].
  apply H. reflexivity.
Defined.


End HeuristicsExamples.

(** ** The pipeline *)

Module PipelineFacts.
Import Data Heuristics Pipeline.

Local Open Scope string_scope.

(** The requests handed to [api_request_with_cache] so far *)
Definition requested (w : world) : list (string * option params) :=
  Fetch.requested w.

(** [logs m]: running [m] only adds requests to the log. *)
Definition logs {A : Type} (m : M A) : Prop :=
  forall w, exists t, requested (snd (m w)) = (requested w ++ t)%list.

(** [logs_first x m]: running [m] adds requests to the log, [x] first. *)
Definition logs_first {A : Type} (x : string * option params) (m : M A) : Prop :=
  forall w, exists t, requested (snd (m w)) = (requested w ++ x :: t)%list.

(** The request that opens each stage of the resolver *)
Definition exact_request (q : string) : string * option params :=
  (exact_url q, None).
Definition fuzzy_request (q : string) : string * option params :=
  (fuzzy_url q, None).
Definition vernacular_request (q : string) : string * option params :=
  (vernacular_url q, None).
Definition wikipedia_request (q : string) : string * option params :=
  (WIKI_API_ENDPOINT, Some (wiki_params (Py.strip q))).

(** *** Where building the record raises *)

(** A classification one of whose nodes has a [null] rank *)
Fixpoint has_null_rank (c : classification) : bool :=
  match c with
  | NoNode => false
  | Node None _ _ => true
  | Node (Some _) _ child => has_null_rank child
  end.

(** A [null] met by the loop over the vernaculars before it ends: a [null]
    name, or a [null] language next to a name that is not empty; the loop
    ends at an English name. *)
Fixpoint null_vernacular (l : list vernacular_entry) : bool :=
  match l with
  | [] => false
  | v :: l' =>
      match vernacular v with
      | None => true
      | Some name =>
          if Py.nonempty (Py.strip name) then
            match language v with
            | None => true
            | Some lang =>
                if String.eqb (Py.lower lang) "english" then false
                else null_vernacular l'
            end
          else null_vernacular l'
      end
  end.



Lemma scan_vernaculars_raises (l : list vernacular_entry) : forall common_name,
  scan_vernaculars l common_name = Py.Raised <-> null_vernacular l = true.
Proof.
  induction l as [|v l IH]; intro cn; simpl.
  - split; discriminate.
  - destruct (vernacular v) as [name|]; [|tauto].
    destruct (Py.nonempty (Py.strip name)); [|apply IH].
    destruct (language v) as [lang|]; [|tauto].
    destruct (String.eqb (Py.lower lang) "english"); [split; discriminate|].
    destruct (Py.nonempty cn); apply IH.
Qed.


Lemma depth_returns (r : aphia_record) (obis : option obis_data) :
  environment r <> None ->
  exists depth, extract_depth_from_obis_fast obis r = Py.Returned depth.
Proof.
  intro E. unfold extract_depth_from_obis_fast.
  destruct (environment r) as [text|]; [|congruence].
  destruct (collect_depths _); eexists; reflexivity.
Qed.


Section WithRuntime.

Variable RT : runtime.

Lemma attempt_loop_requested (n : nat) :
  forall attempt url p key retries (w : world),
    Fetch.requested
      (snd (Fetch.attempt_loop (net RT) n attempt url p key retries w))
    = Fetch.requested w.
Proof.
  induction n as [|n IH]; intros attempt url p key retries w.
  - simpl. now destruct (FetchFacts.API_CACHE_set_frame key None w) as (_ & _ & _ & ->).
  - cbn [Fetch.attempt_loop].
    set (w1 := Fetch.after_get (net RT) url p (Fetch.timeout_for url) w).
    assert (Hset : forall v, Fetch.requested (Fetch.API_CACHE_set key v w1)
                             = Fetch.requested w).
    { intro v. now destruct (FetchFacts.API_CACHE_set_frame key v w1) as (_ & _ & _ & ->). }
    assert (Hrec : forall a d,
      Fetch.requested (snd (Fetch.attempt_loop (net RT) n a url p key retries
                              (Fetch.sleep d w1))) = Fetch.requested w).
    { intros a d. now rewrite IH. }
    destruct (Fetch.requests_get (net RT) _ url p _) as [| |sc content]; simpl.
    + destruct (_ <? _)%Z; simpl; auto.
    + destruct (_ <? _)%Z; simpl; auto.
    + destruct (sc =? 204)%Z; simpl; auto.
      destruct (sc =? 404)%Z; simpl; auto.
      destruct (sc >=? 400)%Z; simpl; auto.
      * destruct ((sc =? 429)%Z && (attempt <? retries)%Z); simpl; auto.
      * destruct content; simpl; auto. destruct (_ <? _)%Z; simpl; auto.
Qed.

Lemma api_requested url p ck (w : world) :
  requested (snd (api RT url p ck w)) = (requested w ++ [(url, p)])%list.
Proof.
  unfold requested, api, Fetch.api_request_with_cache.
  destruct (FetchFacts.API_CACHE_get_frame
              (Fetch.request_key (net RT) url p ck) (Fetch.note_request url p w))
    as (_ & _ & _ & F).
  destruct (Fetch.API_CACHE_get _ _) as [[data|] w0]; cbv beta iota;
    cbn [fst snd] in F |- *.
  - exact F.
  - rewrite attempt_loop_requested. exact F.
Qed.

Lemma logs_ret (A : Type) (a : A) : logs (ret a).
Proof. intro w. exists []. simpl. now rewrite app_nil_r. Qed.

Lemma logs_bind (A B : Type) (m : M A) (k : A -> M B) :
  logs m -> (forall a, logs (k a)) -> logs (bind m k).
Proof.
  intros Hm Hk w. unfold bind. destruct (Hm w) as [t1 E1].
  destruct (m w) as [a w1]. simpl in E1. destruct (Hk a w1) as [t2 E2].
  exists (t1 ++ t2)%list. now rewrite E2, E1, app_assoc.
Qed.

Lemma logs_first_bind (A B : Type) x (m : M A) (k : A -> M B) :
  logs_first x m -> (forall a, logs (k a)) -> logs_first x (bind m k).
Proof.
  intros Hm Hk w. unfold bind. destruct (Hm w) as [t1 E1].
  destruct (m w) as [a w1]. simpl in E1. destruct (Hk a w1) as [t2 E2].
  exists (t1 ++ t2)%list. rewrite E2, E1, <- app_assoc. reflexivity.
Qed.

Lemma logs_first_logs (A : Type) x (m : M A) : logs_first x m -> logs m.
Proof. intros H w. destruct (H w) as [t E]. now exists (x :: t). Qed.

Lemma logs_first_api url p ck : logs_first (url, p) (api RT url p ck).
Proof. intro w. exists []. apply api_requested. Qed.

Lemma logs_api url p ck : logs (api RT url p ck).
Proof. apply logs_first_logs with (x := (url, p)), logs_first_api. Qed.

Ltac logs_step :=
  match goal with
  | |- logs (ret _) => apply logs_ret
  | |- logs (bind _ _) => apply logs_bind; [|intro]
  | |- logs (api _ _ _ _) => apply logs_api
  | H : logs ?m |- logs ?m => exact H
  | H : forall x, logs (?f x) |- logs (?f _) => apply H
  | |- logs (match ?x with _ => _ end) => destruct x
  end.

Ltac logs_auto := repeat logs_step.

Lemma logs_get_wikipedia_data_fast t : logs (get_wikipedia_data_fast RT t).
Proof. unfold get_wikipedia_data_fast. logs_auto. Qed.

Lemma logs_first_get_wikipedia_data_fast t :
  logs_first (WIKI_API_ENDPOINT, Some (wiki_params (Py.strip t)))
             (get_wikipedia_data_fast RT t).
Proof.
  unfold get_wikipedia_data_fast. apply logs_first_bind.
  - apply logs_first_api.
  - intro. logs_auto.
Qed.

Lemma logs_get_obis_data_fast n : logs (get_obis_data_fast RT n).
Proof. unfold get_obis_data_fast. logs_auto. Qed.

Lemma logs_get_worms_image_fast id : logs (get_worms_image_fast RT id).
Proof.
  unfold get_worms_image_fast, get_worms_images_fast. logs_auto.
Qed.

Lemma logs_fetch_wiki terms : logs (fetch_wiki RT terms).
Proof.
  induction terms as [|t terms IH]; simpl; [apply logs_ret|].
  destruct (_ && _); [|exact IH].
  apply logs_bind; [apply logs_get_wikipedia_data_fast|].
  intros [wd|]; [destruct (Py.nonempty _)|]; auto using logs_ret.
Qed.

Lemma logs_fetch_obis n : logs (fetch_obis RT n).
Proof.
  unfold fetch_obis. destruct n as [n|]; [destruct (Py.nonempty n)|];
    auto using logs_ret, logs_get_obis_data_fast.
Qed.

Lemma logs_get_complete_species_data id hint :
  logs (get_complete_species_data RT id hint).
Proof.
  unfold get_complete_species_data, get_complete_species_data_parallel.
  destruct (id =? 0)%Z; [apply logs_ret|].
  apply logs_bind; [apply logs_api|].
  intros [[r| | | | | | |]|]; try apply logs_ret.
  destruct (usable_name r); [|apply logs_ret].
  intro w.
  match goal with |- context [bind ?m ?k w] =>
    assert (L : logs (bind m k)) end.
  { apply logs_bind; [apply logs_api|intro].
    apply logs_bind; [apply logs_api|intro].
    apply logs_bind; [apply logs_fetch_obis|intro].
    apply logs_bind; [apply logs_fetch_wiki|intro].
    apply logs_bind; [apply logs_get_worms_image_fast|intro].
    apply logs_ret. }
  apply L.
Qed.

Lemma logs_exact_loop q ql items : logs (exact_loop RT q ql items).
Proof.
  induction items as [|item items IH]; simpl; [apply logs_ret|].
  destruct (item_id item) as [id|]; [|exact IH].
  destruct (_ && _); [|exact IH].
  apply logs_bind; [apply logs_get_complete_species_data|].
  intros [sp|]; [apply logs_ret|exact IH].
Qed.

Lemma logs_fuzzy_loop q ql items : forall results,
  logs (fuzzy_loop RT q ql items results).
Proof.
  induction items as [|item items IH]; intro results; simpl; [apply logs_ret|].
  destruct (item_id item) as [id|]; [|apply IH].
  destruct (_ && _); [|apply IH].
  apply logs_bind; [apply logs_get_complete_species_data|].
  intros [sp|]; [destruct (has_id _ _)|]; apply IH.
Qed.

Lemma logs_first_search_worms_species_robust q :
  logs_first (exact_url q, None) (search_worms_species_robust RT q).
Proof.
  unfold search_worms_species_robust. apply logs_first_bind.
  - apply logs_first_api.
  - intro. apply logs_bind; [apply logs_exact_loop|].
    intros [sp|]; [apply logs_ret|].
    apply logs_bind; [apply logs_api|intro].
    apply logs_bind; [apply logs_fuzzy_loop|intro]. apply logs_ret.
Qed.

Lemma logs_try_names names : logs (try_names RT names).
Proof.
  induction names as [|n names IH]; simpl; [apply logs_ret|].
  apply logs_bind.
  - eapply logs_first_logs, logs_first_search_worms_species_robust.
  - intros [|sp results]; [exact IH|apply logs_ret].
Qed.

Lemma logs_first_wikipedia_mediated_search_fast q :
  logs_first (WIKI_API_ENDPOINT, Some (wiki_params (Py.strip q)))
             (wikipedia_mediated_search_fast RT q).
Proof.
  unfold wikipedia_mediated_search_fast. apply logs_first_bind.
  - apply logs_first_get_wikipedia_data_fast.
  - intros [wd|]; [destruct (Py.nonempty _)|];
      auto using logs_ret, logs_try_names.
Qed.

Lemma logs_vernacular_loop q items : forall results seen,
  logs (vernacular_loop RT q items results seen).
Proof.
  induction items as [|item items IH]; intros results seen; simpl;
    [apply logs_ret|].
  destruct (item_id item) as [id|]; [|apply IH].
  destruct (existsb _ _); [apply IH|].
  apply logs_bind; [apply logs_api|].
  intros [[r| | | | | | |]|]; try apply IH.
  destruct (_ && _); [|apply IH].
  apply logs_bind; [apply logs_get_complete_species_data|].
  intros [sp|]; [|apply IH].
  repeat match goal with
         | |- logs (match ?x with _ => _ end) => destruct x
         end; first [apply logs_ret|apply IH].
Qed.

Lemma logs_first_fuzzy_search_common_name_fast q :
  logs_first (WIKI_API_ENDPOINT, Some (wiki_params (Py.strip q)))
             (fuzzy_search_common_name_fast RT q).
Proof.
  unfold fuzzy_search_common_name_fast. apply logs_first_bind.
  - apply logs_first_get_wikipedia_data_fast.
  - intros [wd|]; [|apply logs_ret].
    apply logs_bind; [apply logs_try_names|].
    intros [|sp results]; [|apply logs_ret].
    eapply logs_first_logs, logs_first_search_worms_species_robust.
Qed.

(** What a stage adds to the log once it has come back empty-handed. *)
Lemma robust_empty_log q (w : world) :
  fst (search_worms_species_robust RT q w) = [] ->
  exists t1 t2,
    requested (snd (search_worms_species_robust RT q w)) =
    (requested w ++ exact_request q :: t1 ++ fuzzy_request q :: t2)%list.
Proof.
  unfold search_worms_species_robust, bind.
  pose proof (api_requested (exact_url q) None None w) as E1.
  destruct (api RT (exact_url q) None None w) as [d1 w1]. simpl in E1.
  destruct (logs_exact_loop q (Py.strip (Py.lower q)) (listed d1) w1) as [t1 E2].
  destruct (exact_loop RT q _ (listed d1) w1) as [[sp|] w2]; simpl in E2;
    [discriminate|].
  pose proof (api_requested (fuzzy_url q) None None w2) as E3.
  destruct (api RT (fuzzy_url q) None None w2) as [d2 w3]. simpl in E3.
  destruct (logs_fuzzy_loop q (Py.strip (Py.lower q)) (listed d2) [] w3) as [t2 E4].
  destruct (fuzzy_loop RT q _ (listed d2) [] w3) as [rs w4]. simpl in E4.
  intros _. exists t1, t2. simpl. rewrite E4, E3, E2, E1.
  unfold exact_request, fuzzy_request. rewrite <- !app_assoc. reflexivity.
Qed.

Lemma common_name_empty_log q (w : world) :
  fst (search_by_common_name_fast RT q w) = [] ->
  exists t1 t2,
    requested (snd (search_by_common_name_fast RT q w)) =
    (requested w ++ vernacular_request q :: t1 ++ wikipedia_request q :: t2)%list.
Proof.
  unfold search_by_common_name_fast, bind.
  pose proof (api_requested (vernacular_url q) None None w) as E1.
  destruct (api RT (vernacular_url q) None None w) as [d1 w1]. simpl in E1.
  destruct (logs_vernacular_loop q (firstn 8 (listed d1)) [] [] w1) as [t1 E2].
  destruct (vernacular_loop RT q _ [] [] w1) as [[|sp rs] w2]; simpl in E2;
    [|discriminate].
  destruct (logs_first_wikipedia_mediated_search_fast q w2) as [t2 E3].
  intros _. exists t1, t2. rewrite E3, E2, E1.
  unfold vernacular_request, wikipedia_request. rewrite <- !app_assoc.
  reflexivity.
Qed.

(** *** Which requests a stage makes *)

(** The requests of the two scientific-name searches: their address starts
    with the [AphiaRecordsByName] endpoint. *)
Definition by_name (x : string * option params) : bool :=
  PyStr.startswith (WORMS_API_BASE ++ "/AphiaRecordsByName/") (fst x).

(** [adds P m]: running [m] only adds requests that satisfy [P]. *)
Definition adds {A : Type} (P : string * option params -> Prop) (m : M A)
    : Prop :=
  forall w, exists t,
    requested (snd (m w)) = (requested w ++ t)%list /\ Forall P t.

Definition not_by_name (x : string * option params) : Prop :=
  by_name x = false.

Lemma adds_ret (A : Type) P (a : A) : adds P (ret a).
Proof. intro w. exists []. simpl. now rewrite app_nil_r. Qed.

Lemma adds_bind (A B : Type) P (m : M A) (k : A -> M B) :
  adds P m -> (forall a, adds P (k a)) -> adds P (bind m k).
Proof.
  intros Hm Hk w. unfold bind. destruct (Hm w) as (t1 & E1 & F1).
  destruct (m w) as [a w1]. simpl in E1. destruct (Hk a w1) as (t2 & E2 & F2).
  exists (t1 ++ t2)%list. rewrite E2, E1, app_assoc. split; [reflexivity|].
  apply Forall_app. now split.
Qed.

Lemma adds_api (P : string * option params -> Prop) url p ck :
  P (url, p) -> adds P (api RT url p ck).
Proof.
  intros H w. exists [(url, p)]. split; [apply api_requested|].
  now constructor.
Qed.

Lemma adds_get_wikipedia_data_fast t :
  adds not_by_name (get_wikipedia_data_fast RT t).
Proof.
  unfold get_wikipedia_data_fast. apply adds_bind.
  - apply adds_api. reflexivity.
  - intro. apply adds_ret.
Qed.

Lemma adds_fetch_wiki terms : adds not_by_name (fetch_wiki RT terms).
Proof.
  induction terms as [|t terms IH]; simpl; [apply adds_ret|].
  destruct (_ && _); [|exact IH].
  apply adds_bind; [apply adds_get_wikipedia_data_fast|].
  intros [wd|]; [destruct (Py.nonempty _)|]; auto using adds_ret.
Qed.

Lemma adds_fetch_obis n : adds not_by_name (fetch_obis RT n).
Proof.
  unfold fetch_obis, get_obis_data_fast.
  destruct n as [n|]; [destruct (Py.nonempty n)|]; try apply adds_ret.
  apply adds_bind; [apply adds_api; reflexivity|intro; apply adds_ret].
Qed.

Lemma adds_get_worms_image_fast id :
  adds not_by_name (get_worms_image_fast RT id).
Proof.
  unfold get_worms_image_fast, get_worms_images_fast.
  apply adds_bind; [|intro; apply adds_ret].
  apply adds_bind; [apply adds_api; reflexivity|].
  intro data. destruct (match data with Some (JImages l) => _ | _ => [] end).
  - apply adds_bind; [apply adds_api; reflexivity|intro; apply adds_ret].
  - apply adds_ret.
Qed.

Lemma adds_get_complete_species_data id hint :
  adds not_by_name (get_complete_species_data RT id hint).
Proof.
  unfold get_complete_species_data, get_complete_species_data_parallel.
  destruct (id =? 0)%Z; [apply adds_ret|].
  apply adds_bind; [apply adds_api; reflexivity|].
  intros [[r| | | | | | |]|]; try apply adds_ret.
  destruct (usable_name r); [|apply adds_ret].
  intro w.
  match goal with |- context [bind ?m ?k w] =>
    assert (L : adds not_by_name (bind m k)) end.
  { apply adds_bind; [apply adds_api; reflexivity|intro].
    apply adds_bind; [apply adds_api; reflexivity|intro].
    apply adds_bind; [apply adds_fetch_obis|intro].
    apply adds_bind; [apply adds_fetch_wiki|intro].
    apply adds_bind; [apply adds_get_worms_image_fast|intro].
    apply adds_ret. }
  apply L.
Qed.

Lemma adds_exact_loop q ql items : adds not_by_name (exact_loop RT q ql items).
Proof.
  induction items as [|item items IH]; simpl; [apply adds_ret|].
  destruct (item_id item) as [id|]; [|exact IH].
  destruct (_ && _); [|exact IH].
  apply adds_bind; [apply adds_get_complete_species_data|].
  intros [sp|]; [apply adds_ret|exact IH].
Qed.

Lemma adds_vernacular_loop q items : forall results seen,
  adds not_by_name (vernacular_loop RT q items results seen).
Proof.
  induction items as [|item items IH]; intros results seen; simpl;
    [apply adds_ret|].
  destruct (item_id item) as [id|]; [|apply IH].
  destruct (existsb _ _); [apply IH|].
  apply adds_bind; [apply adds_api; reflexivity|].
  intros [[r| | | | | | |]|]; try apply IH.
  destruct (_ && _); [|apply IH].
  apply adds_bind; [apply adds_get_complete_species_data|].
  intros [sp|]; [|apply IH].
  repeat match goal with
         | |- adds _ (match ?x with _ => _ end) => destruct x
         end; first [apply adds_ret|apply IH].
Qed.

Lemma prefix_app (s t : string) : String.prefix s (s ++ t) = true.
Proof.
  induction s as [|c s IH]; simpl; [now destruct t|].
  destruct (ascii_dec c c); [exact IH|congruence].
Qed.

Lemma by_name_exact_request (name : string) :
  by_name (exact_request name) = true.
Proof.
  exact (prefix_app (WORMS_API_BASE ++ "/AphiaRecordsByName/")
           (PyStr.quote name
            ++ "?marine_only=true&like=false&offset=1&limit=10")).
Qed.

Lemma by_name_fuzzy_request (name : string) :
  by_name (fuzzy_request name) = true.
Proof.
  exact (prefix_app (WORMS_API_BASE ++ "/AphiaRecordsByName/")
           (PyStr.quote name
            ++ "?marine_only=true&like=true&offset=1&limit=15")).
Qed.

Lemma by_name_not_added (x : string * option params)
    (t : list (string * option params)) :
  by_name x = true -> Forall not_by_name t -> ~ In x t.
Proof.
  intros B F I. rewrite Forall_forall in F. specialize (F x I).
  unfold not_by_name in F. congruence.
Qed.

(** *** The stages, one after the other *)

(** C2 (as amended). The resolver runs its stages strictly in order and stops
    at the first that yields a result.
    - A query of fewer than two characters, a one-digit id among them, is
      turned down before any stage.
    - A numeric query of two digits or more is settled by the id lookup
      alone when [int] accepts it, and turned down without any request when
      it is longer than the interpreter's limit.
    - A query of binomial shape is settled by the scientific-name searches
      alone.
    - Any other query goes through the scientific-name searches, then the
      vernacular search, then the Wikipedia-mediated fuzzy search, each
      only when the one before returned nothing; when resolution fails, the
      exact, fuzzy, vernacular and both Wikipedia requests for the query
      have been made, in this order.
    - Within the scientific-name searches of any name: an exact hit is
      returned alone and nothing is done after it, the fuzzy request is
      not made; without an exact hit the fuzzy request follows, once, and
      the first eight records of the fuzzy loop are returned.
    - Within the vernacular search: records found by the vernacular loop
      are returned as they are, no scientific-name search having been made
      meanwhile; with none, the Wikipedia-mediated search of the name
      follows.
    - Within the Wikipedia-mediated search that follows an empty vernacular
      loop: the candidate names read from the page, three at most, are
      searched one after the other, and the first with results settles it.
    - Within the Wikipedia-mediated fuzzy search: the first candidate name
      with results settles it; with none, the page title is searched. *)
Theorem C2_stage_order :
  forall (query : string) (w : world),
    let q := Py.strip query in
    let run := search_worms_species_fast RT query w in
    ((String.length q < 2)%nat -> run = ([], w)) /\
    ((2 <= String.length q)%nat -> Py.isdigit q = true ->
     (int_max_str_digits RT = 0 \/ String.length q <= int_max_str_digits RT)%nat ->
     exists aphia_id,
       Py.digits_value 0 (list_ascii_of_string q) = Some aphia_id /\
       let lookup := get_complete_species_data RT aphia_id (Some "") w in
       run = (match fst lookup with Some sp => [sp] | None => [] end,
              snd lookup)) /\
    ((2 <= String.length q)%nat -> Py.isdigit q = true ->
     (0 < int_max_str_digits RT < String.length q)%nat ->
     run = ([], w)) /\
    ((2 <= String.length q)%nat -> Py.isdigit q = false ->
     is_scientific_name q = true ->
     run = search_worms_species_robust RT q w) /\
    ((2 <= String.length q)%nat -> Py.isdigit q = false ->
     is_scientific_name q = false ->
     let lexical := search_worms_species_robust RT q w in
     let vernacular := search_by_common_name_fast RT q (snd lexical) in
     let mediated := fuzzy_search_common_name_fast RT q (snd vernacular) in
     (fst lexical <> [] -> run = (firstn 10 (fst lexical), snd lexical)) /\
     (fst lexical = [] -> fst vernacular <> [] ->
      run = (firstn 10 (fst vernacular), snd vernacular)) /\
     (fst lexical = [] -> fst vernacular = [] ->
      run = (firstn 10 (fst mediated), snd mediated)) /\
     (fst run = [] ->
      exists t1 t2 t3 t4 t5,
        requested (snd run) =
        (requested w ++ exact_request q :: t1 ++ fuzzy_request q :: t2
         ++ vernacular_request q :: t3 ++ wikipedia_request q :: t4
         ++ wikipedia_request q :: t5)%list)) /\
    (forall (name : string) (w0 : world),
       let asked := api RT (exact_url name) None None w0 in
       let hit :=
         exact_loop RT name (Py.strip (Py.lower name)) (listed (fst asked))
           (snd asked) in
       let found := search_worms_species_robust RT name w0 in
       (exists t,
          requested (snd hit) = (requested w0 ++ exact_request name :: t)%list /\
          ~ In (exact_request name) t /\ ~ In (fuzzy_request name) t) /\
       (forall sp, fst hit = Some sp -> found = ([sp], snd hit)) /\
       (fst hit = None ->
        let asked_again := api RT (fuzzy_url name) None None (snd hit) in
        let close :=
          fuzzy_loop RT name (Py.strip (Py.lower name))
            (listed (fst asked_again)) [] (snd asked_again) in
        found = (firstn 8 (fst close), snd close) /\
        requested (snd asked_again) =
          (requested (snd hit) ++ [fuzzy_request name])%list)) /\
    (forall (common_name : string) (w0 : world),
       let asked := api RT (vernacular_url common_name) None None w0 in
       let listing :=
         vernacular_loop RT common_name (firstn 8 (listed (fst asked))) [] []
           (snd asked) in
       let found := search_by_common_name_fast RT common_name w0 in
       (exists t,
          requested (snd listing) =
            (requested w0 ++ vernacular_request common_name :: t)%list /\
          Forall not_by_name t) /\
       (fst listing <> [] -> found = listing) /\
       (fst listing = [] ->
        found = wikipedia_mediated_search_fast RT common_name (snd listing))) /\
    (forall (common_name : string) (w0 : world),
       wikipedia_mediated_search_fast RT common_name w0 =
       match get_wikipedia_data_fast RT common_name w0 with
       | (Some wd, w1) =>
           if Py.nonempty (description wd)
           then try_names RT
                  (firstn 3 (extract_scientific_names_from_text_fast RT
                               (description wd))) w1
           else ([], w1)
       | (None, w1) => ([], w1)
       end) /\
    (forall (sci_name : string) (names : list string) (w0 : world),
       let first := search_worms_species_robust RT sci_name w0 in
       try_names RT [] w0 = ([], w0) /\
       (fst first <> [] -> try_names RT (sci_name :: names) w0 = first) /\
       (fst first = [] ->
        try_names RT (sci_name :: names) w0 = try_names RT names (snd first))) /\
    (forall (text : string) (w0 : world),
       match get_wikipedia_data_fast RT text w0 with
       | (Some wd, w1) =>
           let names :=
             (extract_scientific_names_from_text_fast RT (description wd)
              ++ (if is_scientific_name (title wd) then [title wd] else []))%list in
           let tried := try_names RT (firstn 3 names) w1 in
           (fst tried <> [] ->
            fuzzy_search_common_name_fast RT text w0 = tried) /\
           (fst tried = [] ->
            fuzzy_search_common_name_fast RT text w0 =
            search_worms_species_robust RT (title wd) (snd tried))
       | (None, w1) => fuzzy_search_common_name_fast RT text w0 = ([], w1)
       end).
Proof.
  intros query w q run. subst run. unfold search_worms_species_fast. fold q.
  split; [|split; [|split; [|split; [|split; [|split; [|split;
    [|split; [|split]]]]]]]].
  - intro L. apply Nat.ltb_lt in L. now rewrite L.
  - intros L D Lim. apply Nat.ltb_ge in L. rewrite L, D.
    assert (F : Forall (fun c => Re.digit c = true) (list_ascii_of_string q)).
    { unfold Py.isdigit in D. apply andb_prop in D. destruct D as [_ D].
      apply Forall_forall. now apply forallb_forall. }
    destruct (HeuristicsFacts.digits_value_bound 0 F) as (v & E & _).
    exists v. split; [exact E|]. unfold Py.int_of_digits.
    replace (negb (int_max_str_digits RT =? 0)%nat
             && (int_max_str_digits RT <? String.length q)%nat) with false.
    + rewrite E. unfold bind, ret.
      destruct (get_complete_species_data RT v (Some "") w) as [[sp|] w1];
        reflexivity.
    + symmetry. destruct Lim as [->|Lim]; [reflexivity|].
      apply andb_false_iff. right. apply Nat.ltb_ge. exact Lim.
  - intros L D Lim. apply Nat.ltb_ge in L. rewrite L, D.
    unfold Py.int_of_digits.
    replace (negb (int_max_str_digits RT =? 0)%nat
             && (int_max_str_digits RT <? String.length q)%nat) with true;
      [reflexivity|].
    symmetry. apply andb_true_iff. split.
    + apply negb_true_iff, Nat.eqb_neq. lia.
    + apply Nat.ltb_lt. lia.
  - intros L D S. apply Nat.ltb_ge in L. now rewrite L, D, S.
  - intros L D S. apply Nat.ltb_ge in L. rewrite L, D, S. clear L D S.
    unfold bind, ret.
    pose proof (robust_empty_log q w) as R.
    destruct (search_worms_species_robust RT q w) as [[|sp1 rs1] w1];
      cbn [fst snd] in *.
    + pose proof (common_name_empty_log q w1) as V.
      destruct (search_by_common_name_fast RT q w1) as [[|sp2 rs2] w2];
        cbn [fst snd] in *.
      * destruct (logs_first_fuzzy_search_common_name_fast q w2) as [t5 M].
        destruct (fuzzy_search_common_name_fast RT q w2) as [rs3 w3].
        cbn [fst snd] in *.
        split; [congruence|]. split; [congruence|]. split; [reflexivity|].
        intros _. destruct (R eq_refl) as (t1 & t2 & R').
        destruct (V eq_refl) as (t3 & t4 & V').
        exists t1, t2, t3, t4, t5. rewrite M, V', R'.
        repeat (rewrite <- app_assoc; simpl). reflexivity.
      * split; [congruence|]. split; [reflexivity|]. split; [congruence|].
        simpl. discriminate.
    + split; [reflexivity|]. split; [congruence|]. split; [congruence|].
      simpl. discriminate.
  - intros name w0.
    unfold search_worms_species_robust, bind.
    pose proof (api_requested (exact_url name) None None w0) as E1.
    destruct (api RT (exact_url name) None None w0) as [d1 w1].
    cbn [fst snd] in *.
    destruct (adds_exact_loop name (Py.strip (Py.lower name)) (listed d1) w1)
      as (t & E2 & F).
    destruct (exact_loop RT name _ (listed d1) w1) as [[sp|] w2];
      cbn [fst snd] in *.
    + split; [|split; [intros sp' H; now inversion H|discriminate]].
      exists t. rewrite E2, E1, <- app_assoc. split; [reflexivity|].
      split; apply by_name_not_added;
        auto using by_name_exact_request, by_name_fuzzy_request.
    + split; [|split; [discriminate|]].
      * exists t. rewrite E2, E1, <- app_assoc. split; [reflexivity|].
        split; apply by_name_not_added;
        auto using by_name_exact_request, by_name_fuzzy_request.
      * intros _.
        pose proof (api_requested (fuzzy_url name) None None w2) as E3.
        destruct (api RT (fuzzy_url name) None None w2) as [d2 w3].
        cbn [fst snd] in *.
        destruct (fuzzy_loop RT name _ (listed d2) [] w3) as [rs w4].
        split; [reflexivity|exact E3].
  - intros cn w0.
    unfold search_by_common_name_fast, bind.
    pose proof (api_requested (vernacular_url cn) None None w0) as E1.
    destruct (api RT (vernacular_url cn) None None w0) as [d1 w1].
    cbn [fst snd] in *.
    destruct (adds_vernacular_loop cn (firstn 8 (listed d1)) [] [] w1)
      as (t & E2 & F).
    destruct (vernacular_loop RT cn _ [] [] w1) as [[|sp rs] w2];
      cbn [fst snd] in *.
    + split; [|split; [congruence|reflexivity]].
      exists t. rewrite E2, E1, <- app_assoc. split; [reflexivity|exact F].
    + split; [|split; [reflexivity|congruence]].
      exists t. rewrite E2, E1, <- app_assoc. split; [reflexivity|exact F].
  - intros cn w0. unfold wikipedia_mediated_search_fast, bind.
    destruct (get_wikipedia_data_fast RT cn w0) as [[wd|] w1];
      [|reflexivity].
    now destruct (Py.nonempty (description wd)).
  - intros n names w0. cbn [try_names]. unfold bind, ret.
    destruct (search_worms_species_robust RT n w0) as [[|sp rs] w1];
      cbn [fst snd].
    + split; [reflexivity|]. split; [congruence|reflexivity].
    + split; [reflexivity|]. split; [reflexivity|congruence].
  - intros text w0. unfold fuzzy_search_common_name_fast, bind.
    destruct (get_wikipedia_data_fast RT text w0) as [[wd|] w1];
      [|reflexivity].
    cbv zeta.
    destruct (try_names RT _ w1) as [[|sp rs] w2]; cbn [fst snd].
    + split; [congruence|reflexivity].
    + split; [reflexivity|congruence].
Qed.




(** *** BrowseSampler *)

(** Kept along a browse: the ids of the species gathered are distinct, and
    all of them are among the ids seen. *)
Definition browse_inv (marine_species : list Species.t) (seen : list Z) : Prop :=
  NoDup (map Species.aphia_id marine_species) /\
  forall sp, In sp marine_species -> In (Species.aphia_id sp) seen.

Lemma take_results_inv offset limit rs : forall marine seen,
  browse_inv marine seen ->
  browse_inv (fst (take_results offset limit rs marine seen))
             (snd (take_results offset limit rs marine seen)).
Proof.
  induction rs as [|sp rs IH]; intros marine seen I; simpl; [exact I|].
  destruct ((Species.aphia_id sp =? 0)%Z) eqn:Z0; simpl; [now apply IH|].
  destruct (existsb (Z.eqb (Species.aphia_id sp)) seen) eqn:S; [now apply IH|].
  assert (N : ~ In (Species.aphia_id sp) seen).
  { intro H. assert (existsb (Z.eqb (Species.aphia_id sp)) seen = true).
    { apply existsb_exists. exists (Species.aphia_id sp). split; [exact H|].
      apply Z.eqb_refl. }
    congruence. }
  assert (I' : browse_inv (marine ++ [sp]) (Species.aphia_id sp :: seen)).
  { destruct I as [ND Sub]. split.
    - rewrite map_app. simpl. apply NoDup_app; [exact ND|repeat constructor; auto|].
      intros x Hx [<-|[]]. apply N. apply in_map_iff in Hx.
      destruct Hx as (sp' & E & Hsp'). rewrite <- E. now apply Sub.
    - intros sp' H. apply in_app_or in H. destruct H as [H|[<-|[]]].
      + right. now apply Sub.
      + now left. }
  destruct (offset <=? List.length marine)%nat.
  - destruct (offset + limit <=? _)%nat; [exact I'|now apply IH].
  - destruct (offset + limit <=? _)%nat; [exact I|now apply IH].
Qed.

Lemma browse_terms_NoDup offset limit terms : forall marine seen w,
  browse_inv marine seen ->
  NoDup (map Species.aphia_id
           (fst (browse_terms RT offset limit terms marine seen w))).
Proof.
  induction terms as [|t terms IH]; intros marine seen w I; simpl.
  - apply I.
  - destruct (offset + limit <=? _)%nat; [apply I|].
    unfold bind. destruct (search_worms_species_fast RT t w) as [rs w1].
    pose proof (@take_results_inv offset limit rs marine seen I) as I'.
    destruct (take_results offset limit rs marine seen) as [m' s'].
    now apply IH.
Qed.

Lemma take_results_stuck offset limit rs : forall seen,
  (0 < offset)%nat ->
  fst (take_results offset limit rs [] seen) = [].
Proof.
  intros seen P. induction rs as [|sp rs IH]; simpl; [reflexivity|].
  destruct (_ || _); [exact IH|].
  destruct (Nat.leb_spec offset 0); [lia|]. cbn [List.length].
  destruct (Nat.leb_spec (offset + limit) 0); [lia|exact IH].
Qed.

Lemma browse_terms_stuck offset limit terms : forall seen w,
  (0 < offset)%nat ->
  fst (browse_terms RT offset limit terms [] seen w) = [].
Proof.
  induction terms as [|t terms IH]; intros seen w P; simpl; [reflexivity|].
  destruct (offset + limit <=? _)%nat; [reflexivity|].
  unfold bind. destruct (search_worms_species_fast RT t w) as [rs w1].
  pose proof (@take_results_stuck offset limit rs seen P) as E.
  destruct (take_results offset limit rs [] seen) as [m' s']. simpl in E.
  subst m'. now apply IH.
Qed.

(** C3 (what the code does). One call never returns two records with the
    same taxon id; but a species is only ever appended once the list already
    holds [offset] of them, so with a positive offset the list stays empty and
    the call returns nothing, whatever the seed catalog resolves to. *)
Theorem C3_positive_offset_returns_nothing :
  forall (offset limit : nat) (w : world),
    let result := fst (browse_marine_animals_fast RT offset limit w) in
    NoDup (map Species.aphia_id result) /\
    ((0 < offset)%nat -> result = []).
Proof.
  intros offset limit w result. subst result.
  unfold browse_marine_animals_fast, bind, ret.
  set (terms := shuffle RT _ _). split.
  - assert (I : browse_inv [] []) by (split; [constructor|intros ? []]).
    pose proof (@browse_terms_NoDup offset limit terms [] [] w I) as ND.
    destruct (browse_terms RT offset limit terms [] [] w) as [marine w1].
    simpl in *.
    rewrite <- (firstn_skipn (Nat.min (offset + limit) (List.length marine)) marine),
      map_app in ND.
    apply NoDup_app_remove_r in ND.
    rewrite <- (firstn_skipn (Nat.min offset (List.length marine))
                  (firstn _ marine)), map_app in ND.
    now apply NoDup_app_remove_l in ND.
  - intro P. pose proof (@browse_terms_stuck offset limit terms [] w P) as E.
    destruct (browse_terms RT offset limit terms [] [] w) as [marine w1].
    simpl in *. subst marine. now destruct offset.
Qed.

End WithRuntime.

End PipelineFacts.

(** ** Examples for the resolver *)

Module PipelineExamples.
Import Data Heuristics Pipeline PipelineFacts.

Local Open Scope string_scope.

(** A rendering of the parameter dict, in the manner of [str]. *)
Definition render_params (p : option params) : string :=
  match p with
  | None => "None"
  | Some l =>
      "{" ++ PyStr.join ", "
               (map (fun kv => "'" ++ fst kv ++ "': '" ++ snd kv ++ "'") l)
      ++ "}"
  end.

(** A world in which every upstream answers 404, no task times out, the
    shuffle leaves the catalog as it is, and no name is read from prose. *)
Definition nothing_found : runtime :=
  {| net :=
       {| Fetch.requests_get := fun _ _ _ _ =>
            Fetch.Response 404 (Fetch.Empty payload);
          Fetch.latency := fun _ => 1 # 4;
          Fetch.str_params := render_params |};
     future_times_out := fun _ _ => false;
     shuffle := fun _ l => l;
     extract_scientific_names_from_text_fast := fun _ => [];
     int_max_str_digits := 4300 |}.

(** A world that knows one species: WoRMS lists Orcinus orca under its
    scientific name and under "killer whale", and serves its record; every
    other request is answered 404. *)
Definition orca : aphia_record :=
  {| AphiaID := Some 137102%Z; status := "accepted";
     scientificname := Some "Orcinus orca"; valid_name := Some "Orcinus orca";
     isMarine := true; isBrackish := false; isFreshwater := false;
     isTerrestrial := false; environment := Some ""; vernaculars := [];
     valid_vernacular := None; distribution := None; picture_url := None |}.

Definition orca_world : runtime :=
  {| net :=
       {| Fetch.requests_get := fun _ url _ _ =>
            if String.eqb url (exact_url "Orcinus orca")
               || String.eqb url (vernacular_url "killer whale")
            then Fetch.Response 200 (Fetch.Json (Some (JRecords [orca])))
            else if String.eqb url (record_url 137102)
            then Fetch.Response 200 (Fetch.Json (Some (JRecord orca)))
            else Fetch.Response 404 (Fetch.Empty payload);
          Fetch.latency := fun _ => 1 # 4;
          Fetch.str_params := render_params |};
     future_times_out := fun _ _ => false;
     shuffle := fun _ l => l;
     extract_scientific_names_from_text_fast := fun _ => [];
     int_max_str_digits := 4300 |}.

(** A world in which the record endpoint answers every id with the record
    of Orcinus orca, and every other request is answered 404. *)
Definition every_id_resolves : runtime :=
  {| net :=
       {| Fetch.requests_get := fun _ url _ _ =>
            if PyStr.startswith (WORMS_API_RECORD ++ "/") url
            then Fetch.Response 200 (Fetch.Json (Some (JRecord orca)))
            else Fetch.Response 404 (Fetch.Empty payload);
          Fetch.latency := fun _ => 1 # 4;
          Fetch.str_params := render_params |};
     future_times_out := fun _ _ => false;
     shuffle := fun _ l => l;
     extract_scientific_names_from_text_fast := fun _ => [];
     int_max_str_digits := 4300 |}.

Definition fresh : world := Fetch.initial_world payload params.

(** C2, counterexamples. The query "Orcinus orca" is not numeric and both
    scientific-name searches fail; resolution is declared failed after these
    two requests, without the vernacular search or Wikipedia being asked.
    And the query "7" is numeric, the id 7 resolves to a record, yet the
    resolver returns nothing and asks nothing: a query of one character
    never reaches the id lookup. *)
Lemma C2_skipped_stages_counterexample :
  (let run := search_worms_species_fast nothing_found "Orcinus orca" fresh in
   Py.isdigit "Orcinus orca" = false /\
   fst run = [] /\
   requested (snd run)
     = [exact_request "Orcinus orca"; fuzzy_request "Orcinus orca"] /\
   ~ In (vernacular_request "Orcinus orca") (requested (snd run)) /\
   ~ In (wikipedia_request "Orcinus orca") (requested (snd run))) /\
  (let run := search_worms_species_fast every_id_resolves "7" fresh in
   Py.isdigit "7" = true /\
   Py.int_of_digits 4300 "7" = Some 7%Z /\
   option_map Species.title
     (fst (get_complete_species_data every_id_resolves 7 (Some "") fresh))
     = Some "Orcinus orca" /\
   run = ([], fresh)).
Proof.
  split.
  - assert (E : requested (snd (search_worms_species_fast nothing_found
                                  "Orcinus orca" fresh))
                = [exact_request "Orcinus orca"; fuzzy_request "Orcinus orca"])
      by (vm_compute; reflexivity).
    cbv zeta. rewrite E.
    split; [vm_compute; reflexivity|]. split; [vm_compute; reflexivity|].
    split; [reflexivity|].
    split; intros [H|[H|[]]]; vm_compute in H; discriminate.
  - cbv zeta. split; [reflexivity|]. split; [reflexivity|].
    split; vm_compute; reflexivity.
Qed.




(** A numeric query is settled by the id lookup: the record is fetched and
    enriched, and no search endpoint is asked. *)
Example numeric_query_is_looked_up :
  let run := search_worms_species_fast orca_world "137102" fresh in
  map Species.title (fst run) = ["Orcinus orca"] /\
  hd_error (requested (snd run)) = Some (record_url 137102, None) /\
  ~ In (exact_request "137102") (requested (snd run)).
Proof.
  vm_compute. repeat split. intro H.
  repeat (destruct H as [H|H]; [discriminate|]). exact H.
Qed.

(** "Orcinus orca" is found by the exact search; the fuzzy search is not
    reached. *)
Example exact_hit_stops_before_the_fuzzy_search :
  let run := search_worms_species_fast orca_world "Orcinus orca" fresh in
  map Species.aphia_id (fst run) = [137102%Z] /\
  hd_error (requested (snd run)) = Some (exact_request "Orcinus orca") /\
  ~ In (fuzzy_request "Orcinus orca") (requested (snd run)).
Proof.
  vm_compute. repeat split. intro H.
  repeat (destruct H as [H|H]; [discriminate|]). exact H.
Qed.

(** "killer whale" fails both scientific-name searches and is found by the
    vernacular search. *)
Example common_name_reaches_the_vernacular_search :
  let run := search_worms_species_fast orca_world "killer whale" fresh in
  map Species.common_name (fst run) = [Some "killer whale"] /\
  firstn 3 (requested (snd run)) =
    [exact_request "killer whale"; fuzzy_request "killer whale";
     vernacular_request "killer whale"].
Proof. vm_compute. split; reflexivity. Qed.

(** Browsing from offset 0 finds the species; browsing from offset 20 returns
    nothing although the same seed terms resolve. *)
Example browse_from_offset_20_is_empty :
  map Species.aphia_id (fst (browse_marine_animals_fast orca_world 0 20 fresh))
    = [137102%Z] /\
  fst (browse_marine_animals_fast orca_world 20 5 fresh) = [].
Proof. vm_compute. split; reflexivity. Qed.

End PipelineExamples.

(** ** ResponseCache: capacity, failure and overwriting *)

Module APICacheLaws.
Import APICache APICacheFacts.

Section WithValue.

Variable value : Type.
Implicit Types (d : odict value) (c : t value) (k : string).

Lemma od_setitem_length k e d :
  List.length (od_setitem k e d) =
  if od_mem k d then List.length d else S (List.length d).
Proof.
  unfold od_mem. induction d as [|[k' e'] d IH]; simpl; [reflexivity|].
  destruct (String.eqb k k'); simpl; [reflexivity|].
  rewrite IH. now destruct (od_get k d).
Qed.

Lemma od_mem_move_to_end k d :
  od_get k d <> None -> od_mem k (od_move_to_end k d) = true.
Proof.
  intro G. unfold od_mem. rewrite od_get_move_to_end.
  destruct (od_get k d); congruence.
Qed.

Lemma od_move_to_end_length k d :
  (List.length (od_move_to_end k d) <= List.length d)%nat.
Proof.
  unfold od_move_to_end. destruct (od_get k d) as [e|] eqn:G; [|lia].
  rewrite length_app. simpl.
  assert (od_get k d <> None) as N by congruence.
  pose proof (@od_del_length_lt value k d N). lia.
Qed.

Lemma get_max_size c now k : max_size (snd (get c now k)) = max_size c.
Proof.
  unfold get. destruct (od_get k (cache c)) as [[data ts]|]; [|reflexivity].
  destruct (Qltb _ _); reflexivity.
Qed.

Lemma get_length c now k :
  (List.length (cache (snd (get c now k))) <= List.length (cache c))%nat.
Proof.
  unfold get. destruct (od_get k (cache c)) as [[data ts]|]; [|simpl; lia].
  destruct (Qltb _ _); simpl.
  - apply od_move_to_end_length.
  - apply od_del_length.
Qed.

Lemma set_max_size c now k v c' :
  set c now k v = Some c' -> max_size c' = max_size c.
Proof.
  unfold set. destruct (od_mem k (cache c)).
  - intro H. inversion H. reflexivity.
  - destruct (_ <=? _)%Z; [destruct (cache c)|]; intro H; inversion H; reflexivity.
Qed.

Lemma set_length c now k v c' :
  set c now k v = Some c' ->
  (Z.of_nat (List.length (cache c)) <= max_size c)%Z ->
  (Z.of_nat (List.length (cache c')) <= max_size c)%Z.
Proof.
  unfold set, od_mem. destruct (od_get k (cache c)) as [e|] eqn:G.
  - intros H L. inversion H; subst; clear H. simpl.
    rewrite od_setitem_length, od_mem_move_to_end by congruence.
    pose proof (od_move_to_end_length k (cache c)). lia.
  - destruct (Z.leb_spec (max_size c) (Z.of_nat (List.length (cache c))))
      as [B|B].
    + destruct (cache c) as [|[k0 e0] rest] eqn:C; [discriminate|].
      intros H L. inversion H; subst; clear H. simpl in *.
      rewrite od_setitem_length. unfold od_mem.
      destruct (String.eqb k k0); [discriminate|]. rewrite G. lia.
    + intros H L. inversion H; subst; clear H. simpl.
      rewrite od_setitem_length. unfold od_mem. rewrite G. lia.
Qed.

Lemma run_bounded ops : forall c h c' h',
  (Z.of_nat (List.length (cache c)) <= max_size c)%Z ->
  run (c, h) ops = Some (c', h') ->
  max_size c' = max_size c /\
  (Z.of_nat (List.length (cache c')) <= max_size c)%Z.
Proof.
  induction ops as [|o ops IH]; intros c h c' h' L; cbn [run].
  - intro E. inversion E; subst. auto.
  - destruct o as [now k|now k v]; cbn [step].
    + intro R. apply IH in R.
      * now rewrite get_max_size in R.
      * rewrite get_max_size. pose proof (get_length c now k). lia.
    + destruct (set c now k v) as [c1|] eqn:S; [|discriminate].
      intro R. apply IH in R.
      * now rewrite (set_max_size _ _ _ _ S) in R.
      * rewrite (set_max_size _ _ _ _ S). eapply set_length; eassumption.
Qed.

(** The cache never holds more entries than [max_size], and never two
    entries under one key. *)
Theorem cache_never_exceeds_max_size :
  forall (m : Z) (life : Q) (ops : list (op value)) (c : t value)
         (h : list string),
    (0 <= m)%Z ->
    run (init value m life, []) ops = Some (c, h) ->
    max_size c = m /\
    (Z.of_nat (List.length (cache c)) <= m)%Z /\
    NoDup (keys c).
Proof.
  intros m life ops c h P R.
  destruct (@run_bounded ops (init value m life) [] c h) as [M L];
    [simpl; lia|exact R|].
  split; [exact M|]. split; [exact L|]. exact (run_wf _ _ _ R).
Qed.

(** *** When [set] raises *)

Lemma set_fails c now k v :
  set c now k v = None <-> cache c = [] /\ (max_size c <= 0)%Z.
Proof.
  unfold set, od_mem. split.
  - destruct (od_get k (cache c)); [discriminate|].
    destruct (Z.leb_spec (max_size c) (Z.of_nat (List.length (cache c))))
      as [B|B]; [|discriminate].
    destruct (cache c); [|discriminate]. simpl in *. intros _. split; [reflexivity|lia].
  - intros [-> L]. simpl.
    destruct (Z.leb_spec (max_size c) 0); [reflexivity|lia].
Qed.

Lemma run_gets_on_empty (m : Z) (life : Q) ops : forall h,
  (forall now k v, ~ In (OpSet now k v) ops) ->
  run (init value m life, h) ops = Some (init value m life, h).
Proof.
  induction ops as [|o ops IH]; intros h N; cbn [run]; [reflexivity|].
  destruct o as [now k|now k v].
  - cbn. apply IH. intros now' k' v' I. apply (N now' k' v'). now right.
  - exfalso. apply (N now k v). now left.
Qed.

Lemma run_none_on_empty (m : Z) (life : Q) ops : forall h,
  (m <= 0)%Z ->
  (exists now k v, In (OpSet now k v) ops) ->
  run (init value m life, h) ops = None.
Proof.
  induction ops as [|o ops IH]; intros h L (now & k & v & I); [destruct I|].
  cbn [run]. destruct o as [now' k'|now' k' v'].
  - cbn. apply IH; [exact L|]. destruct I as [E|I]; [discriminate|eauto].
  - cbn [step].
    assert (S : set (init value m life) now' k' v' = None)
      by (apply set_fails; split; [reflexivity|exact L]).
    now rewrite S.
Qed.

Lemma run_some_with_capacity ops : forall c h,
  (0 < max_size c)%Z -> run (c, h) ops <> None.
Proof.
  induction ops as [|o ops IH]; intros c h P; cbn [run]; [discriminate|].
  destruct o as [now k|now k v]; cbn [step].
  - apply IH. now rewrite get_max_size.
  - destruct (set c now k v) as [c1|] eqn:S.
    + apply IH. now rewrite (set_max_size _ _ _ _ S).
    + apply set_fails in S. lia.
Qed.

(** A sequence of cache operations started on an empty cache raises (the
    [KeyError] of [popitem] on an empty dict) exactly when the cache was built
    with [max_size <= 0] and the sequence contains a [set]. *)
Theorem cache_raises_only_without_capacity :
  forall (m : Z) (life : Q) (ops : list (op value)),
    run (init value m life, []) ops = None <->
    (m <= 0)%Z /\ exists now k v, In (OpSet now k v) ops.
Proof.
  intros m life ops. split.
  - intro R. destruct (Z.leb_spec m 0) as [L|L].
    + split; [exact L|].
      assert (D : {exists now k v, In (OpSet now k v) ops} +
                  {forall now k v, ~ In (OpSet now k v) ops}).
      { clear. induction ops as [|o ops IH].
        - right. intros ? ? ? [].
        - destruct o as [now k|now k v].
          + destruct IH as [E|N].
            * left. destruct E as (a & b & c & I). exists a, b, c. now right.
            * right. intros a b c [E|I]; [discriminate|]. exact (N a b c I).
          + left. exists now, k, v. now left. }
      destruct D as [E|N]; [exact E|].
      rewrite (@run_gets_on_empty m life ops [] N) in R. discriminate.
    + exfalso. exact (@run_some_with_capacity ops (init value m life) [] L R).
  - intros [L E]. now apply run_none_on_empty.
Qed.

(** *** Overwriting a key *)

Lemma od_del_absent k d : od_get k d = None -> od_del k d = d.
Proof.
  induction d as [|[k' e'] d IH]; simpl; [reflexivity|].
  destruct (String.eqb k k'); [discriminate|]. simpl. intro G. now rewrite IH.
Qed.

Lemma od_del_length_present k d e :
  NoDup (map fst d) -> od_get k d = Some e ->
  S (List.length (od_del k d)) = List.length d.
Proof.
  induction d as [|[k' e'] d IH]; simpl; [discriminate|].
  intros N. inversion N as [|? ? N1 N2]; subst.
  destruct (String.eqb_spec k k') as [->|D]; simpl.
  - intros _. f_equal. fold (od_del k' d). rewrite od_del_absent; [reflexivity|].
    now apply od_get_In.
  - intro G. f_equal. now apply IH.
Qed.

(** A [set] on a key that is present replaces its value, stamps it with the
    time of the call (its TTL starts again), makes it the most recently used
    entry, and touches nothing else: no entry is evicted, whatever the size
    of the cache. *)
Theorem set_on_present_key_replaces :
  forall (c : t value) (now : Q) (k : string) (v : option value)
         (e : entry value),
    wf c ->
    od_get k (cache c) = Some e ->
    exists c',
      set c now k v = Some c' /\
      cache c' = od_del k (cache c) ++ [(k, (v, now))] /\
      List.length (cache c') = List.length (cache c) /\
      forall k', k' <> k -> od_get k' (cache c') = od_get k' (cache c).
Proof.
  intros c now k v e W G. unfold set, od_mem. rewrite G.
  eexists. split; [reflexivity|]. simpl.
  assert (E : od_setitem k (v, now) (od_move_to_end k (cache c))
              = od_del k (cache c) ++ [(k, (v, now))]).
  { unfold od_move_to_end. rewrite G.
    generalize (od_get_del_same k (cache c)).
    generalize (od_del k (cache c)). intro d.
    induction d as [|[k' e'] d IH]; simpl.
    - now rewrite String.eqb_refl.
    - destruct (String.eqb k k'); [discriminate|]. intro H. now rewrite IH. }
  rewrite E. split; [reflexivity|]. split.
  - rewrite length_app. simpl. rewrite Nat.add_1_r.
    exact (@od_del_length_present k (cache c) e W G).
  - intros k' N. rewrite od_get_app, od_get_del_other by congruence.
    destruct (od_get k' (cache c)); [reflexivity|]. simpl.
    destruct (String.eqb_spec k' k); [congruence|reflexivity].
Qed.

End WithValue.

(** Capacity 2: three insertions leave two entries. *)
Lemma cache_never_exceeds_max_size_witness :
  let ops := [APICache.OpSet 0 "a" (@None unit); APICache.OpSet 1 "b" None;
              APICache.OpSet 2 "c" None] in
  let c := APICache.mk [("b"%string, (@None unit, 1%Q));
                        ("c"%string, (@None unit, 2%Q))] 2 3600 in
  APICache.run (APICache.init unit 2 3600, []) ops
    = Some (c, ["c"; "b"; "a"]%string) /\
  APICache.max_size c = 2%Z /\
  (Z.of_nat (List.length (APICache.cache c)) <= 2)%Z /\
  NoDup (APICache.keys c).
Proof.
  intros ops c.
  assert (R : APICache.run (APICache.init unit 2 3600, []) ops
              = Some (c, ["c"; "b"; "a"]%string)) by reflexivity.
  split; [exact R|].
  apply (@cache_never_exceeds_max_size unit 2 3600 ops c
           ["c"; "b"; "a"]%string); [lia|exact R].
Defined.

(** Overwriting ["a"] in a cache holding ["a"] then ["b"]. *)
Lemma set_on_present_key_replaces_witness :
  let c := APICache.mk [("a"%string, (Some 1%nat, 0%Q));
                        ("b"%string, (Some 2%nat, 1%Q))] 2 3600 in
  exists c',
    APICache.set c 5 "a" (Some 7%nat) = Some c' /\
    APICache.cache c' =
      APICache.od_del "a" (APICache.cache c) ++ [("a"%string, (Some 7%nat, 5%Q))] /\
    List.length (APICache.cache c') = List.length (APICache.cache c) /\
    forall k', k' <> "a"%string ->
      APICache.od_get k' (APICache.cache c') = APICache.od_get k' (APICache.cache c).
Proof.
  intro c.
  apply (@set_on_present_key_replaces nat c 5 "a"%string (Some 7%nat)
           (Some 1%nat, 0%Q)).
  - unfold APICache.wf. simpl.
    constructor; [intros [E|[]]; discriminate|].
    constructor; [intros []|constructor].
  - reflexivity.
Defined.

End APICacheLaws.

(** ** FetchClient: hits, misses and retries *)

Module FetchLaws.
Import Fetch FetchFacts.

Section WithValue.

Variables value params : Type.
Variable U : upstream value params.
Implicit Types (w : world value params) (k url : string).

(** The wait before the next attempt, for an outcome that is retried:
    half a second after a timeout or a connection error, [2 ** (attempt + 1)]
    seconds after HTTP 429. *)
Definition backoff (o : outcome value) (attempt : Z) : option Q :=
  match o with
  | TimedOut _ | Failed _ => Some (1 # 2)
  | Response status_code _ =>
      if (status_code =? 429)%Z then Some (inject_Z (2 ^ (attempt + 1)))
      else None
  end.

(** The outcome of the [i]-th call of the process, for this request *)
Definition outcome_at (url : string) (p : option params) (i : nat)
    : outcome value :=
  requests_get U i url p (timeout_for url).

Definition wait_at (url : string) (p : option params) (i : nat) (attempt : Z)
    : Q :=
  match backoff (outcome_at url p i) attempt with
  | Some d => d
  | None => 0
  end.

(** Whatever the loop does, it ends by storing what it returns. *)
Lemma attempt_loop_stores (n : nat) : forall attempt url p key retries w,
  APICache.od_get key
    (entries (snd (attempt_loop U n attempt url p key retries w)))
  = Some (fst (attempt_loop U n attempt url p key retries w),
          clock (snd (attempt_loop U n attempt url p key retries w))).
Proof.
  assert (Hset : forall key v w,
    APICache.od_get key (entries (snd (v, API_CACHE_set key v w)))
    = Some (fst (v, API_CACHE_set key v w),
            clock (snd (v, API_CACHE_set key v w)))).
  { intros key v w. cbn [fst snd]. rewrite API_CACHE_set_stores.
    now destruct (API_CACHE_set_frame key v w) as (-> & _). }
  induction n as [|n IH]; intros attempt url p key retries w.
  - apply Hset.
  - cbn [attempt_loop].
    destruct (requests_get U _ url p _) as [| |status content].
    + destruct (_ <? _)%Z; [apply IH|apply Hset].
    + destruct (_ <? _)%Z; [apply IH|apply Hset].
    + destruct (status =? 204)%Z; [apply Hset|].
      destruct (status =? 404)%Z; [apply Hset|].
      destruct ((status >=? 400)%Z && negb false).
      * destruct ((status =? 429)%Z && (attempt <? retries)%Z);
          [apply IH|apply Hset].
      * destruct content; try apply Hset.
        destruct (_ <? _)%Z; [apply IH|apply Hset].
Qed.

(** *** A hit *)

Lemma api_request_hit url p ck retries w (data : value) (ts : Q) :
  APICache.od_get (request_key U url p ck) (entries w) = Some (Some data, ts) ->
  (clock w - ts < 3600)%Q ->
  api_request_with_cache U url p ck retries w =
  (Some data,
   with_entries (note_request url p w)
     (APICache.od_move_to_end (request_key U url p ck) (entries w))).
Proof.
  intros G F. unfold api_request_with_cache, API_CACHE_get, APICache.get.
  cbn [API_CACHE APICache.cache APICache.ttl note_request entries clock].
  rewrite G. apply Qltb_lt in F. rewrite F. reflexivity.
Qed.

(** A request whose key holds a payload younger than 3600 s is answered from
    the cache: the payload is returned, no network call is made, nothing is
    waited for, and the entry keeps the timestamp of its insertion. *)
Theorem cached_payload_is_served_without_network :
  forall (url : string) (p : option params) (ck : option string)
         (retries : Z) (w : world value params) (data : value) (ts : Q),
    let key := request_key U url p ck in
    let r := api_request_with_cache U url p ck retries w in
    APICache.od_get key (entries w) = Some (Some data, ts) ->
    (clock w - ts < 3600)%Q ->
    fst r = Some data /\
    sent (snd r) = sent w /\
    slept (snd r) = slept w /\
    clock (snd r) = clock w /\
    APICache.od_get key (entries (snd r)) = Some (Some data, ts).
Proof.
  intros url p ck retries w data ts key r G F. subst r key.
  rewrite (api_request_hit url p ck retries w G F). cbn.
  repeat split. rewrite APICacheFacts.od_get_move_to_end. exact G.
Qed.

(** *** A miss *)

Lemma attempt_loop_calls (j : nat) : forall attempt url p key retries w,
  (0 <= attempt)%Z ->
  Z.of_nat j = (retries - attempt)%Z ->
  exists m waits,
    sent (snd (attempt_loop U (S j) attempt url p key retries w))
      = sent w ++ repeat (url, p, timeout_for url) m /\
    slept (snd (attempt_loop U (S j) attempt url p key retries w))
      = slept w ++ waits /\
    (1 <= m <= S j)%nat /\
    List.length waits = (m - 1)%nat /\
    Forall (fun d => (0 < d)%Q /\ (d <= inject_Z (2 ^ retries))%Q) waits.
Proof.
  induction j as [|j IH]; intros attempt url p key retries w A E.
  - (* the last attempt: nothing is retried *)
    assert (L : (attempt <? retries)%Z = false) by (apply Z.ltb_ge; lia).
    assert (Done : forall v,
      exists m waits,
        sent (snd (v, API_CACHE_set key v
                        (after_get U url p (timeout_for url) w)))
          = sent w ++ repeat (url, p, timeout_for url) m /\
        slept (snd (v, API_CACHE_set key v
                         (after_get U url p (timeout_for url) w)))
          = slept w ++ waits /\
        (1 <= m <= 1)%nat /\ List.length waits = (m - 1)%nat /\
        Forall (fun d => (0 < d)%Q /\ (d <= inject_Z (2 ^ retries))%Q) waits).
    { intro v. exists 1%nat, []. cbn [fst snd].
      destruct (API_CACHE_set_frame key v
                  (after_get U url p (timeout_for url) w)) as (_ & -> & -> & _).
      simpl. rewrite app_nil_r. repeat split; auto. }
    cbn [attempt_loop]. rewrite L.
    destruct (requests_get U _ url p _) as [| |status content];
      try apply Done.
    destruct (status =? 204)%Z; [apply Done|].
    destruct (status =? 404)%Z; [apply Done|].
    destruct ((status >=? 400)%Z && negb false).
    + rewrite andb_false_r. apply Done.
    + destruct content; apply Done.
  - assert (Done : forall v,
      exists m waits,
        sent (snd (v, API_CACHE_set key v
                        (after_get U url p (timeout_for url) w)))
          = sent w ++ repeat (url, p, timeout_for url) m /\
        slept (snd (v, API_CACHE_set key v
                         (after_get U url p (timeout_for url) w)))
          = slept w ++ waits /\
        (1 <= m <= S (S j))%nat /\ List.length waits = (m - 1)%nat /\
        Forall (fun d => (0 < d)%Q /\ (d <= inject_Z (2 ^ retries))%Q) waits).
    { intro v. exists 1%nat, []. cbn [fst snd].
      destruct (API_CACHE_set_frame key v
                  (after_get U url p (timeout_for url) w)) as (_ & -> & -> & _).
      simpl. rewrite app_nil_r. repeat split; auto. lia. }
    assert (More : forall d,
      (0 < d)%Q -> (d <= inject_Z (2 ^ retries))%Q ->
      exists m waits,
        sent (snd (attempt_loop U (S j) (attempt + 1) url p key retries
                     (sleep d (after_get U url p (timeout_for url) w))))
          = sent w ++ repeat (url, p, timeout_for url) m /\
        slept (snd (attempt_loop U (S j) (attempt + 1) url p key retries
                      (sleep d (after_get U url p (timeout_for url) w))))
          = slept w ++ waits /\
        (1 <= m <= S (S j))%nat /\ List.length waits = (m - 1)%nat /\
        Forall (fun d => (0 < d)%Q /\ (d <= inject_Z (2 ^ retries))%Q) waits).
    { intros d D0 D1.
      destruct (IH (attempt + 1)%Z url p key retries
                  (sleep d (after_get U url p (timeout_for url) w)))
        as (m & waits & Es & Ez & Bm & Lw & Fw); [lia|lia|].
      exists (S m), (d :: waits). rewrite Es, Ez. cbn [sleep after_get sent slept].
      rewrite <- !app_assoc. cbn [app repeat].
      split; [reflexivity|]. split; [reflexivity|]. split; [lia|].
      split; [simpl; lia|]. constructor; [split; assumption|exact Fw]. }
    assert (Half : (0 < 1 # 2)%Q /\ (1 # 2 <= inject_Z (2 ^ retries))%Q).
    { split; [reflexivity|].
      assert (0 < 2 ^ retries)%Z by (apply Z.pow_pos_nonneg; lia).
      unfold Qle. simpl. lia. }
    assert (Pow : (0 < inject_Z (2 ^ (attempt + 1)))%Q /\
                  (inject_Z (2 ^ (attempt + 1)) <= inject_Z (2 ^ retries))%Q).
    { split.
      - assert (0 < 2 ^ (attempt + 1))%Z by (apply Z.pow_pos_nonneg; lia).
        unfold Qlt. simpl. lia.
      - rewrite <- Zle_Qle. apply Z.pow_le_mono_r; lia. }
    cbn [attempt_loop].
    destruct (requests_get U _ url p _) as [| |status content].
    + destruct (_ <? _)%Z; [apply More; apply Half|apply Done].
    + destruct (_ <? _)%Z; [apply More; apply Half|apply Done].
    + destruct (status =? 204)%Z; [apply Done|].
      destruct (status =? 404)%Z; [apply Done|].
      destruct ((status >=? 400)%Z && negb false).
      * destruct ((status =? 429)%Z && (attempt <? retries)%Z);
          [apply More; apply Pow|apply Done].
      * destruct content; try apply Done.
        destruct (_ <? _)%Z; [apply More; apply Half|apply Done].
Qed.

(** A request that misses the cache always ends by storing what it returns
    under its key, stamped with the time at which it returns. It makes at
    most [retries + 1] network calls (at least one when [retries >= 0], none
    otherwise), all with the same url, parameters and timeout, and sleeps
    exactly once between two consecutive calls, never longer than
    [2 ** retries] seconds. *)
Theorem missed_request_is_recorded_and_bounded :
  forall (url : string) (p : option params) (ck : option string)
         (retries : Z) (w : world value params),
    let key := request_key U url p ck in
    let r := api_request_with_cache U url p ck retries w in
    fst (API_CACHE_get key (note_request url p w)) = None ->
    APICache.od_get key (entries (snd r)) = Some (fst r, clock (snd r)) /\
    exists (m : nat) (waits : list Q),
      sent (snd r) = sent w ++ repeat (url, p, timeout_for url) m /\
      slept (snd r) = slept w ++ waits /\
      (m <= Z.to_nat (retries + 1))%nat /\
      ((0 <= retries)%Z -> (1 <= m)%nat) /\
      List.length waits = (m - 1)%nat /\
      Forall (fun d => (0 < d)%Q /\ (d <= inject_Z (2 ^ retries))%Q) waits.
Proof.
  intros url p ck retries w key r G. subst r.
  unfold api_request_with_cache. fold key.
  destruct (API_CACHE_get_frame key (note_request url p w)) as (_ & Fs & Fz & _).
  destruct (API_CACHE_get key (note_request url p w)) as [cd w0].
  cbn [fst snd] in G, Fs, Fz. subst cd. cbn [note_request sent slept] in Fs, Fz.
  split; [apply attempt_loop_stores|].
  destruct (Z.to_nat (retries + 1)) as [|j] eqn:E.
  - exists 0%nat, []. cbn [attempt_loop snd].
    destruct (API_CACHE_set_frame key None w0) as (_ & -> & -> & _).
    rewrite Fs, Fz. simpl. rewrite !app_nil_r.
    repeat split; auto. lia.
  - destruct (@attempt_loop_calls j 0%Z url p key retries w0)
      as (m & waits & Es & Ez & Bm & Lw & Fw); [lia|lia|].
    exists m, waits. rewrite Es, Ez, Fs, Fz.
    repeat split; auto; lia.
Qed.

(** *** What is retried *)

(** A response whose status is not 429 ends the request at once, whatever
    retries are left (one call, no wait), unless its status is below 400 and
    [response.json()] raises on its body an exception that is not a decode
    error; a status of 400 or more gives [None], and a parsed body is
    returned. In the excepted case the last handler takes over: with no
    retry left the request ends with [None] after its one call; otherwise
    it waits half a second and calls again. *)
Theorem response_is_final_unless_429_or_unreadable :
  forall (url : string) (p : option params) (ck : option string)
         (retries : Z) (w : world value params)
         (status_code : Z) (content : body value),
    let key := request_key U url p ck in
    let r := api_request_with_cache U url p ck retries w in
    (0 <= retries)%Z ->
    status_code <> 429%Z ->
    fst (API_CACHE_get key (note_request url p w)) = None ->
    requests_get U (List.length (sent w)) url p (timeout_for url)
      = Response status_code content ->
    ((400 <= status_code)%Z \/ status_code = 204%Z \/ content <> Unreadable value ->
     sent (snd r) = sent w ++ [(url, p, timeout_for url)] /\
     slept (snd r) = slept w /\
     ((400 <= status_code)%Z -> fst r = None) /\
     ((status_code < 400)%Z -> status_code <> 204%Z ->
      forall data, content = Json data -> fst r = data)) /\
    ((status_code < 400)%Z -> status_code <> 204%Z ->
     content = Unreadable value ->
     (retries = 0%Z ->
      fst r = None /\
      sent (snd r) = sent w ++ [(url, p, timeout_for url)] /\
      slept (snd r) = slept w) /\
     ((1 <= retries)%Z ->
      exists (m : nat) (waits : list Q),
        (1 <= m)%nat /\
        sent (snd r) = sent w ++ repeat (url, p, timeout_for url) (S m) /\
        slept (snd r) = slept w ++ (1 # 2) :: waits)).
Proof.
  intros url p ck retries w status content key r R N G H. subst r.
  unfold api_request_with_cache. fold key.
  destruct (API_CACHE_get_frame key (note_request url p w)) as (_ & Fs & Fz & _).
  destruct (API_CACHE_get key (note_request url p w)) as [cd w0].
  cbn [fst snd] in G, Fs, Fz. subst cd. cbn [note_request sent slept] in Fs, Fz.
  destruct (Z.to_nat (retries + 1)) as [|j] eqn:E; [lia|].
  cbn [attempt_loop]. rewrite Fs, H.
  assert (Done : forall v,
    sent (snd (v, API_CACHE_set key v (after_get U url p (timeout_for url) w0)))
      = sent w ++ [(url, p, timeout_for url)] /\
    slept (snd (v, API_CACHE_set key v (after_get U url p (timeout_for url) w0)))
      = slept w).
  { intro v. cbn [fst snd].
    destruct (API_CACHE_set_frame key v
                (after_get U url p (timeout_for url) w0)) as (_ & -> & -> & _).
    simpl. now rewrite Fs, Fz. }
  destruct (Z.eqb_spec status 204) as [->|N204].
  { destruct (Done None) as [D1 D2]. split; [|lia].
    intros _. repeat split; auto. lia. }
  destruct (Z.eqb_spec status 404) as [->|N404].
  { destruct (Done None) as [D1 D2]. split; [|lia].
    intros _. repeat split; auto. lia. }
  destruct (Z.eqb_spec status 429) as [->|_]; [congruence|].
  rewrite Z.geb_leb. cbn [negb andb].
  destruct (Z.leb_spec 400 status) as [B|B]; cbn [andb].
  - destruct (Done None) as [D1 D2]. split; [|lia].
    intros _. repeat split; auto. lia.
  - destruct content as [| | |data'].
    + destruct (Done None) as [D1 D2]. split; [|discriminate].
      intros _. repeat split; auto; try lia. intros; discriminate.
    + destruct (Done None) as [D1 D2]. split; [|discriminate].
      intros _. repeat split; auto; try lia. intros; discriminate.
    + split; [intros [C|[C|C]]; [lia|lia|congruence]|].
      intros _ _ _. split.
      * intros ->. change (0 <? 0)%Z with false. cbv iota.
        destruct (Done None) as [D1 D2]. auto.
      * intro R1.
        assert (L : (0 <? retries)%Z = true) by (apply Z.ltb_lt; lia).
        rewrite L.
        destruct j as [|j]; [lia|].
        destruct (@attempt_loop_calls j (0 + 1)%Z url p key retries
                    (sleep (1 # 2) (after_get U url p (timeout_for url) w0)))
          as (m & waits & Es & Ez & Bm & _); [lia|lia|].
        exists m, waits. split; [lia|]. rewrite Es, Ez.
        cbn [sleep after_get sent slept]. rewrite Fs, Fz, <- !app_assoc.
        split; reflexivity.
    + destruct (Done data') as [D1 D2]. split; [|discriminate].
      intros _. repeat split; auto; try lia.
      intros _ _ data E'. now inversion E'.
Qed.

Lemma attempt_loop_exhausted (j : nat) : forall attempt url p key retries w,
  (0 <= attempt)%Z ->
  Z.of_nat j = (retries - attempt)%Z ->
  (forall i, (i <= j)%nat ->
     backoff (outcome_at url p (List.length (sent w) + i))
             (attempt + Z.of_nat i) <> None) ->
  fst (attempt_loop U (S j) attempt url p key retries w) = None /\
  sent (snd (attempt_loop U (S j) attempt url p key retries w))
    = sent w ++ repeat (url, p, timeout_for url) (S j) /\
  slept (snd (attempt_loop U (S j) attempt url p key retries w))
    = slept w ++
      map (fun i => wait_at url p (List.length (sent w) + i)
                      (attempt + Z.of_nat i)) (seq 0 j).
Proof.
  induction j as [|j IH]; intros attempt url p key retries w A E H.
  - assert (L : (attempt <? retries)%Z = false) by (apply Z.ltb_ge; lia).
    specialize (H 0%nat (Nat.le_refl 0)). rewrite Nat.add_0_r in H.
    unfold outcome_at, backoff in H.
    assert (Done :
      fst (@None value, API_CACHE_set key None
                          (after_get U url p (timeout_for url) w)) = None /\
      sent (snd (@None value, API_CACHE_set key None
                                (after_get U url p (timeout_for url) w)))
        = sent w ++ repeat (url, p, timeout_for url) 1 /\
      slept (snd (@None value, API_CACHE_set key None
                                 (after_get U url p (timeout_for url) w)))
        = slept w ++ map (fun i => wait_at url p (List.length (sent w) + i)
                                     (attempt + Z.of_nat i)) (seq 0 0)).
    { cbn [fst snd].
      destruct (API_CACHE_set_frame key None
                  (after_get U url p (timeout_for url) w)) as (_ & -> & -> & _).
      simpl. now rewrite app_nil_r. }
    cbn [attempt_loop]. rewrite L.
    destruct (requests_get U _ url p _) as [| |status content];
      try exact Done.
    destruct (Z.eqb_spec status 429) as [->|]; [|congruence].
    exact Done.
  - assert (L : (attempt <? retries)%Z = true) by (apply Z.ltb_lt; lia).
    pose proof (H 0%nat (Nat.le_0_l _)) as H0. rewrite Nat.add_0_r in H0.
    assert (More : forall d,
      wait_at url p (List.length (sent w)) attempt = d ->
      fst (attempt_loop U (S j) (attempt + 1) url p key retries
             (sleep d (after_get U url p (timeout_for url) w))) = None /\
      sent (snd (attempt_loop U (S j) (attempt + 1) url p key retries
                   (sleep d (after_get U url p (timeout_for url) w))))
        = sent w ++ repeat (url, p, timeout_for url) (S (S j)) /\
      slept (snd (attempt_loop U (S j) (attempt + 1) url p key retries
                    (sleep d (after_get U url p (timeout_for url) w))))
        = slept w ++ map (fun i => wait_at url p (List.length (sent w) + i)
                                     (attempt + Z.of_nat i)) (seq 0 (S j))).
    { intros d Ed.
      assert (Len : List.length (sent (sleep d (after_get U url p
                      (timeout_for url) w))) = S (List.length (sent w))).
      { cbn [sleep after_get sent]. rewrite length_app. simpl. lia. }
      destruct (IH (attempt + 1)%Z url p key retries
                  (sleep d (after_get U url p (timeout_for url) w)))
        as (E1 & E2 & E3); [lia|lia| |].
      { intros i Hi. rewrite Len.
        replace (S (List.length (sent w)) + i)%nat
          with (List.length (sent w) + S i)%nat by lia.
        replace (attempt + 1 + Z.of_nat i)%Z
          with (attempt + Z.of_nat (S i))%Z by lia.
        apply H. lia. }
      split; [exact E1|]. rewrite E2, E3, Len.
      cbn [sleep after_get sent slept]. rewrite <- !app_assoc.
      split; [reflexivity|]. f_equal. cbn [seq map app].
      rewrite Nat.add_0_r, Z.add_0_r. f_equal; [symmetry; exact Ed|].
      rewrite <- seq_shift, map_map. apply map_ext. intro i.
      f_equal; lia. }
    cbn [attempt_loop]. rewrite L.
    unfold wait_at, outcome_at, backoff in More, H0.
    unfold outcome_at, backoff in H0.
    destruct (requests_get U _ url p _) as [| |status content].
    + now apply More.
    + now apply More.
    + destruct (Z.eqb_spec status 429) as [->|]; [|congruence].
      cbn. now apply More.
Qed.

(** When every one of the [retries + 1] attempts is retryable (a timeout, a
    connection error or HTTP 429), the request gives up after exactly
    [retries + 1] calls: it returns [None], stores [None] under its key, and
    has waited half a second after each timeout or error and
    [2 ** (attempt + 1)] seconds after each 429. *)
Theorem retries_are_exhausted_with_backoff :
  forall (url : string) (p : option params) (ck : option string)
         (retries : Z) (w : world value params),
    let key := request_key U url p ck in
    let r := api_request_with_cache U url p ck retries w in
    let n := List.length (sent w) in
    (0 <= retries)%Z ->
    fst (API_CACHE_get key (note_request url p w)) = None ->
    (forall i, (i <= Z.to_nat retries)%nat ->
       backoff (outcome_at url p (n + i)) (Z.of_nat i) <> None) ->
    fst r = None /\
    sent (snd r)
      = sent w ++ repeat (url, p, timeout_for url) (S (Z.to_nat retries)) /\
    slept (snd r)
      = slept w ++
        map (fun i => wait_at url p (n + i) (Z.of_nat i))
            (seq 0 (Z.to_nat retries)) /\
    APICache.od_get key (entries (snd r)) = Some (None, clock (snd r)).
Proof.
  intros url p ck retries w key r n R G H.
  assert (St : APICache.od_get key (entries (snd r))
               = Some (fst r, clock (snd r))).
  { subst r. unfold api_request_with_cache. fold key.
    destruct (API_CACHE_get key (note_request url p w)) as [cd w0].
    cbn [fst] in G. subst cd. apply attempt_loop_stores. }
  assert (Main : fst r = None /\
    sent (snd r)
      = sent w ++ repeat (url, p, timeout_for url) (S (Z.to_nat retries)) /\
    slept (snd r)
      = slept w ++
        map (fun i => wait_at url p (n + i) (Z.of_nat i))
            (seq 0 (Z.to_nat retries))).
  { subst r. unfold api_request_with_cache. fold key.
    destruct (API_CACHE_get_frame key (note_request url p w))
      as (_ & Fs & Fz & _).
    destruct (API_CACHE_get key (note_request url p w)) as [cd w0].
    cbn [fst snd] in G, Fs, Fz. subst cd.
    cbn [note_request sent slept] in Fs, Fz.
    replace (Z.to_nat (retries + 1)) with (S (Z.to_nat retries)) by lia.
    destruct (@attempt_loop_exhausted (Z.to_nat retries) 0%Z url p key
                retries w0) as (E1 & E2 & E3); [lia|lia| |].
    { intros i Hi. rewrite Fs. apply H. exact Hi. }
    rewrite E1, E2, E3, Fs, Fz. repeat split. }
  destruct Main as (M1 & M2 & M3). rewrite M1 in St. auto.
Qed.

(** *** A fetched payload is reused *)

(** A payload fetched on a miss is served from the cache to the identical
    request issued less than 3600 s later: the same payload, and no further
    network call or wait. *)
Theorem fetched_payload_is_reused_within_ttl :
  forall (url : string) (p : option params) (ck : option string)
         (retries : Z) (w : world value params) (data : value) (idle : Q),
    let key := request_key U url p ck in
    let r1 := api_request_with_cache U url p ck retries w in
    let r2 := api_request_with_cache U url p ck retries (elapse idle (snd r1)) in
    (0 <= idle)%Q -> (idle < 3600)%Q ->
    fst (API_CACHE_get key (note_request url p w)) = None ->
    fst r1 = Some data ->
    fst r2 = Some data /\
    sent (snd r2) = sent (snd r1) /\
    slept (snd r2) = slept (snd r1) /\
    clock (snd r2) = (clock (snd r1) + idle)%Q.
Proof.
  intros url p ck retries w data idle key r1 r2 I0 I1 G D.
  assert (St : APICache.od_get key (entries (snd r1))
               = Some (fst r1, clock (snd r1))).
  { subst r1. unfold api_request_with_cache. fold key.
    destruct (API_CACHE_get key (note_request url p w)) as [cd w0].
    cbn [fst] in G. subst cd. apply attempt_loop_stores. }
  rewrite D in St.
  subst r2.
  rewrite (@api_request_hit url p ck retries (elapse idle (snd r1)) data
             (clock (snd r1)));
    [|exact St|cbn [elapse clock]; lra].
  cbn. repeat split.
Qed.

End WithValue.

(** *** Worked runs *)

(** An upstream whose first answer is a timeout and whose later answers are
    HTTP 429; one that always answers HTTP 500; one that always answers 200
    with the payload [5]. *)
Definition slow_then_busy : upstream nat unit :=
  {| requests_get := fun n _ _ _ =>
       match n with
       | O => TimedOut nat
       | S _ => Response 429 (Empty nat)
       end;
     latency := fun _ => 1 # 4;
     str_params := fun _ => "None"%string |}.

Definition always_500 : upstream nat unit :=
  {| requests_get := fun _ _ _ _ => Response 500 (Malformed nat);
     latency := fun _ => 1 # 4;
     str_params := fun _ => "None"%string |}.

Definition always_5 : upstream nat unit :=
  {| requests_get := fun _ _ _ _ => Response 200 (Json (Some 5%nat));
     latency := fun _ => 1 # 4;
     str_params := fun _ => "None"%string |}.

(** An upstream whose first answer is a 200 on whose body [response.json()]
    raises, and whose later answers are 200 with the payload [5]. *)
Definition unreadable_then_5 : upstream nat unit :=
  {| requests_get := fun n _ _ _ =>
       match n with
       | O => Response 200 (Unreadable nat)
       | S _ => Response 200 (Json (Some 5%nat))
       end;
     latency := fun _ => 1 # 4;
     str_params := fun _ => "None"%string |}.

(** A world whose cache holds the payload [7] for ["u"], stored at time 0,
    read at time 10. *)
Definition warm : world nat unit :=
  {| entries := [("uNone"%string, (Some 7%nat, 0%Q))]; clock := 10;
     sent := []; slept := []; requested := [] |}.

Lemma cached_payload_is_served_without_network_witness :
  let r := api_request_with_cache always_500 "u" None None 2 warm in
  fst r = Some 7%nat /\
  sent (snd r) = [] /\
  slept (snd r) = [] /\
  clock (snd r) = 10%Q /\
  APICache.od_get "uNone" (entries (snd r)) = Some (Some 7%nat, 0%Q).
Proof.
  apply (@cached_payload_is_served_without_network nat unit always_500
           "u"%string None None 2%Z warm 7%nat 0%Q); reflexivity.
Defined.

Lemma missed_request_is_recorded_and_bounded_witness :
  let r := api_request_with_cache slow_then_busy "u" None None 2
             (initial_world nat unit) in
  APICache.od_get "uNone" (entries (snd r)) = Some (fst r, clock (snd r)) /\
  exists (m : nat) (waits : list Q),
    sent (snd r) = [] ++ repeat ("u"%string, None, timeout_for "u") m /\
    slept (snd r) = [] ++ waits /\
    (m <= 3)%nat /\
    ((0 <= 2)%Z -> (1 <= m)%nat) /\
    List.length waits = (m - 1)%nat /\
    Forall (fun d => (0 < d)%Q /\ (d <= inject_Z (2 ^ 2))%Q) waits.
Proof.
  apply (@missed_request_is_recorded_and_bounded nat unit slow_then_busy
           "u"%string None None 2%Z (initial_world nat unit)).
  reflexivity.
Defined.

(** HTTP 500 is final; and a body that cannot be read is asked for again
    after half a second. *)
Lemma response_is_final_unless_429_or_unreadable_witness :
  let r := api_request_with_cache unreadable_then_5 "u" None None 2
             (initial_world nat unit) in
  ((400 <= 200)%Z \/ 200%Z = 204%Z \/ Unreadable nat <> Unreadable nat ->
   sent (snd r) = [] ++ [("u"%string, None, timeout_for "u")] /\
   slept (snd r) = [] /\
   ((400 <= 200)%Z -> fst r = None) /\
   ((200 < 400)%Z -> 200%Z <> 204%Z ->
    forall data, Unreadable nat = Json data -> fst r = data)) /\
  ((200 < 400)%Z -> 200%Z <> 204%Z -> Unreadable nat = Unreadable nat ->
   (2%Z = 0%Z ->
    fst r = None /\
    sent (snd r) = [] ++ [("u"%string, None, timeout_for "u")] /\
    slept (snd r) = []) /\
   ((1 <= 2)%Z ->
    exists (m : nat) (waits : list Q),
      (1 <= m)%nat /\
      sent (snd r) = [] ++ repeat ("u"%string, None, timeout_for "u") (S m) /\
      slept (snd r) = [] ++ (1 # 2) :: waits)).
Proof.
  apply (@response_is_final_unless_429_or_unreadable nat unit unreadable_then_5
           "u"%string None None 2%Z (initial_world nat unit) 200%Z
           (Unreadable nat)).
  - lia.
  - discriminate.
  - reflexivity.
  - reflexivity.
Defined.

(** Two retries: a timeout, then 429 twice. The waits are half a second and
    [2 ** 2] seconds, and the request gives up after the third call. *)
Lemma retries_are_exhausted_with_backoff_witness :
  let r := api_request_with_cache slow_then_busy "u" None None 2
             (initial_world nat unit) in
  fst r = None /\
  sent (snd r)
    = [] ++ repeat ("u"%string, None, timeout_for "u") (S (Z.to_nat 2)) /\
  slept (snd r)
    = [] ++ map (fun i => wait_at slow_then_busy "u" None (0 + i) (Z.of_nat i))
              (seq 0 (Z.to_nat 2)) /\
  APICache.od_get "uNone" (entries (snd r)) = Some (None, clock (snd r)).
Proof.
  apply (@retries_are_exhausted_with_backoff nat unit slow_then_busy
           "u"%string None None 2%Z (initial_world nat unit)).
  - lia.
  - reflexivity.
  - intros i _. destruct i; discriminate.
Defined.

Lemma fetched_payload_is_reused_within_ttl_witness :
  let r1 := api_request_with_cache always_5 "u" None None 2
              (initial_world nat unit) in
  let r2 := api_request_with_cache always_5 "u" None None 2
              (elapse 60 (snd r1)) in
  fst r2 = Some 5%nat /\
  sent (snd r2) = sent (snd r1) /\
  slept (snd r2) = slept (snd r1) /\
  clock (snd r2) = (clock (snd r1) + 60)%Q.
Proof.
  apply (@fetched_payload_is_reused_within_ttl nat unit always_5
           "u"%string None None 2%Z (initial_world nat unit) 5%nat 60%Q).
  - unfold Qle. simpl. lia.
  - reflexivity.
  - reflexivity.
  - reflexivity.
Defined.

(** The waits of the run that exhausts its retries. *)
Example backoff_waits_of_the_run :
  slept (snd (api_request_with_cache slow_then_busy "u" None None 2
                (initial_world nat unit)))
  = [1 # 2; inject_Z 4]%Q.
Proof. reflexivity. Qed.

(** The run of the unreadable body: two calls, half a second apart, and the
    payload of the second. *)
Example unreadable_body_is_asked_for_again :
  let r := api_request_with_cache unreadable_then_5 "u" None None 2
             (initial_world nat unit) in
  fst r = Some 5%nat /\
  List.length (sent (snd r)) = 2%nat /\
  slept (snd r) = [1 # 2]%Q.
Proof. repeat split. Qed.

End FetchLaws.

(** ** Python strings: [strip] *)

Module PyStrFacts.
Import Py.

Lemma lstrip_head (s : list ascii) :
  match lstrip s with
  | c :: _ => Re.space c = false
  | [] => True
  end.
Proof.
  induction s as [|c s IH]; simpl; [exact I|].
  destruct (Re.space c) eqn:E; [exact IH|exact E].
Qed.

Lemma lstrip_fixed (s : list ascii) :
  match s with c :: _ => Re.space c = false | [] => True end ->
  lstrip s = s.
Proof. destruct s as [|c s]; simpl; [reflexivity|]. now intros ->. Qed.

Lemma lstrip_suffix (s : list ascii) :
  exists pre, s = pre ++ lstrip s /\ Forall (fun c => Re.space c = true) pre.
Proof.
  induction s as [|c s (pre & E & F)]; simpl.
  - exists []. split; [reflexivity|constructor].
  - destruct (Re.space c) eqn:S.
    + exists (c :: pre). split; [simpl; now rewrite <- E|now constructor].
    + exists []. split; [reflexivity|constructor].
Qed.

(** The first and the last character of a stripped text are not blank. *)
Lemma strip_chars_ends (s : list ascii) :
  match strip_chars s with
  | c :: _ => Re.space c = false
  | [] => True
  end /\
  match rev (strip_chars s) with
  | c :: _ => Re.space c = false
  | [] => True
  end.
Proof.
  unfold strip_chars. rewrite rev_involutive.
  pose proof (lstrip_head (rev (lstrip s))) as Hb.
  split; [|exact Hb].
  destruct (lstrip_suffix (rev (lstrip s))) as (pre & E & F).
  destruct (lstrip (rev (lstrip s))) as [|b0 b] eqn:B; [exact I|].
  (* the last character of [b0 :: b] is the first one of [lstrip s] *)
  pose proof (lstrip_head s) as Ha.
  assert (R : lstrip s = rev (b0 :: b) ++ rev pre).
  { rewrite <- rev_app_distr, <- E. now rewrite rev_involutive. }
  destruct (rev (b0 :: b)) as [|x xs] eqn:X.
  - exfalso. apply (f_equal (@List.length ascii)) in X.
    rewrite length_rev in X. discriminate.
  - rewrite R in Ha. exact Ha.
Qed.

Lemma strip_chars_idempotent (s : list ascii) :
  strip_chars (strip_chars s) = strip_chars s.
Proof.
  destruct (strip_chars_ends s) as [H1 H2].
  unfold strip_chars at 1.
  rewrite (lstrip_fixed _ H1), (lstrip_fixed _ H2). apply rev_involutive.
Qed.

Lemma strip_idempotent (s : string) : strip (strip s) = strip s.
Proof.
  unfold strip. rewrite list_ascii_of_string_of_list_ascii.
  now rewrite strip_chars_idempotent.
Qed.

End PyStrFacts.

(** ** The shape of a scientific name *)

Module PatternFacts.
Import Re Heuristics.

(** A genus and an epithet: one capital letter followed by lower-case
    letters, white space, lower-case letters; [tail] is what [$] tolerates
    after the match, nothing or one final newline. *)
Definition binomial_shape (s : text) : Prop :=
  exists (g : ascii) (genus ws species tail : text),
    s = g :: genus ++ ws ++ species ++ tail /\
    upper_case g = true /\
    genus <> [] /\ Forall (fun c => lower_case c = true) genus /\
    ws <> [] /\ Forall (fun c => space c = true) ws /\
    species <> [] /\ Forall (fun c => lower_case c = true) species /\
    (tail = [] \/ tail = ["010"%char]).

Lemma space_not_lower (c : ascii) : space c = true -> lower_case c = false.
Proof.
  unfold space, lower_case, between. intro H.
  apply orb_prop in H. rewrite !andb_true_iff, !Nat.leb_le in H.
  apply andb_false_iff. rewrite !Nat.leb_gt. lia.
Qed.

Lemma lower_not_space (c : ascii) : lower_case c = true -> space c = false.
Proof.
  intro H. destruct (space c) eqn:E; [|reflexivity].
  apply space_not_lower in E. congruence.
Qed.

(** A greedy unbounded repetition takes the whole run when the
    continuation accepts what follows the run. *)
Lemma rep_greedy_takes_run (R : Type) (p : ascii -> bool)
    (k : text -> option R) (r : R) (s' : text) :
  match s' with c :: _ => p c = false | [] => True end ->
  k s' = Some r ->
  forall (w : text) (lo : nat),
    Forall (fun c => p c = true) w -> (lo <= List.length w)%nat ->
    rep p lo None true (w ++ s') k = Some r.
Proof.
  intros Stop K. induction w as [|c w IH]; intros lo F L.
  - simpl in L. assert (lo = 0%nat) as -> by lia. simpl.
    destruct s' as [|c s']; simpl; [exact K|]. rewrite Stop. exact K.
  - inversion F as [|? ? Pc Fw]; subst. simpl. rewrite Pc. simpl.
    rewrite IH; [reflexivity|exact Fw|simpl in L; lia].
Qed.

Lemma nonempty_length (A : Type) (l : list A) : l <> [] -> (1 <= List.length l)%nat.
Proof. destruct l; [congruence|simpl; lia]. Qed.

Lemma pattern_matches_iff (s : text) :
  match_ SCIENTIFIC_NAME_PATTERN s <> None <-> binomial_shape s.
Proof.
  unfold match_, SCIENTIFIC_NAME_PATTERN. cbn [expr ignorecase cat fold_right].
  split.
  - destruct (rmatch _ _ _ _ _) as [m|] eqn:H; [intros _|congruence].
    cbn [rmatch] in H.
    destruct s as [|g s1]; [discriminate|].
    destruct (upper_case g) eqn:G; [|discriminate].
    apply ReFacts.rep_sound in H.
    destruct H as (genus & s2 & -> & Fg & Lg & _ & H).
    apply ReFacts.rep_sound in H.
    destruct H as (ws & s3 & -> & Fw & Lw & _ & H).
    apply ReFacts.rep_sound in H.
    destruct H as (species & tail & -> & Fs & Ls & _ & H).
    exists g, genus, ws, species, tail.
    split; [reflexivity|]. split; [exact G|].
    split; [intros ->; simpl in Lg; lia|]. split; [exact Fg|].
    split; [intros ->; simpl in Lw; lia|]. split; [exact Fw|].
    split; [intros ->; simpl in Ls; lia|]. split; [exact Fs|].
    destruct tail as [|c [|c' tail]]; [now left| |discriminate].
    destruct (Nat.eqb_spec (code c) 10) as [E|]; [|discriminate].
    right. f_equal. unfold code in E.
    rewrite <- (ascii_nat_embedding c), E. reflexivity.
  - intros (g & genus & ws & species & tail & -> & G & Ng & Fg & Nw & Fw
            & Ns & Fs & T).
    cbn [rmatch]. rewrite G.
    assert (Hw : match ws ++ species ++ tail with
                 | c :: _ => lower_case c = false
                 | [] => True
                 end).
    { destruct ws as [|c ws]; [congruence|]. simpl.
      inversion Fw; subst. now apply space_not_lower. }
    assert (Hs : match species ++ tail with
                 | c :: _ => space c = false
                 | [] => True
                 end).
    { destruct species as [|c species]; [congruence|]. simpl.
      inversion Fs; subst. now apply lower_not_space. }
    assert (Ht : match tail with
                 | c :: _ => lower_case c = false
                 | [] => True
                 end).
    { destruct T as [->| ->]; [exact I|reflexivity]. }
    erewrite rep_greedy_takes_run;
      [discriminate|exact Hw| |exact Fg|now apply nonempty_length].
    erewrite rep_greedy_takes_run;
      [reflexivity|exact Hs| |exact Fw|now apply nonempty_length].
    erewrite rep_greedy_takes_run;
      [reflexivity|exact Ht| |exact Fs|now apply nonempty_length].
    destruct T as [->| ->]; reflexivity.
Qed.

(** [is_scientific_name] accepts exactly the queries that, once stripped,
    are a capital letter and lower-case letters, white space, and lower-case
    letters; so does [SCIENTIFIC_NAME_PATTERN.match] on the texts it is
    applied to without stripping, up to one final newline. *)
Theorem is_scientific_name_iff_binomial :
  forall query : string,
    (is_scientific_name query = true <->
     exists (g : ascii) (genus ws species : text),
       list_ascii_of_string (Py.strip query) = g :: genus ++ ws ++ species /\
       upper_case g = true /\
       genus <> [] /\ Forall (fun c => lower_case c = true) genus /\
       ws <> [] /\ Forall (fun c => space c = true) ws /\
       species <> [] /\ Forall (fun c => lower_case c = true) species) /\
    (Pipeline.looks_scientific query = true <->
     binomial_shape (list_ascii_of_string query)).
Proof.
  intro query. split.
  - unfold is_scientific_name.
    pose proof (pattern_matches_iff (list_ascii_of_string (Py.strip query))) as P.
    split.
    + intro H.
      destruct (match_ SCIENTIFIC_NAME_PATTERN _) as [m|]; [|discriminate].
      destruct P as [P _].
      destruct (P ltac:(discriminate))
        as (g & genus & ws & species & tail & E & G & Ng & Fg & Nw & Fw & Ns
            & Fs & T).
      exists g, genus, ws, species.
      destruct T as [->| ->]; [rewrite app_nil_r in E; auto 10|].
      (* a stripped text does not end in a newline *)
      exfalso.
      destruct (PyStrFacts.strip_chars_ends (list_ascii_of_string query))
        as [_ L].
      unfold Py.strip in E. rewrite list_ascii_of_string_of_list_ascii in E.
      rewrite E in L.
      replace (g :: genus ++ ws ++ species ++ ["010"%char])
        with ((g :: genus ++ ws ++ species) ++ ["010"%char]) in L
        by (simpl; now rewrite <- !app_assoc).
      rewrite rev_app_distr in L. simpl in L. discriminate.
    + intros (g & genus & ws & species & E & G & Ng & Fg & Nw & Fw & Ns & Fs).
      destruct P as [_ P].
      destruct (match_ SCIENTIFIC_NAME_PATTERN _) as [m|]; [reflexivity|].
      exfalso. apply P; [|reflexivity].
      exists g, genus, ws, species, []. rewrite app_nil_r. auto 10.
  - unfold Pipeline.looks_scientific.
    pose proof (pattern_matches_iff (list_ascii_of_string query)) as P.
    destruct (match_ SCIENTIFIC_NAME_PATTERN _) as [m|].
    + split; [intros _; apply P; discriminate|reflexivity].
    + split; [discriminate|]. intro B. exfalso. now apply P.
Qed.

End PatternFacts.

(** ** The extraction routines *)

Module ExtractionFacts.
Import Data Heuristics Pipeline.

Local Open Scope string_scope.

(** *** Ocean basins *)

Ltac q_cases :=
  repeat match goal with
         | |- context [Qltb ?a ?b] =>
             let E := fresh "E" in
             destruct (Qltb a b) eqn:E;
             [apply Qltb_lt in E|apply Qltb_ge in E]
         | |- context [Qle_bool ?a ?b] =>
             let E := fresh "E" in
             destruct (Qle_bool a b) eqn:E;
             [apply Qle_bool_iff in E
             |assert (~ (a <= b)%Q)
                by (intro; assert (Qle_bool a b = true)
                      by (now apply Qle_bool_iff); congruence);
              clear E]
         end.


Definition basin_labels : list string :=
  ["North Atlantic"; "South Atlantic"; "Tropical Atlantic"; "North Pacific";
   "South Pacific"; "Indian Ocean"].

Lemma basin_of_label lat lon b : basin_of lat lon = Some b -> In b basin_labels.
Proof.
  unfold basin_of, basin_labels.
  q_cases; simpl; intro B; inversion B; subst; simpl; try tauto;
    exfalso; lra.
Qed.

Lemma set_add_NoDup b s : NoDup s -> NoDup (set_add b s).
Proof.
  intro N. unfold set_add. destruct (existsb (String.eqb b) s) eqn:E; [exact N|].
  apply NoDup_app; [exact N|repeat constructor; auto|].
  intros x Hx [<-|[]].
  assert (existsb (String.eqb b) s = true); [|congruence].
  apply existsb_exists. exists b. split; [exact Hx|apply String.eqb_refl].
Qed.

Lemma set_add_In b s x : In x (set_add b s) <-> x = b \/ In x s.
Proof.
  unfold set_add. destruct (existsb (String.eqb b) s) eqn:E.
  - apply existsb_exists in E. destruct E as (y & Hy & E).
    apply String.eqb_eq in E. subst y. split; [tauto|].
    intros [->|H]; assumption.
  - rewrite in_app_iff. simpl. split; intros [H|H]; auto.
    destruct H as [<-|[]]. now left.
Qed.

(** An occurrence that adds a basin *)
Definition binned (o : occurrence) : option string :=
  match decimalLatitude o, decimalLongitude o with
  | Some lat, Some lon => basin_of lat lon
  | _, _ => None
  end.

Lemma collect_basins_spec (l : list occurrence) : forall basins,
  NoDup basins ->
  NoDup (collect_basins l basins) /\
  forall b, In b (collect_basins l basins) <->
            In b basins \/ exists o, In o l /\ binned o = Some b.
Proof.
  induction l as [|o l IH]; intros basins N; simpl.
  - split; [exact N|]. intro b. split; [tauto|].
    intros [H|(o & [] & _)]. exact H.
  - assert (Skip : binned o = None ->
      NoDup (collect_basins l basins) /\
      forall b, In b (collect_basins l basins) <->
                In b basins \/ exists o', (o = o' \/ In o' l) /\ binned o' = Some b).
    { intro B. destruct (IH basins N) as [N' I']. split; [exact N'|].
      intro b. rewrite I'. split; intros [H|(o' & H1 & H2)]; auto.
      - right. exists o'. auto.
      - destruct H1 as [<-|H1]; [congruence|]. right. exists o'. auto. }
    unfold binned in Skip |- *.
    destruct (decimalLatitude o) as [lat|] eqn:La; [|now apply Skip].
    destruct (decimalLongitude o) as [lon|] eqn:Lo; [|now apply Skip].
    destruct (basin_of lat lon) as [b0|] eqn:B; [|now apply Skip].
    destruct (IH (set_add b0 basins) (set_add_NoDup b0 N)) as [N' I'].
    split; [exact N'|]. intro b. rewrite I', set_add_In.
    split.
    + intros [[->|H]|(o' & H1 & H2)]; auto.
      * right. exists o. split; [now left|]. unfold binned. now rewrite La, Lo.
      * right. exists o'. auto.
    + intros [H|(o' & [<-|H1] & H2)]; auto.
      * unfold binned in H2. rewrite La, Lo, B in H2. inversion H2. auto.
      * right. exists o'. auto.
Qed.

Lemma firstn_NoDup (A : Type) (n : nat) (l : list A) :
  NoDup l -> NoDup (firstn n l).
Proof.
  intro N. rewrite <- (firstn_skipn n l) in N.
  now apply NoDup_app_remove_r in N.
Qed.

Lemma firstn_In (A : Type) (n : nat) (l : list A) (x : A) :
  In x (firstn n l) -> In x l.
Proof.
  intro H. rewrite <- (firstn_skipn n l). apply in_or_app. now left.
Qed.

(** [extract_ocean_basins_fast] always answers with one to three labels,
    without repetition; each is the basin of one of the first 20 occurrences,
    unless none of these falls in a basin, in which case the answer is the
    placeholder "Multiple ocean basins". *)
Theorem ocean_basins_are_few_and_distinct :
  forall obis : option obis_data,
    let basins := extract_ocean_basins_fast obis in
    let seen := firstn 20 (obis_results obis) in
    (1 <= List.length basins <= 3)%nat /\
    NoDup basins /\
    ((forall o, In o seen -> binned o = None) ->
     basins = ["Multiple ocean basins"]) /\
    ((exists o, In o seen /\ binned o <> None) ->
     forall b, In b basins ->
       In b basin_labels /\ exists o, In o seen /\ binned o = Some b).
Proof.
  intros obis basins seen. subst basins. unfold extract_ocean_basins_fast.
  fold seen.
  destruct (@collect_basins_spec seen [] (NoDup_nil _)) as [N I].
  destruct (collect_basins seen []) as [|b0 bs] eqn:C.
  - split; [simpl; lia|]. split; [repeat constructor; simpl; tauto|].
    split; [reflexivity|].
    intros (o & Ho & B). exfalso.
    destruct (binned o) as [b|] eqn:E; [|congruence].
    apply (proj2 (I b)). right. exists o. auto.
  - split.
    { rewrite length_firstn. cbn [List.length]. lia. }
    split; [now apply firstn_NoDup|].
    split.
    + intro H. exfalso.
      destruct (proj1 (I b0) (or_introl eq_refl)) as [[]|(o & Ho & B)].
      rewrite (H o Ho) in B. discriminate.
    + intros _ b Hb. apply firstn_In in Hb.
      destruct (proj1 (I b) Hb) as [[]|(o & Ho & B)].
      split; [|exists o; auto].
      unfold binned in B.
      destruct (decimalLatitude o), (decimalLongitude o); try discriminate.
      eapply basin_of_label; eassumption.
Qed.

(** *** Distribution *)

Lemma add_localities_spec (l : list (option string)) : forall s,
  NoDup s -> Forall (fun x => Py.nonempty x = true) s ->
  NoDup (add_localities l s) /\
  Forall (fun x => Py.nonempty x = true) (add_localities l s) /\
  (s <> [] -> add_localities l s <> []).
Proof.
  induction l as [|[x|] l IH]; intros s N F; simpl.
  - auto.
  - destruct (Py.nonempty x) eqn:E; [|now apply IH].
    destruct (IH (set_add x s)) as (N' & F' & E').
    + now apply set_add_NoDup.
    + apply Forall_forall. intros y Hy. apply set_add_In in Hy.
      destruct Hy as [->|Hy]; [exact E|].
      rewrite Forall_forall in F. now apply F.
    + split; [exact N'|]. split; [exact F'|]. intros _. apply E'.
      unfold set_add. destruct (existsb (String.eqb x) s) eqn:X;
        [|now destruct s].
      intro Z. subst s. discriminate X.
  - now apply IH.
Qed.

Lemma first_part_nonempty (seps : list string) (t part : string) :
  first_part seps t = Some part -> Py.nonempty part = true.
Proof.
  induction seps as [|sep seps IH]; simpl; [discriminate|].
  destruct (Fetch.contains sep t); [|exact IH].
  destruct (Py.nonempty (Py.strip (PyStr.before_first sep t))) eqn:E; [|exact IH].
  intro H. inversion H; subst. exact E.
Qed.

(** [extract_distribution_fast] always answers with one to four places,
    without repetition and none of them empty. *)
Theorem distribution_is_short_and_distinct :
  forall (distribution_data : option payload) (obis : option obis_data)
         (worms_record : aphia_record),
    let places :=
      extract_distribution_fast distribution_data obis worms_record in
    (1 <= List.length places <= 4)%nat /\
    NoDup places /\
    Forall (fun x => Py.nonempty x = true) places.
Proof.
  intros dd obis r places. subst places. unfold extract_distribution_fast.
  set (s1 := match dd with
             | Some (JDistributions l) => add_localities (firstn 5 l) []
             | _ => []
             end).
  assert (H1 : NoDup s1 /\ Forall (fun x => Py.nonempty x = true) s1).
  { subst s1. destruct dd as [[]|]; try (split; constructor).
    destruct (@add_localities_spec (firstn 5 l) [] (NoDup_nil _) (Forall_nil _))
      as (A & B & _). auto. }
  destruct H1 as [N1 F1].
  destruct (@add_localities_spec
              (map occurrence_place (firstn 5 (obis_results obis))) s1 N1 F1)
    as (N2 & F2 & _).
  set (s2 := add_localities _ s1) in *.
  set (s3 := match s2, Data.distribution r with
             | [], Some dist_text => _
             | _, _ => s2
             end).
  assert (H3 : NoDup s3 /\ Forall (fun x => Py.nonempty x = true) s3).
  { subst s3. destruct s2 as [|x s2]; [|auto].
    destruct (Data.distribution r) as [t|]; [|auto].
    destruct (Py.nonempty t); [|auto].
    destruct (first_part [";"; ","; "|"] t) as [part|] eqn:P.
    - apply first_part_nonempty in P.
      split; repeat constructor; simpl; auto.
    - destruct (Py.nonempty (Py.strip t)) eqn:E; [|auto].
      split; repeat constructor; simpl; auto. }
  destruct H3 as [N3 F3]. clearbody s3.
  destruct s3 as [|x s3].
  - split; [simpl; lia|]. split; repeat constructor; simpl; auto.
  - split.
    { rewrite length_firstn. cbn [List.length]. lia. }
    split; [now apply firstn_NoDup|].
    apply Forall_forall. intros y Hy. apply firstn_In in Hy.
    rewrite Forall_forall in F3. now apply F3.
Qed.

(** *** Taxonomy *)

(** [d.get(key)] on the taxonomy dict *)
Fixpoint lookup (key : string) (d : list (string * string)) : option string :=
  match d with
  | [] => None
  | (k, v) :: d' => if String.eqb k key then Some v else lookup key d'
  end.

(** The name of the first node, from the root down, that has the given rank
    (in lower case) and a name. *)
Fixpoint first_name_of_rank (rank : string) (node : classification)
    : option string :=
  match node with
  | NoNode => None
  | Node r name child =>
      if match r with
         | Some r => String.eqb (Py.lower r) rank
         | None => false
         end && Py.nonempty name
      then Some name
      else first_name_of_rank rank child
  end.

Lemma lookup_app key d1 d2 :
  lookup key (d1 ++ d2) =
  match lookup key d1 with Some v => Some v | None => lookup key d2 end.
Proof.
  induction d1 as [|[k v] d1 IH]; simpl; [reflexivity|].
  destruct (String.eqb k key); auto.
Qed.

Lemma lookup_None key d :
  lookup key d = None <->
  existsb (fun kv => String.eqb (fst kv) key) d = false.
Proof.
  induction d as [|[k v] d IH]; simpl; [tauto|].
  destruct (String.eqb k key); simpl; [split; discriminate|exact IH].
Qed.

Lemma taxonomy_of_spec (node : classification) : forall taxonomy,
  NoDup (map fst taxonomy) ->
  Forall (fun kv => Py.nonempty (fst kv) = true) taxonomy ->
  match taxonomy_of node taxonomy with
  | Py.Returned found =>
      PipelineFacts.has_null_rank node = false /\
      NoDup (map fst found) /\
      Forall (fun kv => Py.nonempty (fst kv) = true) found /\
      forall rank,
        Py.nonempty rank = true ->
        lookup rank found =
        match lookup rank taxonomy with
        | Some v => Some v
        | None => first_name_of_rank rank node
        end
  | Py.Raised => PipelineFacts.has_null_rank node = true
  end.
Proof.
  induction node as [|[r|] name child IH]; intros taxonomy N F;
    cbn [taxonomy_of first_name_of_rank PipelineFacts.has_null_rank];
    [| |reflexivity].
  - split; [reflexivity|]. split; [exact N|]. split; [exact F|]. intros rank _.
    now destruct (lookup rank taxonomy).
  - set (rk := Py.lower r).
    assert (Same : Py.nonempty rk && Py.nonempty name
                   && negb (existsb (fun kv => String.eqb (fst kv) rk) taxonomy)
                   = false ->
      forall rank, Py.nonempty rank = true ->
        match lookup rank taxonomy with
        | Some v => Some v
        | None => first_name_of_rank rank child
        end =
        match lookup rank taxonomy with
        | Some v => Some v
        | None => if String.eqb rk rank && Py.nonempty name then Some name
                  else first_name_of_rank rank child
        end).
    { intros C rank Hr. destruct (lookup rank taxonomy) eqn:Lk; [reflexivity|].
      destruct (String.eqb_spec rk rank) as [E|]; [|reflexivity].
      destruct (Py.nonempty name); [|reflexivity]. exfalso.
      rewrite E, Hr in C. apply lookup_None in Lk. rewrite Lk in C.
      discriminate. }
    destruct (Py.nonempty rk && Py.nonempty name
              && negb (existsb (fun kv => String.eqb (fst kv) rk) taxonomy))
      eqn:C.
    + apply andb_prop in C. destruct C as [C Ex].
      apply andb_prop in C. destruct C as [Er En].
      apply negb_true_iff in Ex.
      assert (N2 : NoDup (map fst (taxonomy ++ [(rk, name)]))).
      { rewrite map_app. simpl.
        apply NoDup_app; [exact N|repeat constructor; auto|].
        intros x Hx [<-|[]].
        assert (existsb (fun kv => String.eqb (fst kv) rk) taxonomy = true);
          [|congruence].
        apply in_map_iff in Hx. destruct Hx as ([k v] & E & Hx).
        apply existsb_exists. exists (k, v). split; [exact Hx|].
        simpl in *. subst k. apply String.eqb_refl. }
      assert (F2 : Forall (fun kv => Py.nonempty (fst kv) = true)
                          (taxonomy ++ [(rk, name)])).
      { apply Forall_app. split; [exact F|]. repeat constructor. exact Er. }
      specialize (IH _ N2 F2).
      destruct (taxonomy_of child (taxonomy ++ [(rk, name)])) as [|found];
        [exact IH|].
      destruct IH as (H0 & N' & F' & L'). split; [exact H0|].
      split; [exact N'|].
      split; [exact F'|]. intros rank Hr. rewrite (L' rank Hr), lookup_app.
      destruct (lookup rank taxonomy); [reflexivity|]. simpl. rewrite En.
      destruct (String.eqb rk rank); reflexivity.
    + specialize (IH taxonomy N F).
      destruct (taxonomy_of child taxonomy) as [|found]; [exact IH|].
      destruct IH as (H0 & N' & F' & L'). split; [exact H0|].
      split; [exact N'|].
      split; [exact F'|]. intros rank Hr. rewrite (L' rank Hr).
      now apply Same.
Qed.

(** Reading the taxonomy from a classification raises exactly when one of
    its nodes has a [null] rank. Otherwise a rank (in lower case) maps to
    the name of the first node of that rank, from the root down, that has a
    name; deeper nodes of the same rank are ignored, and so are nodes
    without a rank. No rank is listed twice. *)
Theorem taxonomy_keeps_first_name_of_each_rank :
  forall (c : classification) (rank : string),
    match extract_taxonomy_fast (Some (JClassification c)) with
    | Py.Returned taxonomy =>
        PipelineFacts.has_null_rank c = false /\
        NoDup (map fst taxonomy) /\
        lookup rank taxonomy =
        if Py.nonempty rank then first_name_of_rank rank c else None
    | Py.Raised => PipelineFacts.has_null_rank c = true
    end.
Proof.
  intros c rank. unfold extract_taxonomy_fast.
  pose proof (@taxonomy_of_spec c [] (NoDup_nil _) (Forall_nil _)) as H.
  destruct (taxonomy_of c []) as [|taxonomy]; [exact H|].
  destruct H as (H0 & N & F & L).
  split; [exact H0|]. split; [exact N|].
  destruct (Py.nonempty rank) eqn:E; [now rewrite L|].
  apply lookup_None. destruct (existsb _ _) eqn:X; [|reflexivity].
  apply existsb_exists in X. destruct X as ([k v] & Hx & Ek).
  rewrite Forall_forall in F. specialize (F _ Hx). simpl in *.
  apply String.eqb_eq in Ek. subst k. congruence.
Qed.

(** *** Occurrence statistics *)

Lemma int_min_spec (xs : list Z) : forall x,
  In (Py.int_min x xs) (x :: xs) /\
  Forall (fun y => (Py.int_min x xs <= y)%Z) (x :: xs).
Proof.
  unfold Py.int_min. induction xs as [|y xs IH]; intro x; simpl.
  - split; [now left|]. repeat constructor. lia.
  - destruct (Z.ltb_spec y x) as [L|L].
    + destruct (IH y) as [I F]. split.
      * destruct I as [<-|I]; [right; now left|right; now right].
      * inversion F as [|? ? Fy Fxs]; subst.
        constructor; [lia|]. constructor; assumption.
    + destruct (IH x) as [I F]. split.
      * destruct I as [<-|I]; [now left|right; now right].
      * inversion F as [|? ? Fx Fxs]; subst.
        constructor; [exact Fx|]. constructor; [lia|exact Fxs].
Qed.

Lemma int_max_spec (xs : list Z) : forall x,
  In (Py.int_max x xs) (x :: xs) /\
  Forall (fun y => (y <= Py.int_max x xs)%Z) (x :: xs).
Proof.
  unfold Py.int_max. induction xs as [|y xs IH]; intro x; simpl.
  - split; [now left|]. repeat constructor. lia.
  - destruct (Z.ltb_spec x y) as [L|L].
    + destruct (IH y) as [I F]. split.
      * destruct I as [<-|I]; [right; now left|right; now right].
      * inversion F as [|? ? Fy Fxs]; subst.
        constructor; [lia|]. constructor; assumption.
    + destruct (IH x) as [I F]. split.
      * destruct I as [<-|I]; [now left|right; now right].
      * inversion F as [|? ? Fx Fxs]; subst.
        constructor; [exact Fx|]. constructor; [lia|exact Fxs].
Qed.

(** The statistics look at the first 10 occurrences only. The year range,
    when there is one, is "lo-hi" for the smallest and the largest of their
    usable years; there is none exactly when no occurrence has a usable
    year. The two flags say whether one of them has a depth, and whether one
    has both coordinates. *)
Theorem occurrence_stats_summarise_first_ten :
  forall obis : option obis_data,
    let stats := extract_occurrence_stats_fast obis in
    let seen := firstn 10 (obis_results obis) in
    let years := years_of seen in
    (match Species.year_range stats with
     | Some range =>
         exists lo hi : Z,
           range = PyStr.str_of_int lo ++ "-" ++ PyStr.str_of_int hi /\
           In lo years /\ In hi years /\
           Forall (fun y => (lo <= y <= hi)%Z) years
     | None => years = []
     end) /\
    (Species.has_depth_data stats = true <->
     exists o, In o seen /\ depth o <> None) /\
    (Species.has_coordinates stats = true <->
     exists o, In o seen /\ decimalLatitude o <> None
               /\ decimalLongitude o <> None).
Proof.
  intros obis stats seen years. subst stats years seen.
  unfold extract_occurrence_stats_fast, obis_results.
  destruct obis as [[occ name]|]; cbn -[firstn].
  2:{ split; [reflexivity|].
      split; (split; [discriminate|intros (o & [] & _)]). }
  destruct occ as [| | | |occ| | |]; cbn -[firstn];
    try (split; [reflexivity|];
         split; (split; [discriminate|intros (o & [] & _)])).
  split; [|split].
  - destruct (years_of (firstn 10 (results occ))) as [|y ys];
      cbv beta iota; [reflexivity|].
    exists (Py.int_min y ys), (Py.int_max y ys).
    destruct (int_min_spec ys y) as [I1 F1].
    destruct (int_max_spec ys y) as [I2 F2].
    split; [reflexivity|]. split; [exact I1|]. split; [exact I2|].
    rewrite Forall_forall in *. intros z Hz.
    specialize (F1 z Hz). specialize (F2 z Hz). lia.
  - rewrite existsb_exists. split; intros (o & Ho & D); exists o;
      (split; [exact Ho|]); destruct (depth o); congruence.
  - rewrite existsb_exists. split; intros (o & Ho & D); exists o;
      (split; [exact Ho|]).
    + destruct (decimalLatitude o), (decimalLongitude o);
        try discriminate; split; congruence.
    + destruct D as [D1 D2].
      destruct (decimalLatitude o), (decimalLongitude o); congruence.
Qed.

(** *** Common name *)

Definition english (v : vernacular_entry) : bool :=
  match vernacular v, language v with
  | Some name, Some lang =>
      Py.nonempty (Py.strip name) && String.eqb (Py.lower lang) "english"
  | _, _ => false
  end.

Lemma scan_vernaculars_english (l : list vernacular_entry) :
  forall cn scanned,
    scan_vernaculars l cn = Py.Returned scanned ->
    existsb english l = true ->
    exists v name, In v l /\ english v = true /\ vernacular v = Some name /\
                   scanned = inl (Py.strip name).
Proof.
  induction l as [|v l IH]; intros cn scanned; simpl; [discriminate|].
  unfold english at 1.
  destruct (vernacular v) as [name|] eqn:V; [|discriminate].
  destruct (Py.nonempty (Py.strip name)) eqn:N; cbn [andb orb].
  - destruct (language v) as [lang|] eqn:L; [|discriminate].
    destruct (String.eqb (Py.lower lang) "english") eqn:E; cbn [andb orb].
    + intros H _. inversion H; subst scanned. exists v, name.
      split; [now left|]. split; [|split; [exact V|reflexivity]].
      unfold english. now rewrite V, L, N, E.
    + intros S H. destruct (Py.nonempty cn).
      * destruct (IH _ _ S H) as (v' & n' & I & R). exists v', n'.
        split; [now right|exact R].
      * destruct (IH _ _ S H) as (v' & n' & I & R). exists v', n'.
        split; [now right|exact R].
  - assert (X : match language v with
                | Some _ => false
                | None => false
                end = false) by now destruct (language v).
    rewrite X. cbn [orb]. intros S H.
    destruct (IH _ _ S H) as (v' & n' & I & R). exists v', n'.
    split; [now right|exact R].
Qed.

(** Reading the common name raises exactly when a [null] is met among the
    first two vernaculars. Otherwise the common name of a record with an
    English vernacular among its first two is that vernacular, stripped,
    whatever Wikipedia or the search term say; and a common name is only
    missing when the record has no scientific name to fall back on. *)
Theorem common_name_prefers_english_vernacular :
  forall (record_data : aphia_record) (wiki : option wiki_data)
         (search_term scientific_name : option string),
    match
      extract_common_name_fast record_data wiki search_term scientific_name
    with
    | Py.Returned common_name =>
        PipelineFacts.null_vernacular (firstn 2 (vernaculars record_data))
          = false /\
        (existsb english (firstn 2 (vernaculars record_data)) = true ->
         exists v name,
           In v (firstn 2 (vernaculars record_data)) /\
           english v = true /\ vernacular v = Some name /\
           common_name = Some (Py.strip name)) /\
        (common_name = None -> scientific_name = None)
    | Py.Raised =>
        PipelineFacts.null_vernacular (firstn 2 (vernaculars record_data))
          = true
    end.
Proof.
  intros r wiki st sci. unfold extract_common_name_fast.
  pose proof (PipelineFacts.scan_vernaculars_raises
                (firstn 2 (vernaculars r)) "") as R.
  pose proof (@scan_vernaculars_english (firstn 2 (vernaculars r)) "") as S.
  destruct (scan_vernaculars (firstn 2 (vernaculars r)) "") as [|scanned];
    cbn [Py.and_then].
  - now apply R.
  - split; [|split].
    + destruct (PipelineFacts.null_vernacular _); [|reflexivity].
      destruct R as [_ R]. discriminate (R eq_refl).
    + intro H. destruct (S scanned eq_refl H) as (v & name & I & E & V & ->).
      exists v, name. auto.
    + destruct scanned as [name|cn]; [discriminate|].
      destruct (Py.nonempty cn); [discriminate|].
      destruct (Py.truthy (valid_vernacular r)) eqn:T.
      * destruct (valid_vernacular r); simpl; [discriminate|]. discriminate.
      * destruct wiki as [wd|].
        -- destruct (_ && _); [discriminate|].
           destruct st as [st|]; [|auto].
           destruct (_ && _); [discriminate|auto].
        -- destruct st as [st|]; [|auto].
           destruct (_ && _); [discriminate|auto].
Qed.

(** *** Habitat *)

Definition habitat_type_labels : list string :=
  ["Benthic"; "Pelagic"; "Demersal"; "Coral Reef"; "Intertidal"; "Subtidal";
   "Epipelagic"; "Mesopelagic"; "Deep Sea"].

Lemma depth_zone_habitat_labels (r : aphia_record) (obis : option obis_data) :
  environment r <> None ->
  exists zone,
    depth_zone_habitat obis r = Py.Returned zone /\
    Forall (fun t => In t habitat_type_labels) zone.
Proof.
  intro E. unfold depth_zone_habitat.
  destruct obis as [o|]; [|eexists; split; [reflexivity|constructor]].
  destruct (truth _); [|eexists; split; [reflexivity|constructor]].
  destruct (@PipelineFacts.depth_returns r (Some o) E) as [depth ->].
  cbn [Py.and_then]. eexists. split; [reflexivity|].
  destruct depth as [info|]; [|constructor].
  destruct (avg_depth info) as [avg|]; [|constructor].
  unfold habitat_type_labels.
  destruct (Py.number_ltb avg _);
    [|destruct (Py.number_ltb avg _)]; repeat constructor; simpl; tauto.
Qed.

(** The habitat cannot be read from a record whose environment is [null].
    From any other record the habitat label always starts with "Marine",
    whatever the record's environment flags are: "Marine/Brackish" when the
    record is both marine and brackish, "Marine" in every other case (also
    for a record that is not marine). It is followed by at most three
    habitat types in parentheses. *)
Theorem habitat_label_is_always_marine :
  forall (record_data : aphia_record) (obis : option obis_data),
    match environment record_data with
    | Some _ =>
        exists (types : list string),
          extract_habitat_info_fast record_data obis =
            Py.Returned
              ((if isMarine record_data && isBrackish record_data
                then "Marine/Brackish" else "Marine")
               ++ match types with
                  | [] => ""
                  | _ => " (" ++ PyStr.join ", " types ++ ")"
                  end) /\
          (List.length types <= 3)%nat /\
          Forall (fun t => In t habitat_type_labels) types
    | None => extract_habitat_info_fast record_data obis = Py.Raised
    end.
Proof.
  intros r obis. unfold extract_habitat_info_fast.
  destruct (environment r) as [text|] eqn:E; [|reflexivity].
  destruct (@depth_zone_habitat_labels r obis) as (zone & -> & Fz);
    [congruence|].
  cbn [Py.and_then].
  set (types := (map snd (filter _ habitat_keywords) ++ zone)%list).
  assert (F : Forall (fun t => In t habitat_type_labels) types).
  { subst types. apply Forall_app. split; [|exact Fz].
    apply Forall_forall. intros t Ht. apply in_map_iff in Ht.
    destruct Ht as ([k v] & <- & Hk). apply filter_In in Hk.
    destruct Hk as [Hk _]. unfold habitat_keywords in Hk. simpl in Hk.
    unfold habitat_type_labels.
    repeat (destruct Hk as [Hk|Hk]; [inversion Hk; subst; simpl; tauto|]).
    destruct Hk. }
  clearbody types.
  exists (firstn 3 types). split; [|split].
  - destruct types as [|t types].
    + simpl. destruct (isMarine r), (isBrackish r); simpl; reflexivity.
    + cbn [firstn].
      destruct (isMarine r), (isBrackish r); simpl; reflexivity.
  - rewrite length_firstn. lia.
  - apply Forall_forall. intros t Ht. apply firstn_In in Ht.
    rewrite Forall_forall in F. now apply F.
Qed.

End ExtractionFacts.

(** ** What the pipeline returns *)

Module PipelineLaws.
Import Data Heuristics Pipeline.

Local Open Scope string_scope.

(** [returns P m]: whatever the world, the value [m] returns satisfies [P]. *)
Definition returns {A : Type} (P : A -> Prop) (m : M A) : Prop :=
  forall w, P (fst (m w)).

Lemma returns_ret (A : Type) (P : A -> Prop) (a : A) : P a -> returns P (ret a).
Proof. intros H w. exact H. Qed.

Lemma returns_bind (A B : Type) (Q : A -> Prop) (P : B -> Prop)
    (m : M A) (k : A -> M B) :
  returns Q m -> (forall a, Q a -> returns P (k a)) -> returns P (bind m k).
Proof.
  intros Hm Hk w. unfold bind. specialize (Hm w).
  destruct (m w) as [a w']. now apply Hk.
Qed.

Lemma returns_any (A : Type) (m : M A) : returns (fun _ => True) m.
Proof. intros w. exact I. Qed.

Lemma returns_impl (A : Type) (P Q : A -> Prop) (m : M A) :
  (forall a, P a -> Q a) -> returns P m -> returns Q m.
Proof. intros H Hm w. apply H, Hm. Qed.

(** *** Image addresses *)

Definition https (u : string) : bool := PyStr.startswith "https://" u.

Lemma ensure_https_is_https (u : string) :
  is_http u = true -> https (ensure_https u) = true.
Proof.
  unfold is_http, ensure_https, https, PyStr.startswith.
  destruct (String.prefix "http://" u) eqn:P; simpl.
  - intros _. unfold PyStr.replace.
    destruct u as [|c u]; [discriminate|].
    cbn [PyStr.replace_from]. rewrite P. simpl.
    now destruct (PyStr.replace_from _ _ _ u).
  - intro H. exact H.
Qed.

Definition image_urls_ok (l : list string) : Prop :=
  NoDup l /\ Forall (fun u => https u = true) l.

Lemma pick_url_ok (fields : list (option string)) : forall image_urls,
  image_urls_ok image_urls -> image_urls_ok (pick_url fields image_urls).
Proof.
  induction fields as [|[u|] fields IH]; intros l [N F]; simpl.
  - now split.
  - destruct (Py.nonempty u && is_http u) eqn:E; [|now apply IH].
    apply andb_prop in E. destruct E as [_ E].
    destruct (existsb (String.eqb (ensure_https u)) l) eqn:X; [now apply IH|].
    split.
    + apply NoDup_app; [exact N|repeat constructor; auto|].
      intros x Hx [<-|[]].
      assert (existsb (String.eqb (ensure_https u)) l = true); [|congruence].
      apply existsb_exists. exists (ensure_https u).
      split; [exact Hx|apply String.eqb_refl].
    + apply Forall_app. split; [exact F|].
      repeat constructor. now apply ensure_https_is_https.
  - now apply IH.
Qed.

Lemma collect_image_urls_ok (l : list image_entry) :
  image_urls_ok (collect_image_urls l).
Proof.
  unfold collect_image_urls.
  assert (G : forall acc, image_urls_ok acc ->
    image_urls_ok
      (fold_left (fun image_urls e =>
                    pick_url [url e; thumbnail_url e; image_url e] image_urls)
                 l acc)).
  { induction l as [|e l IH]; intros acc H; cbn [fold_left]; [exact H|].
    apply IH. now apply pick_url_ok. }
  apply G. split; constructor.
Qed.

Lemma collect_image_urls_length (l : list image_entry) :
  (List.length (collect_image_urls l) <= List.length l)%nat.
Proof.
  unfold collect_image_urls.
  assert (P : forall fields acc,
    (List.length (pick_url fields acc) <= S (List.length acc))%nat).
  { induction fields as [|[u|] fields IH]; intro acc; simpl; [lia| |apply IH].
    destruct (_ && _); [|apply IH].
    destruct (existsb _ _); [apply IH|]. rewrite length_app. simpl. lia. }
  assert (G : forall acc,
    (List.length
       (fold_left (fun image_urls e =>
                     pick_url [url e; thumbnail_url e; image_url e] image_urls)
                  l acc) <= List.length acc + List.length l)%nat).
  { induction l as [|e l IH]; intro acc; cbn [fold_left List.length]; [lia|].
    specialize (IH (pick_url [url e; thumbnail_url e; image_url e] acc)).
    specialize (P [url e; thumbnail_url e; image_url e] acc). lia. }
  apply (G []).
Qed.

Section WithRuntime.

Variable RT : runtime.

(** [get_worms_images_fast] returns at most three addresses, all different,
    and every one of them starts with "https://": an address given with
    "http://" is rewritten, and anything else is left out. *)
Theorem worms_images_are_https :
  forall (aphia_id : Z) (w : world),
    let images := fst (get_worms_images_fast RT aphia_id w) in
    (List.length images <= 3)%nat /\
    NoDup images /\
    Forall (fun u => https u = true) images.
Proof.
  intros aphia_id w images. subst images.
  unfold get_worms_images_fast, bind.
  destruct (api RT _ None _ w) as [data w1].
  set (image_urls := match data with
                     | Some (JImages l) => collect_image_urls (firstn 3 l)
                     | _ => []
                     end).
  assert (H : image_urls_ok image_urls /\ (List.length image_urls <= 3)%nat).
  { subst image_urls. destruct data as [[]|];
      try (split; [split; constructor|simpl; lia]).
    split; [apply collect_image_urls_ok|].
    pose proof (collect_image_urls_length (firstn 3 l)) as L.
    rewrite length_firstn in L. lia. }
  destruct H as [[N F] L]. clearbody image_urls.
  destruct image_urls as [|u us].
  - destruct (api RT _ None _ w1) as [record_data w2]. cbn [ret fst].
    destruct record_data as [[r| | | | | | |]|];
      try (split; [simpl; lia|split; constructor]).
    destruct (picture_url r) as [u|];
      [|split; [simpl; lia|split; constructor]].
    destruct (Py.nonempty u && is_http u) eqn:E;
      [|split; [simpl; lia|split; constructor]].
    apply andb_prop in E. destruct E as [_ E].
    split; [simpl; lia|]. split.
    + repeat constructor. simpl. tauto.
    + repeat constructor. now apply ensure_https_is_https.
  - cbn [ret fst]. split; [rewrite length_firstn; lia|].
    split.
    + rewrite <- (firstn_skipn 3 (u :: us)) in N.
      now apply NoDup_app_remove_r in N.
    + apply Forall_forall. intros x Hx.
      rewrite Forall_forall in F. apply F.
      rewrite <- (firstn_skipn 3 (u :: us)). apply in_or_app. now left.
Qed.

(** *** Wikipedia *)

Lemma first_usable_page_spec (pages : list (string * wiki_page)) (wd : wiki_data) :
  first_usable_page pages = Some wd ->
  exists pid page,
    In (pid, page) pages /\ pid <> "-1" /\
    description wd = Py.strip (extract page) /\
    (30 < String.length (description wd))%nat /\
    title wd = page_title page /\
    is_common_name wd = negb (looks_scientific (page_title page)).
Proof.
  induction pages as [|[pid page] pages IH]; simpl; [discriminate|].
  destruct (String.eqb_spec pid "-1") as [->|Np].
  - intro H. destruct (IH H) as (pid' & page' & I & R). exists pid', page'.
    split; [now right|exact R].
  - destruct (Py.nonempty (extract page)
              && (30 <? String.length (Py.strip (extract page)))%nat) eqn:E.
    + intro H. inversion H; subst; clear H.
      cbn [description title is_common_name].
      apply andb_prop in E. destruct E as [_ E]. apply Nat.ltb_lt in E.
      exists pid, page. split; [now left|]. split; [exact Np|].
      split; [reflexivity|]. split; [exact E|]. split; [reflexivity|].
      unfold looks_scientific. now destruct (Re.match_ _ _).
    + intro H. destruct (IH H) as (pid' & page' & I & R). exists pid', page'.
      split; [now right|exact R].
Qed.

Lemma nonempty_of_length (s : string) :
  (0 < String.length s)%nat -> Py.nonempty s = true.
Proof. destruct s; simpl; [lia|reflexivity]. Qed.

(** What [get_wikipedia_data_fast] returns, when it returns a page, is the
    extract of a page other than the "-1" placeholder, stripped, and longer
    than 30 characters; [create_description_fast] then uses it as it is. *)
Theorem wikipedia_extract_is_long_and_stripped :
  forall (search_term : string) (w : world),
    match fst (get_wikipedia_data_fast RT search_term w) with
    | Some wd =>
        (30 < String.length (description wd))%nat /\
        Py.strip (description wd) = description wd /\
        is_common_name wd = negb (looks_scientific (title wd)) /\
        forall common_name scientific_name habitat_info distribution depth,
          create_description_fast common_name scientific_name habitat_info
            distribution depth (Some wd) = description wd
    | None => True
    end.
Proof.
  intros search_term w. unfold get_wikipedia_data_fast, bind.
  destruct (api RT _ _ _ w) as [data w1]. cbn [ret fst].
  destruct data as [[| | | | |pages| |]|]; try exact I.
  destruct (first_usable_page pages) as [wd|] eqn:F; [|exact I].
  destruct (first_usable_page_spec _ F)
    as (pid & page & _ & _ & D & L & T & C).
  assert (S : Py.strip (description wd) = description wd).
  { rewrite D. apply PyStrFacts.strip_idempotent. }
  split; [exact L|]. split; [exact S|]. split; [now rewrite T|].
  intros cn sn h d dep. unfold create_description_fast, described_by_wikipedia.
  rewrite S, nonempty_of_length by lia.
  apply Nat.ltb_lt in L. now rewrite L.
Qed.

(** *** The assembled record *)

Lemma complete_species_assembled (aphia_id : Z) (search_term : option string)
    (w : world) (sp : Species.t) :
  fst (get_complete_species_data_parallel RT aphia_id search_term w) = Some sp ->
  aphia_id <> 0%Z /\
  exists r classification distribution obis wiki image,
    usable_name r = true /\
    assemble aphia_id search_term r classification distribution obis
      wiki image = Py.Returned sp.
Proof.
  unfold get_complete_species_data_parallel.
  destruct (Z.eqb_spec aphia_id 0) as [->|N]; [discriminate|].
  unfold bind at 1.
  destruct (api RT (record_url aphia_id) None None w)
    as [[[r| | | | | | |]|] w1]; try discriminate.
  destruct (usable_name r) eqn:U; [|discriminate].
  unfold bind, ret.
  repeat match goal with
         | |- context [let (_, _) := ?m in _] => destruct m
         end.
  cbn [fst].
  match goal with |- caught ?a = _ -> _ => destruct a eqn:A end;
    [discriminate|].
  intro H. inversion H; subst; clear H.
  split; [exact N|]. eauto 10.
Qed.

(** A record that has been built, by its parts *)
Lemma assemble_returned aphia_id search_term r classification distribution
    obis wiki image (sp : Species.t) :
  assemble aphia_id search_term r classification distribution obis wiki image
    = Py.Returned sp ->
  exists habitat depth common_name,
    Species.aphia_id sp = aphia_id /\
    Species.title sp =
      (if Py.truthy (valid_name r) then fmt (valid_name r)
       else match scientificname r with Some s => s | None => "Unknown" end) /\
    Species.extract sp =
      create_description_fast common_name (scientificname r) habitat
        (extract_distribution_fast distribution obis r) depth wiki /\
    Species.source sp = "worms_obis" /\
    Species.thumb_url sp = fst (determine_image_source_fast image wiki) /\
    Species.image_source sp = snd (determine_image_source_fast image wiki).
Proof.
  unfold assemble.
  destruct (extract_habitat_info_fast r obis) as [|habitat]; [discriminate|].
  cbn [Py.and_then].
  destruct (extract_depth_from_obis_fast obis r) as [|depth]; [discriminate|].
  cbn [Py.and_then].
  destruct (extract_taxonomy_fast classification) as [|taxonomy];
    [discriminate|].
  cbn [Py.and_then].
  destruct (extract_common_name_fast r wiki search_term (scientificname r))
    as [|common_name]; [discriminate|].
  cbn [Py.and_then]. intro H. inversion H; subst sp; clear H.
  exists habitat, depth, common_name. repeat split.
Qed.

Lemma nonempty_app_l (a b : string) :
  Py.nonempty a = true -> Py.nonempty (a ++ b) = true.
Proof. destruct a; [discriminate|reflexivity]. Qed.

Lemma create_description_nonempty common_name scientific_name habitat_info
    distribution depth wiki :
  Py.nonempty (create_description_fast common_name scientific_name
                 habitat_info distribution depth wiki) = true.
Proof.
  unfold create_description_fast, described_by_wikipedia.
  destruct wiki as [wd|].
  - destruct (Py.nonempty (description wd)) eqn:E; simpl; [|].
    + destruct (30 <? _)%nat; [exact E|].
      unfold PyStr.join. simpl.
      destruct (Py.truthy common_name && _); reflexivity.
    + unfold PyStr.join. simpl.
      destruct (Py.truthy common_name && _); reflexivity.
  - unfold PyStr.join. simpl.
    destruct (Py.truthy common_name && _); reflexivity.
Qed.

(** Every record the aggregator returns carries the id it was asked for,
    which is not 0, a title and a description that are not empty, the source
    tag "worms_obis", and an image address exactly when it names an image
    source. *)
Theorem assembled_record_is_well_formed :
  forall (aphia_id : Z) (search_term : option string) (w : world),
    match fst (get_complete_species_data_parallel RT aphia_id search_term w) with
    | Some sp =>
        aphia_id <> 0%Z /\
        Species.aphia_id sp = aphia_id /\
        Py.nonempty (Species.title sp) = true /\
        Py.nonempty (Species.extract sp) = true /\
        Species.source sp = "worms_obis" /\
        (Species.thumb_url sp = None <-> Species.image_source sp = None)
    | None => True
    end.
Proof.
  intros aphia_id search_term w.
  destruct (fst (get_complete_species_data_parallel RT aphia_id search_term w))
    as [sp|] eqn:E; [|exact I].
  destruct (complete_species_assembled _ _ _ E)
    as (N & r & c & d & o & wk & img & U & A).
  destruct (assemble_returned _ _ _ _ _ _ _ _ A)
    as (h & dp & cn & -> & -> & -> & -> & -> & ->).
  split; [exact N|]. split; [reflexivity|].
  split; [|split; [apply create_description_nonempty|split; [reflexivity|]]].
  - unfold usable_name in U.
    destruct (Py.truthy (valid_name r)) eqn:V.
    + destruct (valid_name r); [exact V|discriminate].
    + rewrite orb_false_r in U. destruct (scientificname r); [exact U|discriminate].
  - unfold determine_image_source_fast.
    destruct (Py.truthy img) eqn:T.
    + destruct img; [|discriminate]. cbn. split; discriminate.
    + destruct wk as [wd|]; [|cbn; tauto].
      destruct (Py.truthy (thumb_url wd)) eqn:T2; [|cbn; tauto].
      destruct (thumb_url wd); [|discriminate]. cbn. split; discriminate.
Qed.

(** *** The resolver's results *)

(** At most eight records, with distinct ids, none of them 0. *)
Definition results_ok (results : list Species.t) : Prop :=
  (List.length results <= 8)%nat /\
  NoDup (map Species.aphia_id results) /\
  Forall (fun sp => Species.aphia_id sp <> 0%Z) results.

Definition ids_ok (results : list Species.t) : Prop :=
  NoDup (map Species.aphia_id results) /\
  Forall (fun sp => Species.aphia_id sp <> 0%Z) results.

Definition has_the_id (aphia_id : Z) (o : option Species.t) : Prop :=
  forall sp, o = Some sp -> Species.aphia_id sp = aphia_id /\ aphia_id <> 0%Z.

Lemma returns_get_complete_species_data aphia_id search_term :
  returns (has_the_id aphia_id)
          (get_complete_species_data RT aphia_id search_term).
Proof.
  intros w sp E. unfold get_complete_species_data in E.
  destruct (complete_species_assembled _ _ _ E)
    as (N & r & c & d & o & wk & img & U & A).
  destruct (assemble_returned _ _ _ _ _ _ _ _ A) as (h & dp & cn & I & _).
  split; [exact I|exact N].
Qed.

Lemma results_ok_nil : results_ok [].
Proof. split; [simpl; lia|]. split; constructor. Qed.

Lemma results_ok_one (sp : Species.t) :
  Species.aphia_id sp <> 0%Z -> results_ok [sp].
Proof.
  intro N. split; [simpl; lia|]. split; repeat constructor; simpl; tauto.
Qed.

Lemma ids_ok_firstn (n : nat) (l : list Species.t) :
  ids_ok l -> ids_ok (firstn n l).
Proof.
  intros [N F]. split.
  - rewrite <- (firstn_skipn n l), map_app in N.
    now apply NoDup_app_remove_r in N.
  - apply Forall_forall. intros x Hx. rewrite Forall_forall in F. apply F.
    rewrite <- (firstn_skipn n l). apply in_or_app. now left.
Qed.

Lemma results_ok_firstn (n : nat) (l : list Species.t) :
  results_ok l -> results_ok (firstn n l).
Proof.
  intros (L & N & F). destruct (@ids_ok_firstn n l (conj N F)) as [N' F'].
  split; [rewrite length_firstn; lia|]. now split.
Qed.

Lemma ids_ok_snoc (l : list Species.t) (sp : Species.t) :
  ids_ok l -> Species.aphia_id sp <> 0%Z ->
  ~ In (Species.aphia_id sp) (map Species.aphia_id l) ->
  ids_ok (l ++ [sp]).
Proof.
  intros [N F] Z I. split.
  - rewrite map_app. simpl. apply NoDup_app; [exact N|repeat constructor; auto|].
    intros x Hx [<-|[]]. exact (I Hx).
  - apply Forall_app. split; [exact F|]. repeat constructor. exact Z.
Qed.

Lemma has_id_false (aphia_id : Z) (results : list Species.t) :
  has_id aphia_id results = false ->
  ~ In aphia_id (map Species.aphia_id results).
Proof.
  unfold has_id. intros H I. apply in_map_iff in I.
  destruct I as (sp & E & I).
  assert (existsb (fun r => (Species.aphia_id r =? aphia_id)%Z) results = true);
    [|congruence].
  apply existsb_exists. exists sp. split; [exact I|]. now apply Z.eqb_eq.
Qed.

Lemma returns_exact_loop q ql items :
  returns (fun o => forall sp, o = Some sp -> Species.aphia_id sp <> 0%Z)
          (exact_loop RT q ql items).
Proof.
  induction items as [|item items IH]; simpl.
  - apply returns_ret. discriminate.
  - destruct (item_id item) as [id|]; [|exact IH].
    destruct (_ && _); [|exact IH].
    eapply returns_bind; [apply returns_get_complete_species_data|].
    intros [sp|] H; [|exact IH].
    apply returns_ret. intros sp' E. inversion E; subst.
    destruct (H sp' eq_refl) as [-> N]. exact N.
Qed.

Lemma returns_fuzzy_loop q ql items : forall results,
  ids_ok results -> returns ids_ok (fuzzy_loop RT q ql items results).
Proof.
  induction items as [|item items IH]; intros results R; simpl.
  - now apply returns_ret.
  - destruct (item_id item) as [id|]; [|now apply IH].
    destruct (_ && _); [|now apply IH].
    eapply returns_bind; [apply returns_get_complete_species_data|].
    intros [sp|] H; [|now apply IH].
    destruct (has_id id results) eqn:X; [now apply IH|].
    apply IH. destruct (H sp eq_refl) as [E N].
    apply ids_ok_snoc; [exact R|congruence|].
    rewrite E. now apply has_id_false.
Qed.

Lemma returns_search_worms_species_robust q :
  returns results_ok (search_worms_species_robust RT q).
Proof.
  unfold search_worms_species_robust.
  eapply returns_bind; [apply returns_any|]. intros data _.
  eapply returns_bind; [apply returns_exact_loop|]. intros [sp|] H.
  - apply returns_ret. apply results_ok_one. now apply H.
  - eapply returns_bind; [apply returns_any|]. intros data' _.
    eapply returns_bind; [apply returns_fuzzy_loop; split; constructor|].
    intros results [N F]. apply returns_ret.
    destruct (@ids_ok_firstn 8 results (conj N F)) as [N' F'].
    split; [rewrite length_firstn; lia|]. now split.
Qed.

Lemma returns_try_names names : returns results_ok (try_names RT names).
Proof.
  induction names as [|n names IH]; simpl.
  - apply returns_ret, results_ok_nil.
  - eapply returns_bind; [apply returns_search_worms_species_robust|].
    intros [|sp results] H; [exact IH|now apply returns_ret].
Qed.

Lemma returns_wikipedia_mediated_search_fast q :
  returns results_ok (wikipedia_mediated_search_fast RT q).
Proof.
  unfold wikipedia_mediated_search_fast.
  eapply returns_bind; [apply returns_any|]. intros [wd|] _.
  - destruct (Py.nonempty _); [apply returns_try_names|].
    apply returns_ret, results_ok_nil.
  - apply returns_ret, results_ok_nil.
Qed.

Lemma returns_vernacular_loop q items : forall results seen,
  ids_ok results -> (List.length results <= 4)%nat ->
  (forall sp, In sp results -> In (Species.aphia_id sp) seen) ->
  returns (fun l => ids_ok l /\ (List.length l <= 5)%nat)
          (vernacular_loop RT q items results seen).
Proof.
  induction items as [|item items IH]; intros results seen R L S;
    cbn [vernacular_loop].
  - apply returns_ret. split; [exact R|lia].
  - destruct (item_id item) as [id|]; [|now apply IH].
    destruct (existsb (Z.eqb id) seen) eqn:X; [now apply IH|].
    eapply returns_bind; [apply returns_any|].
    intros [[r| | | | | | |]|] _; try now apply IH.
    destruct (_ && _); [|now apply IH].
    eapply returns_bind; [apply returns_get_complete_species_data|].
    intros [sp|] H; [|now apply IH].
    destruct (H sp eq_refl) as [E N].
    assert (R' : ids_ok (results ++ [sp])).
    { apply ids_ok_snoc; [exact R|congruence|].
      rewrite E. intro I. apply in_map_iff in I. destruct I as (sp' & E' & I).
      apply S in I. rewrite E' in I.
      assert (existsb (Z.eqb id) seen = true); [|congruence].
      apply existsb_exists. exists id. split; [exact I|apply Z.eqb_refl]. }
    destruct (Nat.leb_spec 5 (List.length (results ++ [sp]))) as [B|B];
      cbv beta iota.
    + apply returns_ret. split; [exact R'|].
      rewrite length_app. simpl. lia.
    + apply IH; [exact R'|lia|].
      intros sp' I. apply in_app_or in I. destruct I as [I|[<-|[]]].
      * right. now apply S.
      * left. now rewrite E.
Qed.

Lemma returns_search_by_common_name_fast q :
  returns results_ok (search_by_common_name_fast RT q).
Proof.
  unfold search_by_common_name_fast.
  eapply returns_bind; [apply returns_any|]. intros data _.
  eapply returns_bind.
  - apply returns_vernacular_loop with (results := []) (seen := []).
    + split; constructor.
    + simpl. lia.
    + intros sp [].
  - intros [|sp results] [[N F] L].
    + apply returns_wikipedia_mediated_search_fast.
    + apply returns_ret. split; [lia|]. now split.
Qed.

Lemma returns_fuzzy_search_common_name_fast q :
  returns results_ok (fuzzy_search_common_name_fast RT q).
Proof.
  unfold fuzzy_search_common_name_fast.
  eapply returns_bind; [apply returns_any|]. intros [wd|] _.
  - eapply returns_bind; [apply returns_try_names|].
    intros [|sp results] H.
    + apply returns_search_worms_species_robust.
    + now apply returns_ret.
  - apply returns_ret, results_ok_nil.
Qed.

(** Whatever the query and whatever the upstreams answer, the resolver
    returns at most eight records (so that its final cut to ten never
    removes anything), no two of them with the same taxon id, and none with
    the id 0. *)
Theorem resolver_results_are_distinct :
  forall (query : string) (w : world),
    let results := fst (search_worms_species_fast RT query w) in
    (List.length results <= 8)%nat /\
    NoDup (map Species.aphia_id results) /\
    Forall (fun sp => Species.aphia_id sp <> 0%Z) results /\
    firstn 10 results = results.
Proof.
  intros query w results.
  assert (R : results_ok results).
  { subst results. revert w. change (returns results_ok
                                       (search_worms_species_fast RT query)).
    unfold search_worms_species_fast.
    destruct (_ <? _)%nat; [apply returns_ret, results_ok_nil|].
    destruct (Py.isdigit _).
    - destruct (Py.int_of_digits _ _) as [id|];
        [|apply returns_ret, results_ok_nil].
      eapply returns_bind; [apply returns_get_complete_species_data|].
      intros [sp|] H; apply returns_ret; [|apply results_ok_nil].
      apply results_ok_one. destruct (H sp eq_refl) as [-> N]. exact N.
    - destruct (is_scientific_name _);
        [apply returns_search_worms_species_robust|].
      eapply returns_bind; [apply returns_search_worms_species_robust|].
      intros r1 H1. eapply returns_bind with (Q := results_ok).
      + destruct r1; [apply returns_search_by_common_name_fast|].
        now apply returns_ret.
      + intros r2 H2. eapply returns_bind with (Q := results_ok).
        * destruct r2; [apply returns_fuzzy_search_common_name_fast|].
          now apply returns_ret.
        * intros r3 H3. apply returns_ret. now apply results_ok_firstn. }
  destruct R as (L & N & F). repeat split; try assumption.
  apply firstn_all2. lia.
Qed.

End WithRuntime.

End PipelineLaws.

(** ** The main window: searching and browsing *)

Module GuiFacts.
Import Pipeline Gui.

Local Open Scope string_scope.

Section WithRuntime.

Variable RT : runtime.
Variable local : Type.

Lemma browse_with_offset_is_empty (offset limit : nat) (w : world) :
  (0 < offset)%nat ->
  fst (browse_marine_animals_fast RT offset limit w) = [].
Proof.
  intro P. unfold browse_marine_animals_fast, bind, ret.
  set (terms := shuffle RT _ _).
  pose proof (@PipelineFacts.browse_terms_stuck RT offset limit terms [] w P) as E.
  destruct (browse_terms RT offset limit terms [] [] w) as [marine w1].
  simpl in *. subst marine. now destruct offset.
Qed.

Lemma on_browse_more_adds_nothing (win : window local) (w : world) :
  is_browsing win = true ->
  fst (on_browse_more RT win w) =
  {| search_input := search_input win; is_browsing := true;
     browse_offset := browse_offset win + BROWSE_LIMIT_INCREMENT;
     current_search_results := current_search_results win;
     current_species_data := current_species_data win;
     list_widget := list_widget win; results_count := results_count win;
     browse_more_btn := browse_more_btn win; loading_overlay := false |}.
Proof.
  intro B. unfold on_browse_more. rewrite B. cbn [negb].
  unfold bind, ret, run, browse_marine_animals.
  cbn [browse_mode thread_browse_offset browse_limit show_loading
       browse_offset].
  pose proof (@browse_with_offset_is_empty
                (browse_offset win + BROWSE_LIMIT_INCREMENT)
                BROWSE_LIMIT_INCREMENT w) as E.
  destruct (browse_marine_animals_fast RT _ _ w) as [results w1].
  cbn [fst] in *. rewrite E by (unfold BROWSE_LIMIT_INCREMENT; lia).
  unfold handle_browse_more_results, hide_loading. cbn. reflexivity.
Qed.

(** "Browse More" never shows anything new. Every click asks for the
    species from a positive offset on, which [browse_marine_animals_fast]
    answers with an empty list: the results, the rows of the list, the count
    and the button are left as they were, however often the button is
    clicked; only [browse_offset] grows, by 5 with each click. When the
    window is not browsing, a click does nothing at all. *)
Theorem browse_more_never_adds_species :
  forall (n : nat) (win : window local) (w : world),
    let win' := fst (browse_more_clicks RT n win w) in
    (is_browsing win = true ->
     current_search_results win' = current_search_results win /\
     list_widget win' = list_widget win /\
     results_count win' = results_count win /\
     browse_more_btn win' = browse_more_btn win /\
     is_browsing win' = true /\
     browse_offset win' = (browse_offset win + BROWSE_LIMIT_INCREMENT * n)%nat) /\
    (is_browsing win = false ->
     browse_more_clicks RT n win w = (win, w)).
Proof.
  induction n as [|n IH]; intros win w win'; subst win'.
  - cbn. split; [intros B; repeat split; auto; lia|reflexivity].
  - cbn [browse_more_clicks]. unfold bind. split.
    + intro B. pose proof (@on_browse_more_adds_nothing win w B) as E.
      destruct (on_browse_more RT win w) as [win1 w1]. cbn [fst] in E.
      cbv beta iota. destruct (IH win1 w1) as [H _]. subst win1.
      destruct (H eq_refl) as (H1 & H2 & H3 & H4 & H5 & H6).
      cbn [current_search_results list_widget results_count browse_more_btn
           browse_offset] in H1, H2, H3, H4, H6.
      repeat split; auto. rewrite H6.
      unfold BROWSE_LIMIT_INCREMENT. lia.
    + intro B. unfold on_browse_more. rewrite B. cbn [negb ret].
      destruct (IH win w) as [_ H]. exact (H B).
Qed.

(** The guard of the search thread is redundant: for every query, the thread
    returns what [search_worms_species_fast] returns and leaves the same
    state behind. *)
Theorem search_thread_is_the_resolver :
  forall (q : string) (w : world),
    search_marine_species RT q w = search_worms_species_fast RT q w.
Proof.
  intros q w. unfold search_marine_species.
  destruct (negb (Py.nonempty q) || (String.length (Py.strip q) <? 2)%nat)
    eqn:G.
  - unfold search_worms_species_fast.
    assert (S : (String.length (Py.strip q) <? 2)%nat = true).
    { apply orb_prop in G. destruct G as [G|G]; [|exact G].
      destruct q; [reflexivity|discriminate]. }
    now rewrite S.
  - unfold bind. destruct (search_worms_species_fast RT q w) as [[|sp rs] w1];
      reflexivity.
Qed.

End WithRuntime.

(** A window that has not searched yet *)
Definition blank : window unit :=
  {| search_input := ""; is_browsing := false; browse_offset := 0;
     current_search_results := []; current_species_data := None;
     list_widget := []; results_count := ""; browse_more_btn := false;
     loading_overlay := false |}.

(** In a world that knows one species, "Browse All" lists it; three clicks
    on "Browse More" later the list is the same and the offset is 15. *)
Example browse_all_then_browse_more :
  let w0 := PipelineExamples.fresh in
  let (win1, w1) := on_browse_all PipelineExamples.orca_world blank w0 in
  let (win2, w2) := browse_more_clicks PipelineExamples.orca_world 3 win1 w1 in
  results_count win1 = "1 marine animals" /\
  is_browsing win1 = true /\
  List.length (list_widget win2) = 1%nat /\
  current_search_results win2 = current_search_results win1 /\
  browse_offset win2 = 15%nat /\
  (List.length (Fetch.sent w1) < List.length (Fetch.sent w2))%nat.
Proof. vm_compute. repeat split. lia. Qed.

End GuiFacts.

(** ** The high-level taxa *)

Module TaxaFacts.
Import Taxa.

Local Open Scope string_scope.

Section WithUpstream.

Variable U : Fetch.upstream payload params.

Definition ids (taxa : list taxon) : list Z := map aphia_id taxa.

(** Kept by the loops: the ids seen are those of the taxa gathered, which
    are distinct. *)
Definition taxa_inv (taxa : list taxon) (seen_ids : list Z) : Prop :=
  NoDup (ids taxa) /\ (forall id, In id seen_ids <-> In id (ids taxa)).

Lemma existsb_Zeqb (id : Z) (l : list Z) :
  existsb (Z.eqb id) l = true <-> In id l.
Proof.
  rewrite existsb_exists. split.
  - intros (x & Hx & E). apply Z.eqb_eq in E. now subst.
  - intro H. exists id. split; [exact H|apply Z.eqb_refl].
Qed.

Lemma taxa_inv_snoc (taxa : list taxon) (seen_ids : list Z) (t : taxon) :
  taxa_inv taxa seen_ids ->
  existsb (Z.eqb (aphia_id t)) seen_ids = false ->
  taxa_inv (taxa ++ [t]) (aphia_id t :: seen_ids).
Proof.
  intros [N S] X. unfold taxa_inv, ids in *. rewrite map_app. simpl. split.
  - apply NoDup_app; [exact N|repeat constructor; auto|].
    intros x Hx [<-|[]]. apply S in Hx. apply existsb_Zeqb in Hx. congruence.
  - intro id. rewrite in_app_iff. simpl. rewrite S. tauto.
Qed.

Definition always {A : Type} (P : A -> Prop) (m : M A) : Prop :=
  forall s, P (fst (m s)).

Lemma returns_unit (A : Type) (P : A -> Prop) (a : A) : P a -> always P (ret a).
Proof. intros H s. exact H. Qed.

Lemma returns_then (A B : Type) (P : B -> Prop) (m : M A) (k : A -> M B) :
  (forall a, always P (k a)) -> always P (bind m k).
Proof.
  intros Hk s. unfold bind. destruct (m s) as [a s']. apply Hk.
Qed.

Definition loop_ok (r : option (list taxon * list Z)) : Prop :=
  match r with
  | Some (taxa, seen_ids) => taxa_inv taxa seen_ids
  | None => True
  end.

Lemma returns_scan_items (items : list taxon_item) : forall taxa seen_ids,
  taxa_inv taxa seen_ids ->
  always loop_ok (scan_items U items taxa seen_ids).
Proof.
  induction items as [|item items IH]; intros taxa seen_ids I;
    cbn [scan_items].
  - now apply returns_unit.
  - destruct (rank item) as [r|]; [|now apply returns_unit].
    destruct (AphiaID item) as [id|]; [|now apply IH].
    destruct (negb (id =? 0)%Z && isMarine item
              && existsb (String.eqb (Py.lower r)) wanted_ranks) eqn:C;
      cbn [andb]; [|now apply IH].
    destruct (existsb (Z.eqb id) seen_ids) eqn:X; cbn [negb];
      [now apply IH|].
    apply returns_then. intro common_name.
    match goal with
    | |- context [(?l ++ [?t])%list] =>
        assert (I' : taxa_inv (l ++ [t]) (id :: seen_ids))
          by (apply (@taxa_inv_snoc l seen_ids t I); exact X)
    end.
    destruct (8 <=? _)%nat; [now apply returns_unit|now apply IH].
Qed.

Lemma returns_scan_groups (groups : list string) : forall taxa seen_ids,
  taxa_inv taxa seen_ids ->
  always loop_ok (scan_groups U groups taxa seen_ids).
Proof.
  induction groups as [|group groups IH]; intros taxa seen_ids I;
    cbn [scan_groups].
  - now apply returns_unit.
  - apply returns_then. intros [d|]; [|now apply IH].
    destruct (truth d); [|now apply IH].
    destruct (items_of d) as [items|]; [|now apply returns_unit].
    intro s. unfold bind.
    pose proof (@returns_scan_items items taxa seen_ids I s) as R.
    destruct (scan_items U items taxa seen_ids s) as [[[taxa' seen']|] s'];
      cbn [fst] in R; [|exact Logic.I].
    destruct (8 <=? _)%nat; [exact R|now apply IH].
Qed.

Lemma add_defaults_spec (defaults : list taxon) : forall taxa seen_ids,
  taxa_inv taxa seen_ids ->
  NoDup (ids (add_defaults defaults taxa seen_ids)) /\
  (forall id, In id (ids taxa) -> In id (ids (add_defaults defaults taxa seen_ids))) /\
  (forall t, In t defaults -> In (aphia_id t) (ids (add_defaults defaults taxa seen_ids))).
Proof.
  induction defaults as [|t defaults IH]; intros taxa seen_ids I;
    cbn [add_defaults].
  - split; [apply I|]. split; [auto|intros t []].
  - destruct (existsb (Z.eqb (aphia_id t)) seen_ids) eqn:X.
    + destruct (IH taxa seen_ids I) as (N & K & D).
      split; [exact N|]. split; [exact K|].
      intros t' [<-|H]; [|now apply D].
      apply K, I. now apply existsb_Zeqb.
    + pose proof (taxa_inv_snoc t I X) as I'.
      destruct (IH _ _ I') as (N & K & D).
      split; [exact N|]. split.
      * intros id H. apply K. unfold ids. rewrite map_app.
        apply in_or_app. now left.
      * intros t' [<-|H]; [|now apply D].
        apply K. unfold ids. rewrite map_app. apply in_or_app. right. now left.
Qed.

Lemma firstn_ids_NoDup (n : nat) (taxa : list taxon) :
  NoDup (ids taxa) -> NoDup (ids (firstn n taxa)).
Proof.
  intro N. unfold ids in *.
  rewrite <- (firstn_skipn n taxa), map_app in N.
  now apply NoDup_app_remove_r in N.
Qed.

(** Whatever WoRMS answers, and whatever the memo tables hold, the list of
    high-level taxa computed at start-up has between five and eight
    entries, no two of them with the same id. The memoised function computes
    it once: called again, it returns the same list and leaves the state,
    network log included, as it is. *)
Theorem high_level_taxa_are_five_to_eight :
  forall s : state,
    let taxa := fst (fetch_high_level_taxa U s) in
    let first := fetch_high_level_taxa_cached U s in
    ((5 <= List.length taxa <= 8)%nat /\ NoDup (map aphia_id taxa)) /\
    (taxa_memo s = None -> fst first = taxa) /\
    fetch_high_level_taxa_cached U (snd first) = first.
Proof.
  intros s taxa first. split; [|split].
  - subst taxa. unfold fetch_high_level_taxa, bind.
    assert (I0 : taxa_inv [] []).
    { split; [constructor|]. intro id. simpl. tauto. }
    pose proof (@returns_scan_groups marine_animal_groups [] [] I0 s) as R.
    destruct (scan_groups U marine_animal_groups [] [] s)
      as [[[taxa seen_ids]|] s']; cbn [fst ret] in *.
    2:{ split; [simpl; lia|]. simpl.
        repeat constructor; simpl; intuition discriminate. }
    destruct (Nat.ltb_spec (List.length taxa) 5) as [L|L].
    + destruct (@add_defaults_spec default_taxa taxa seen_ids R) as (N & _ & D).
      split.
      * rewrite length_firstn. split; [|lia].
        assert (5 <= List.length
                       (ids (add_defaults default_taxa taxa seen_ids)))%nat.
        { change 5%nat with (List.length (ids default_taxa)).
          apply NoDup_incl_length.
          - simpl. repeat constructor; simpl; intuition discriminate.
          - intros id H. unfold ids in H. apply in_map_iff in H.
            destruct H as (t & <- & H). now apply D. }
        unfold ids in H. rewrite length_map in H. lia.
      * now apply firstn_ids_NoDup.
    + split; [rewrite length_firstn; lia|].
      apply firstn_ids_NoDup. apply R.
  - subst first taxa. unfold fetch_high_level_taxa_cached. intros ->.
    now destruct (fetch_high_level_taxa U s).
  - subst first. unfold fetch_high_level_taxa_cached.
    destruct (taxa_memo s) as [result|] eqn:E; cbn [snd].
    + now rewrite E.
    + destruct (fetch_high_level_taxa U s) as [result s']. reflexivity.
Qed.

End WithUpstream.

(** WoRMS knows the class Actinopterygii, with an English vernacular, and
    answers 404 to every other search. *)
Definition bony_fish_only : Fetch.upstream payload params :=
  {| Fetch.requests_get := fun _ _ p _ =>
       match p with
       | Some (("scientificname", group) :: _) =>
           if String.eqb group "Actinopterygii"
           then Fetch.Response 200
                  (Fetch.Json
                     (Some (JItems [{| AphiaID := Some 10194%Z;
                                       rank := Some "Class";
                                       scientificname := Some "Actinopterygii";
                                       isMarine := true |}])))
           else Fetch.Response 404 (Fetch.Empty payload)
       | _ =>
           Fetch.Response 200
             (Fetch.Json
                (Some (JVernaculars
                         [{| vernacular := Some " ray-finned fishes ";
                             language := Some "English" |}])))
       end;
     Fetch.latency := fun _ => 1 # 4;
     Fetch.str_params := fun p =>
       match p with
       | Some (("scientificname", group) :: _) => group
       | _ => "None"
       end |}.

Definition cold : state :=
  {| net := Fetch.initial_world payload params; vernacular_memo := [];
     taxa_memo := None |}.

(** The class found comes first, under its vernacular name; the defaults
    that are not yet listed fill the list up to five entries. *)
Example taxa_found_then_defaults :
  map (fun t => (name t, aphia_id t, taxon_rank t))
      (fst (fetch_high_level_taxa_cached bony_fish_only cold))
  = [(Some "ray-finned fishes", 10194%Z, "Class");
     (Some "Whales & Dolphins", 1837%Z, "Order");
     (Some "Sharks & Rays", 10215%Z, "Class");
     (Some "Marine Mammals", 1836%Z, "Infraorder");
     (Some "Squid & Octopus", 123084%Z, "Class")].
Proof. vm_compute. reflexivity. Qed.

End TaxaFacts.

(** ** The image loader *)

Module ImageLoaderFacts.
Import ImageLoader.

Local Open Scope string_scope.

Definition secure (u : string) : bool := PyStr.startswith "https:" u.

Lemma fix_url_secure (url : string) :
  PyStr.startswith "//" url = true \/ PyStr.startswith "http://" url = true
  \/ secure url = true ->
  secure (fix_url url) = true.
Proof.
  unfold fix_url, secure, PyStr.startswith.
  destruct (String.prefix "//" url) eqn:A.
  - intros _. simpl. now destruct url.
  - destruct (String.prefix "http://" url) eqn:B.
    + intros _. unfold PyStr.replace. destruct url as [|c url]; [discriminate|].
      cbn [PyStr.replace_from]. rewrite B. reflexivity.
    + intros [H|[H|H]]; try discriminate. exact H.
Qed.

Lemma thumb_original_secure (url original : string) :
  thumb_original url = Some original -> secure original = true.
Proof.
  unfold thumb_original. destruct (_ && _); [|discriminate].
  destruct (split "/thumb/" url) as [|p0 [|thumb_part ps]]; try discriminate.
  destruct (Fetch.contains "/" thumb_part); [|discriminate].
  destruct (split "/" thumb_part) as [|q0 [|q1 qs]]; try discriminate.
  intro H. inversion H. reflexivity.
Qed.

(** A delivered image is the body of a response with status 200 and an
    [image/...] content type. *)
Definition delivers (o : outcome) (image : list Byte.byte) : Prop :=
  exists resp, o = Answered resp /\ status_code resp = 200%Z /\
               is_image resp = true /\ content resp = image.

Section WithNetwork.

Variable requests_get : nat -> string -> outcome.

(** [load_image_from_url_bytes_fast] makes one request, to the repaired
    address, or two when the address is a Wikipedia thumbnail: first to the
    original image, then, if that did not deliver, to the thumbnail. It
    returns bytes only when the last request it made was answered 200 with
    an [image/...] content type, and then returns that body. An address
    given with ["//"], ["http://"] or ["https:"] is only ever requested
    over https. *)
Theorem image_loader_returns_only_images :
  forall (url : string) (calls : list string),
    let r := load_image_from_url_bytes_fast requests_get url calls in
    let n := List.length calls in
    exists made : list string,
      snd r = (calls ++ made)%list /\
      (made = [fix_url url] \/
       exists original,
         thumb_original (fix_url url) = Some original /\
         (made = [original] \/ made = [original; fix_url url])) /\
      (forall image, fst r = Some image ->
         exists u, last made u = u /\ In u made /\
           delivers (requests_get (n + List.length made - 1) u) image) /\
      (PyStr.startswith "//" url = true \/ PyStr.startswith "http://" url = true
       \/ secure url = true ->
       Forall (fun u => secure u = true) made).
Proof.
  intros url calls r n. subst r n. unfold load_image_from_url_bytes_fast, get.
  set (u := fix_url url).
  destruct (thumb_original u) as [original|] eqn:T.
  - pose proof (thumb_original_secure _ T) as So.
    destruct (requests_get (List.length calls) original) as [|resp] eqn:O.
    + (* the original raised *)
      rewrite length_app. cbn [List.length].
      exists [original; u]. cbn [fst snd]. rewrite <- app_assoc.
      split; [reflexivity|]. split; [right; exists original; auto|].
      split.
      * intros image H. exists u. cbn [last List.length].
        split; [reflexivity|]. split; [right; now left|].
        replace (List.length calls + 2 - 1)%nat
          with (List.length calls + 1)%nat by lia.
        destruct (requests_get (List.length calls + 1) u) as [|resp];
          [discriminate|].
        destruct (Z.eqb_spec (status_code resp) 200) as [E|]; [|discriminate].
        destruct (is_image resp) eqn:Im; [|discriminate].
        inversion H; subst. exists resp. auto.
      * intro H. repeat constructor; [exact So|].
        now apply fix_url_secure.
    + destruct ((status_code resp =? 200)%Z && is_image resp) eqn:D.
      * (* the original delivered *)
        exists [original]. cbn [fst snd].
        split; [reflexivity|]. split; [right; exists original; auto|].
        split.
        -- intros image H. inversion H; subst. exists original.
           cbn [last List.length]. split; [reflexivity|]. split; [now left|].
           replace (List.length calls + 1 - 1)%nat with (List.length calls)
             by lia.
           rewrite O. apply andb_prop in D. destruct D as [D1 D2].
           apply Z.eqb_eq in D1. exists resp. auto.
        -- intro H. repeat constructor. exact So.
      * rewrite length_app. cbn [List.length].
        exists [original; u]. cbn [fst snd]. rewrite <- app_assoc.
        split; [reflexivity|]. split; [right; exists original; auto|].
        split.
        -- intros image H. exists u. cbn [last List.length].
           split; [reflexivity|]. split; [right; now left|].
           replace (List.length calls + 2 - 1)%nat
             with (List.length calls + 1)%nat by lia.
           destruct (requests_get (List.length calls + 1) u) as [|resp'];
             [discriminate|].
           destruct (Z.eqb_spec (status_code resp') 200) as [E|]; [|discriminate].
           destruct (is_image resp') eqn:Im; [|discriminate].
           inversion H; subst. exists resp'. auto.
        -- intro H. repeat constructor; [exact So|].
           now apply fix_url_secure.
  - exists [u]. cbn [fst snd]. split; [reflexivity|]. split; [now left|].
    split.
    + intros image H. exists u. cbn [last List.length].
      split; [reflexivity|]. split; [now left|].
      replace (List.length calls + 1 - 1)%nat with (List.length calls) by lia.
      destruct (requests_get (List.length calls) u) as [|resp];
        [discriminate|].
      destruct (Z.eqb_spec (status_code resp) 200) as [E|]; [|discriminate].
      destruct (is_image resp) eqn:Im; [|discriminate].
      inversion H; subst. exists resp. auto.
    + intro H. repeat constructor. now apply fix_url_secure.
Qed.

End WithNetwork.

(** The original of a Commons thumbnail *)
Example original_of_a_commons_thumbnail :
  thumb_original
    "https://upload.wikimedia.org/wikipedia/commons/thumb/3/37/Orca.jpg/300px-Orca.jpg"
  = Some "https://upload.wikimedia.org/wikipedia/commons/3/37/Orca.jpg".
Proof. vm_compute. reflexivity. Qed.

Example split_examples :
  split "/thumb/" "a/thumb/b/thumb/" = ["a"; "b"; ""] /\
  split "/" "3/37/Orca.jpg" = ["3"; "37"; "Orca.jpg"] /\
  split "/" "" = [""].
Proof. vm_compute. repeat split. Qed.

End ImageLoaderFacts.

(** ** Reading scientific names out of prose *)

Module NamesFacts.
Import Re Names.

Local Open Scope string_scope.
Local Open Scope list_scope.

(** *** What a pattern can match

    The texts a pattern can match and the groups it then captures, leaving
    aside what [\b] and [(?!...)] ask of the surroundings. *)
Fixpoint matches (r : regex) (w : text) (gs : list text) : Prop :=
  match r with
  | Lit c => w = [c] /\ gs = []
  | Cls p => exists x, w = [x] /\ p x = true /\ gs = []
  | Rep p lo hi =>
      Forall (fun x => p x = true) w /\ (lo <= List.length w)%nat /\
      match hi with Some n => (List.length w <= n)%nat | None => True end /\
      gs = []
  | Cat r1 r2 =>
      exists w1 w2 g1 g2,
        w = w1 ++ w2 /\ gs = g1 ++ g2 /\ matches r1 w1 g1 /\ matches r2 w2 g2
  | Alt r1 r2 => matches r1 w gs \/ matches r2 w gs
  | Group r1 => exists g1, gs = g1 ++ [w] /\ matches r1 w g1
  | Eps | WordBoundary | NotFollowedBy _ => w = [] /\ gs = []
  end.

Lemma rep_matches (R : Type) (p : ascii -> bool)
    (k : option ascii -> text -> option R) (x : R) :
  forall (s : text) (lo : nat) (hi : option nat) (prev : option ascii),
    rep p lo hi prev s k = Some x ->
    exists w s' prev',
      s = w ++ s' /\ Forall (fun c => p c = true) w /\
      (lo <= List.length w)%nat /\
      match hi with Some n => (List.length w <= n)%nat | None => True end /\
      k prev' s' = Some x.
Proof.
  assert (Stop : forall (s : text) (lo : nat) (hi : option nat) prev,
    (if (lo =? 0)%nat then k prev s else None) = Some x ->
    exists w s' prev',
      s = w ++ s' /\ Forall (fun c => p c = true) w /\
      (lo <= List.length w)%nat /\
      match hi with Some n => (List.length w <= n)%nat | None => True end /\
      k prev' s' = Some x).
  { intros s lo hi prev H.
    destruct (Nat.eqb_spec lo 0) as [->|]; [|discriminate].
    exists [], s, prev. repeat split; auto. destruct hi; simpl; [lia|exact I]. }
  induction s as [|c s IH]; intros lo hi prev H; simpl in H.
  - now apply Stop with (prev := prev).
  - destruct (p c) eqn:P; simpl in H; [|now apply Stop with (prev := prev)].
    destruct (may_repeat hi) eqn:M; [|now apply Stop with (prev := prev)].
    destruct (rep p (pred lo) (option_map pred hi) (Some c) s k) eqn:E.
    + inversion H; subst.
      destruct (IH _ _ _ E) as (w & s' & prev' & -> & F & L & U & K).
      exists (c :: w), s', prev'.
      split; [reflexivity|]. split; [now constructor|].
      split; [simpl; lia|]. split; [|exact K].
      destruct hi as [[|n]|]; simpl in *; try discriminate; try lia.
    + now apply Stop with (prev := prev).
Qed.

Lemma rmatch_matches (R : Type) (x : R) :
  forall (r : regex) (prev : option ascii) (s : text) (caps : list text)
         (k : option ascii -> text -> list text -> option R),
    rmatch r prev s caps k = Some x ->
    exists w s' gs prev',
      s = w ++ s' /\ matches r w gs /\ k prev' s' (caps ++ gs) = Some x.
Proof.
  induction r as [c|p|p lo hi|r1 IH1 r2 IH2|r1 IH1 r2 IH2|r1 IH1| | |p];
    intros prev s caps k H; simpl in H.
  - destruct s as [|y s]; [discriminate|].
    destruct (Ascii.eqb_spec c y) as [<-|]; [|discriminate].
    exists [c], s, [], (Some c). rewrite app_nil_r. simpl. repeat split. exact H.
  - destruct s as [|y s]; [discriminate|].
    destruct (p y) eqn:E; [|discriminate].
    exists [y], s, [], (Some y). rewrite app_nil_r. simpl.
    split; [reflexivity|]. split; [exists y; auto|exact H].
  - destruct (rep_matches _ _ _ _ _ _ H) as (w & s' & prev' & -> & F & L & U & K).
    exists w, s', [], prev'. rewrite app_nil_r. simpl. repeat split; auto.
  - destruct (IH1 _ _ _ _ H) as (w1 & s1 & g1 & p1 & -> & M1 & K1).
    destruct (IH2 _ _ _ _ K1) as (w2 & s2 & g2 & p2 & -> & M2 & K2).
    exists (w1 ++ w2), s2, (g1 ++ g2), p2. rewrite <- !app_assoc.
    rewrite <- app_assoc in K2. split; [reflexivity|]. split; [|exact K2].
    simpl. exists w1, w2, g1, g2. repeat split; auto.
  - destruct (rmatch r1 prev s caps k) eqn:E.
    + inversion H; subst.
      destruct (IH1 _ _ _ _ E) as (w & s' & gs & p' & -> & M & K).
      exists w, s', gs, p'. simpl. split; [reflexivity|split; [auto|exact K]].
    + destruct (IH2 _ _ _ _ H) as (w & s' & gs & p' & -> & M & K).
      exists w, s', gs, p'. simpl. split; [reflexivity|split; [auto|exact K]].
  - destruct (IH1 _ _ _ _ H) as (w & s' & g1 & p' & -> & M1 & K1).
    rewrite ReFacts.firstn_prefix, <- app_assoc in K1.
    exists w, s', (g1 ++ [w]), p'. split; [reflexivity|]. split; [|exact K1].
    simpl. exists g1. split; auto.
  - exists [], s, [], prev. rewrite app_nil_r. simpl. repeat split; auto.
  - destruct (xorb _ _); [|discriminate].
    exists [], s, [], prev. rewrite app_nil_r. simpl. repeat split; auto.
  - exists [], s, [], prev. rewrite app_nil_r. simpl.
    destruct s as [|c s]; [repeat split; auto|].
    destruct (p c); [discriminate|repeat split; auto].
Qed.

Lemma match_at_matches (r : regex) (prev : option ascii) (s : text)
    (m : match_object) :
  match_at r prev s = Some m -> matches r (whole m) (groups m).
Proof.
  unfold match_at. intro H.
  destruct (rmatch_matches _ _ _ _ _ H) as (w & s' & gs & p' & -> & M & K).
  rewrite ReFacts.firstn_prefix in K. inversion K; subst; simpl. exact M.
Qed.

Lemma scan_matches (r : regex) (fuel : nat) :
  forall (prev : option ascii) (s : text) (m : match_object),
    In m (scan fuel r prev s) -> matches r (whole m) (groups m).
Proof.
  induction fuel as [|fuel IH]; intros prev s m; simpl; [tauto|].
  assert (Skip : In m match s with
                      | [] => []
                      | c :: s' => scan fuel r (Some c) s'
                      end ->
                 matches r (whole m) (groups m)).
  { destruct s; simpl; [tauto|apply IH]. }
  destruct (match_at r prev s) as [m0|] eqn:E; [|exact Skip].
  apply match_at_matches in E.
  destruct (_ <? _)%nat; simpl; intros [<-|I]; auto.
  now apply (IH (before_after m0) (after m0)).
Qed.

Lemma findall_matches (r : regex) (s : text) (f : found) :
  In f (findall r s) ->
  exists m, f = shape r m /\ matches r (whole m) (groups m).
Proof.
  unfold findall. intro H. apply in_map_iff in H.
  destruct H as (m & <- & H). apply scan_matches in H.
  exists m. split; [reflexivity|exact H].
Qed.

(** *** The shapes the patterns capture *)

Definition lowers (s : text) : Prop := Forall (fun c => lower_case c = true) s.

Definition spaces (s : text) : Prop := Forall (fun c => space c = true) s.

(** [[A-Z][a-z]+] and [[a-z]{2,}] *)
Definition genus_like (g : text) : Prop :=
  exists u ls, g = u :: ls /\ upper_case u = true /\ ls <> [] /\ lowers ls.

Definition epithet_like (s : text) : Prop :=
  lowers s /\ (2 <= List.length s)%nat.

(** [[A-Z][a-z]+\s+[a-z]{2,}] *)
Definition binomial_like (m : text) : Prop :=
  exists g ws s,
    m = g ++ ws ++ s /\ genus_like g /\ ws <> [] /\ spaces ws /\
    epithet_like s.

(** A capital letter, one space, an epithet: what the abbreviated pattern
    contributes *)
Definition abbreviated (m : text) : Prop :=
  exists u s, m = u :: " "%char :: s /\ upper_case u = true /\ epithet_like s.

Lemma matches_genus (w : text) (gs : list text) :
  matches genus_re w gs -> genus_like w /\ gs = [].
Proof.
  intros (w1 & w2 & g1 & g2 & -> & -> & (u & -> & U & ->) & (F & L & _ & ->)).
  split; [|reflexivity]. exists u, w2. repeat split; auto.
  intros ->. simpl in L. lia.
Qed.

Lemma matches_epithet (w : text) (gs : list text) :
  matches epithet_re w gs -> epithet_like w /\ gs = [].
Proof. intros (F & L & _ & ->). split; [split; assumption|reflexivity]. Qed.

Lemma matches_spaces (w : text) (gs : list text) :
  matches (Rep space 1 None) w gs -> w <> [] /\ spaces w /\ gs = [].
Proof.
  intros (F & L & _ & ->). split; [|split; [exact F|reflexivity]].
  intros ->. simpl in L. lia.
Qed.

Lemma matches_binomial (w : text) (gs : list text) :
  matches binomial_re w gs -> binomial_like w /\ gs = [].
Proof.
  unfold binomial_re. cbn [cat fold_right].
  intros (w1 & w1' & g1 & g1' & -> & -> & M1
          & (w2 & w2' & g2 & g2' & -> & -> & M2
             & (w3 & w3' & g3 & g3' & -> & -> & M3 & (-> & ->)))).
  apply matches_genus in M1. destruct M1 as [M1 ->].
  apply matches_spaces in M2. destruct M2 as (N2 & M2 & ->).
  apply matches_epithet in M3. destruct M3 as [M3 ->].
  split; [|reflexivity]. rewrite app_nil_r.
  exists w1, w2, w3. auto.
Qed.

Lemma matches_no_group (r : regex) : forall (w : text) (gs : list text),
  n_groups r = 0%nat -> matches r w gs -> gs = [].
Proof.
  induction r as [c|p|p lo hi|r1 IH1 r2 IH2|r1 IH1 r2 IH2|r1 IH1| | |p];
    intros w gs N M; simpl in N, M.
  - apply M.
  - destruct M as (x & _ & _ & ->). reflexivity.
  - apply M.
  - destruct M as (w1 & w2 & g1 & g2 & -> & -> & M1 & M2).
    rewrite (IH1 _ _ ltac:(lia) M1), (IH2 _ _ ltac:(lia) M2). reflexivity.
  - destruct M as [M|M]; [apply (IH1 _ _ ltac:(lia) M)|apply (IH2 _ _ ltac:(lia) M)].
  - discriminate.
  - apply M.
  - apply M.
  - apply M.
Qed.

(** What [findall] yields for each of the four patterns *)
Lemma pair_pattern_found (s : text) (f : found) :
  In f (findall pair_pattern s) ->
  exists g e, f = Tuple [g; e] /\ genus_like g /\ epithet_like e.
Proof.
  intro H. apply findall_matches in H. destruct H as (m & -> & M).
  unfold shape. change (n_groups pair_pattern) with 2%nat. cbv beta iota.
  revert M. generalize (whole m), (groups m). intros w gs.
  unfold pair_pattern. cbn [cat fold_right].
  intros (w0 & w0' & g0 & g0' & -> & -> & (-> & ->)
          & (w1 & w1' & g1 & g1' & -> & -> & (g1a & -> & M1)
             & (w2 & w2' & g2 & g2' & -> & -> & M2
                & (w3 & w3' & g3 & g3' & -> & -> & (g3a & -> & M3)
                   & (w4 & w4' & g4 & g4' & -> & -> & (-> & ->)
                      & (-> & ->)))))).
  apply matches_genus in M1. destruct M1 as [M1 ->].
  apply matches_spaces in M2. destruct M2 as (_ & _ & ->).
  apply matches_epithet in M3. destruct M3 as [M3 ->].
  exists w1, w3. simpl. auto.
Qed.

Lemma parenthesised_pattern_found (s : text) (f : found) :
  In f (findall parenthesised_pattern s) ->
  exists m, f = Str m /\ binomial_like m.
Proof.
  intro H. apply findall_matches in H. destruct H as (m & -> & M).
  unfold shape. change (n_groups parenthesised_pattern) with 1%nat.
  cbv beta iota.
  revert M. generalize (whole m), (groups m). intros w gs.
  unfold parenthesised_pattern. cbn [cat fold_right].
  intros (w0 & w0' & g0 & g0' & -> & -> & (-> & ->)
          & (w1 & w1' & g1 & g1' & -> & -> & (g1a & -> & M1)
             & (w2 & w2' & g2 & g2' & -> & -> & (-> & ->) & (-> & ->)))).
  apply matches_binomial in M1. destruct M1 as [M1 ->].
  exists w1. simpl. auto.
Qed.

Lemma ranked_pattern_found (s : text) (f : found) :
  In f (findall ranked_pattern s) ->
  exists m, f = Str m /\ binomial_like m.
Proof.
  intro H. apply findall_matches in H. destruct H as (m & -> & M).
  unfold shape. change (n_groups ranked_pattern) with 1%nat.
  cbv beta iota.
  revert M. generalize (whole m), (groups m). intros w gs.
  unfold ranked_pattern. cbn [cat fold_right].
  intros (w0 & w0' & g0 & g0' & -> & -> & (-> & ->)
          & (w1 & w1' & g1 & g1' & -> & -> & M1
             & (w2 & w2' & g2 & g2' & -> & -> & M2
                & (w3 & w3' & g3 & g3' & -> & -> & (g3a & -> & M3)
                   & (w4 & w4' & g4 & g4' & -> & -> & (-> & ->)
                      & (-> & ->)))))).
  apply matches_no_group in M1; [|reflexivity]. subst g1.
  apply matches_spaces in M2. destruct M2 as (_ & _ & ->).
  apply matches_binomial in M3. destruct M3 as [M3 ->].
  exists w3. simpl. auto.
Qed.

Lemma abbreviated_pattern_found (s : text) (f : found) :
  In f (findall abbreviated_pattern s) ->
  exists u e, f = Tuple [[u]; e] /\ upper_case u = true /\ epithet_like e.
Proof.
  intro H. apply findall_matches in H. destruct H as (m & -> & M).
  unfold shape. change (n_groups abbreviated_pattern) with 2%nat.
  cbv beta iota.
  revert M. generalize (whole m), (groups m). intros w gs.
  unfold abbreviated_pattern. cbn [cat fold_right].
  intros (w0 & w0' & g0 & g0' & -> & -> & (-> & ->)
          & (w1 & w1' & g1 & g1' & -> & -> & (g1a & -> & (u & -> & U & ->))
             & (w2 & w2' & g2 & g2' & -> & -> & (-> & ->)
                & (w3 & w3' & g3 & g3' & -> & -> & M3
                   & (w4 & w4' & g4 & g4' & -> & -> & (g4a & -> & M4)
                      & (w5 & w5' & g5 & g5' & -> & -> & (-> & ->)
                         & (w6 & w6' & g6 & g6' & -> & -> & (-> & ->)
                            & (-> & ->)))))))).
  apply matches_spaces in M3. destruct M3 as (_ & _ & ->).
  apply matches_epithet in M4. destruct M4 as [M4 ->].
  exists u, w4. simpl. auto.
Qed.

(** *** Python strings *)

Lemma text_eqb_eq (a b : text) : text_eqb a b = true <-> a = b.
Proof.
  revert b. induction a as [|x a IH]; intros [|y b]; simpl;
    try (split; [discriminate|discriminate]); [tauto|].
  rewrite andb_true_iff, Ascii.eqb_eq, IH. split.
  - intros [-> ->]. reflexivity.
  - intro H. inversion H. auto.
Qed.

Lemma is_in_In (t : text) (l : list text) : is_in t l = true <-> In t l.
Proof.
  unfold is_in. rewrite existsb_exists. split.
  - intros (x & Hx & E). apply text_eqb_eq in E. now subst.
  - intro H. exists t. split; [exact H|]. now apply text_eqb_eq.
Qed.

Lemma upper_not_space (c : ascii) : upper_case c = true -> space c = false.
Proof.
  unfold space, upper_case, between. intro H.
  apply andb_prop in H. destruct H as [A B]. apply Nat.leb_le in A, B.
  apply orb_false_iff. split; apply andb_false_iff; rewrite !Nat.leb_gt; lia.
Qed.

Lemma space_is_space : space " "%char = true.
Proof. reflexivity. Qed.

Lemma split_1_spec (s : text) :
  if existsb (Ascii.eqb " ") s
  then exists a b, split_1 s = [a; b] /\ s = a ++ " "%char :: b
  else split_1 s = [s].
Proof.
  induction s as [|c s IH]; cbn [existsb split_1]; [reflexivity|].
  rewrite (Ascii.eqb_sym " " c).
  destruct (Ascii.eqb_spec c " ") as [->|N]; cbn [orb].
  - exists [], s. auto.
  - destruct (existsb (Ascii.eqb " ") s).
    + destruct IH as (a & b & -> & ->). exists (c :: a), b. auto.
    + rewrite IH. reflexivity.
Qed.

Lemma split_from_word (a : text) : forall (rest piece : text),
  Forall (fun c => space c = false) a ->
  split_from (a ++ rest) piece = split_from rest (piece ++ a).
Proof.
  induction a as [|c a IH]; intros rest piece F; simpl.
  - now rewrite app_nil_r.
  - inversion F as [|? ? Hc Fa]; subst. rewrite Hc.
    rewrite (IH _ _ Fa), <- app_assoc. reflexivity.
Qed.

Lemma split_from_spaces (ws : text) : forall rest : text,
  spaces ws -> split_from (ws ++ rest) [] = split_from rest [].
Proof.
  induction ws as [|c ws IH]; intros rest F; simpl; [reflexivity|].
  inversion F as [|? ? Hc Fw]; subst. rewrite Hc. now apply IH.
Qed.

(** [(g + ws + s).split()] is [[g, s]] for two words and white space
    between them. *)
Lemma split_two_words (g ws s : text) :
  g <> [] -> Forall (fun c => space c = false) g ->
  ws <> [] -> spaces ws ->
  s <> [] -> Forall (fun c => space c = false) s ->
  split (g ++ ws ++ s) = [g; s].
Proof.
  intros Ng Fg Nw Fw Ns Fs. unfold split.
  rewrite (@split_from_word g _ [] Fg). simpl.
  destruct ws as [|c ws]; [congruence|]. simpl.
  inversion Fw as [|? ? Hc Fw']; subst. rewrite Hc.
  destruct g as [|x g]; [congruence|]. f_equal.
  rewrite (@split_from_spaces ws _ Fw').
  rewrite <- (app_nil_r s) at 1. rewrite (@split_from_word s [] [] Fs). simpl.
  destruct s; [congruence|reflexivity].
Qed.

Lemma lowers_no_space (s : text) :
  lowers s -> Forall (fun c => space c = false) s.
Proof.
  intro F. eapply Forall_impl; [|exact F].
  intros c H. now apply PatternFacts.lower_not_space.
Qed.

Lemma genus_no_space (g : text) :
  genus_like g -> g <> [] /\ Forall (fun c => space c = false) g.
Proof.
  intros (u & ls & -> & U & _ & F). split; [discriminate|].
  constructor; [now apply upper_not_space|now apply lowers_no_space].
Qed.

Lemma epithet_no_space (e : text) :
  epithet_like e -> e <> [] /\ Forall (fun c => space c = false) e.
Proof.
  intros [F L]. split; [intros ->; simpl in L; lia|now apply lowers_no_space].
Qed.

Lemma epithet_head (e : text) :
  epithet_like e -> exists c e', e = c :: e' /\ lower_case c = true.
Proof.
  intros [F L]. destruct e as [|c e]; [simpl in L; lia|].
  inversion F; subst. eauto.
Qed.

(** *** The first loop *)

Lemma add_name_spec (n : text) (names : list text) :
  add_name n names = names /\ In n names \/
  add_name n names = names ++ [n] /\ ~ In n names.
Proof.
  unfold add_name. destruct (is_in n names) eqn:E.
  - left. split; [reflexivity|now apply is_in_In].
  - right. split; [reflexivity|]. intro H. apply is_in_In in H. congruence.
Qed.

(** One step of the first loop leaves the names as they are or appends a
    new name of the form [P]. *)
Definition step_ok (P : text -> Prop) (f : found) : Prop :=
  forall names : list text,
    consider f names = Some names \/
    exists n, P n /\ consider f names = Some (add_name n names).

Lemma consider_pair (P : text -> Prop) (g e : text) :
  (exists u ls, g = u :: ls /\ upper_case u = true) ->
  epithet_like e ->
  P (g ++ " "%char :: e) ->
  step_ok P (Tuple [g; e]).
Proof.
  intros (u & ls & -> & U) E Pn names. unfold consider.
  destruct (is_in _ not_a_genus); [now left|].
  destruct (is_in _ COMMON_WORDS); [now left|].
  destruct (epithet_head E) as (c & e' & -> & L).
  cbn [first_is]. rewrite U, L. right. eauto.
Qed.

Lemma consider_str (m : text) :
  binomial_like m -> step_ok binomial_like (Str m).
Proof.
  intros B names. pose proof B as (g & ws & e & -> & (u & ls & -> & U & _) & _).
  unfold consider. cbn [app]. rewrite U. cbn [andb].
  set (m := u :: (ls ++ ws ++ e)) in *.
  pose proof (split_1_spec m) as S.
  destruct (existsb (Ascii.eqb " ") m); [|now left].
  destruct S as (a & b & -> & E).
  destruct a as [|x a].
  { exfalso. subst m. simpl in E. inversion E; subst. discriminate U. }
  assert (x = u) as -> by (subst m; simpl in E; now inversion E).
  cbn [first_is]. rewrite U.
  destruct b as [|c' b]; [now left|].
  destruct (lower_case c'); [|now left].
  right. exists m. auto.
Qed.

Lemma pair_is_binomial (g e : text) :
  genus_like g -> epithet_like e -> binomial_like (g ++ " "%char :: e).
Proof.
  intros G E. exists g, [" "%char], e. repeat split; auto; try apply E.
  - discriminate.
  - repeat constructor.
Qed.

(** What the loop over the matches of a pattern adds *)
Lemma consider_all_extends (P : text -> Prop) (ms : list found) :
  (forall f, In f ms -> step_ok P f) ->
  forall names : list text,
    exists ext,
      consider_all ms names = Some (names ++ ext) /\ Forall P ext /\
      (NoDup names -> NoDup (names ++ ext)).
Proof.
  induction ms as [|f ms IH]; intros H names; simpl.
  - exists []. rewrite app_nil_r. auto.
  - assert (Hms : forall f', In f' ms -> step_ok P f')
      by (intros; apply H; now right).
    destruct (H f (or_introl eq_refl) names) as [E|(n & Pn & E)]; rewrite E.
    + apply IH, Hms.
    + destruct (add_name_spec n names) as [[-> _]|[-> N]]; [apply IH, Hms|].
      destruct (IH Hms (names ++ [n])) as (ext & C & F & D).
      exists (n :: ext). rewrite <- app_assoc in C, D. simpl in C, D.
      split; [exact C|]. split; [now constructor|].
      intro Nd. apply D. apply NoDup_app; [exact Nd|repeat constructor; auto|].
      intros x Hx [<-|[]]. contradiction.
Qed.

Lemma gather_extends (P : text -> Prop) (txt : text) (ps : list regex) :
  (forall p f, In p ps -> In f (findall p txt) -> step_ok P f) ->
  forall names : list text,
    exists ext,
      gather ps txt names = Some (names ++ ext) /\ Forall P ext /\
      (NoDup names -> NoDup (names ++ ext)).
Proof.
  induction ps as [|p ps IH]; intros H names; simpl.
  - exists []. rewrite app_nil_r. auto.
  - destruct (@consider_all_extends P (findall p txt)
                (fun f Hf => H p f (or_introl eq_refl) Hf) names)
      as (e1 & -> & F1 & D1).
    destruct (IH (fun p' f Hp Hf => H p' f (or_intror Hp) Hf) (names ++ e1))
      as (e2 & -> & F2 & D2).
    exists (e1 ++ e2). rewrite app_assoc. split; [reflexivity|].
    split; [now apply Forall_app|]. rewrite <- app_assoc. intro Nd.
    rewrite app_assoc. auto.
Qed.

Lemma gather_app (txt : text) (ps1 ps2 : list regex) :
  forall names : list text,
    gather (ps1 ++ ps2) txt names =
    match gather ps1 txt names with
    | Some names' => gather ps2 txt names'
    | None => None
    end.
Proof.
  induction ps1 as [|p ps1 IH]; intro names; simpl; [reflexivity|].
  destruct (consider_all _ names); [apply IH|reflexivity].
Qed.

Lemma found_by_the_first_three (txt : text) (p : regex) (f : found) :
  In p [pair_pattern; parenthesised_pattern; ranked_pattern] ->
  In f (findall p txt) -> step_ok binomial_like f.
Proof.
  intros [<-|[<-|[<-|[]]]] H.
  - apply pair_pattern_found in H. destruct H as (g & e & -> & G & E).
    apply consider_pair; [|exact E|now apply pair_is_binomial].
    destruct G as (u & ls & -> & U & _). eauto.
  - apply parenthesised_pattern_found in H. destruct H as (m & -> & B).
    now apply consider_str.
  - apply ranked_pattern_found in H. destruct H as (m & -> & B).
    now apply consider_str.
Qed.

Lemma found_by_the_fourth (txt : text) (p : regex) (f : found) :
  In p [abbreviated_pattern] ->
  In f (findall p txt) -> step_ok abbreviated f.
Proof.
  intros [<-|[]] H.
  apply abbreviated_pattern_found in H. destruct H as (u & e & -> & U & E).
  apply consider_pair; [eauto|exact E|]. exists u, e. auto.
Qed.

(** *** The second and the third loop *)

Lemma keep_abbreviated (n : text) : abbreviated n -> keep n = Some false.
Proof.
  intros (u & e & -> & U & E). unfold keep.
  destruct (is_in _ COMMON_FALSE_POSITIVES); [reflexivity|].
  destruct (epithet_no_space E) as [Ne Fe].
  change (u :: " "%char :: e) with ([u] ++ [" "%char] ++ e).
  rewrite split_two_words; auto.
  - cbn [first_is]. rewrite U. reflexivity.
  - discriminate.
  - repeat constructor. now apply upper_not_space.
  - discriminate.
  - repeat constructor.
Qed.

Lemma keep_binomial (n : text) : binomial_like n -> exists b, keep n = Some b.
Proof.
  intros (g & ws & e & -> & G & Nw & Fw & E). unfold keep.
  destruct (is_in _ COMMON_FALSE_POSITIVES); [eauto|].
  destruct (genus_no_space G) as [Ng Fg].
  destruct (epithet_no_space E) as [Ne Fe].
  rewrite split_two_words; auto.
  destruct G as (u & ls & -> & U & _). cbn [first_is]. rewrite U.
  destruct (1 <? _)%nat; [|eauto].
  destruct (epithet_head E) as (c & e' & -> & L). cbn [first_is]. rewrite L.
  eauto.
Qed.

Lemma filter_names_app (a b : list text) :
  filter_names (a ++ b) =
  match filter_names a, filter_names b with
  | Some x, Some y => Some (x ++ y)
  | _, _ => None
  end.
Proof.
  induction a as [|n a IH]; simpl.
  - now destruct (filter_names b).
  - destruct (keep n) as [kept|]; [|reflexivity]. rewrite IH.
    destruct (filter_names a), (filter_names b); try reflexivity.
    now destruct kept.
Qed.

Lemma filter_names_abbreviated (l : list text) :
  Forall abbreviated l -> filter_names l = Some [].
Proof.
  induction 1 as [|n l A _ IH]; simpl; [reflexivity|].
  now rewrite (keep_abbreviated A), IH.
Qed.

Lemma filter_names_binomial (l : list text) :
  Forall binomial_like l ->
  exists kept,
    filter_names l = Some kept /\ (forall n, In n kept -> In n l) /\
    (NoDup l -> NoDup kept).
Proof.
  induction 1 as [|n l B _ (kept & E & I & D)]; simpl.
  - exists []. repeat split; auto.
  - destruct (keep_binomial B) as [b ->]. rewrite E.
    destruct b.
    + exists (n :: kept). split; [reflexivity|]. split.
      * intros x [<-|H]; [now left|right; now apply I].
      * intro Nd. inversion Nd; subst. constructor; auto.
    + exists kept. split; [reflexivity|]. split.
      * intros x H. right. now apply I.
      * intro Nd. inversion Nd; subst. auto.
Qed.

Lemma unique_NoDup (l : list text) : forall seen : list text,
  NoDup l -> (forall n, In n l -> ~ In n seen) -> unique l seen = l.
Proof.
  induction l as [|n l IH]; intros seen Nd H; simpl; [reflexivity|].
  inversion Nd; subst.
  destruct (is_in n seen) eqn:E.
  - apply is_in_In in E. exfalso. apply (H n); [now left|exact E].
  - f_equal. apply IH; [assumption|].
    intros x Hx [<-|Hs]; [contradiction|]. apply (H x); [now right|exact Hs].
Qed.

(** A text of the binomial form is a scientific name for [is_scientific_name]. *)
Lemma binomial_is_scientific (n : text) :
  binomial_like n ->
  Heuristics.is_scientific_name (string_of_list_ascii n) = true.
Proof.
  intros (g & ws & e & -> & G & Nw & Fw & E).
  unfold Heuristics.is_scientific_name, Py.strip.
  rewrite !list_ascii_of_string_of_list_ascii.
  destruct (genus_no_space G) as [Ng Fg].
  destruct (epithet_no_space E) as [Ne Fe].
  assert (S : Py.strip_chars (g ++ ws ++ e) = g ++ ws ++ e).
  { unfold Py.strip_chars.
    rewrite (PyStrFacts.lstrip_fixed (g ++ ws ++ e)).
    2:{ destruct g as [|x g]; [congruence|]. simpl. now inversion Fg. }
    rewrite PyStrFacts.lstrip_fixed; [apply rev_involutive|].
    rewrite !rev_app_distr.
    destruct (rev e) as [|x re] eqn:R.
    - exfalso. apply (f_equal (@List.length ascii)) in R.
      rewrite length_rev in R. destruct e; [congruence|discriminate].
    - simpl. apply Forall_rev in Fe. rewrite R in Fe. now inversion Fe. }
  rewrite S.
  destruct (Re.match_ Heuristics.SCIENTIFIC_NAME_PATTERN (g ++ ws ++ e)) eqn:M;
    [reflexivity|].
  exfalso. revert M. apply PatternFacts.pattern_matches_iff.
  destruct G as (u & ls & -> & U & Nl & Fl). destruct E as [Fe' Le].
  exists u, ls, ws, e, []. rewrite app_nil_r. simpl. repeat split; auto.
Qed.

Lemma string_of_list_ascii_inj (a b : text) :
  string_of_list_ascii a = string_of_list_ascii b -> a = b.
Proof.
  intro H. apply (f_equal list_ascii_of_string) in H.
  now rewrite !list_ascii_of_string_of_list_ascii in H.
Qed.

Lemma NoDup_strings (l : list text) :
  NoDup l -> NoDup (map string_of_list_ascii l).
Proof.
  induction 1 as [|n l N _ IH]; simpl; constructor; [|exact IH].
  intro H. apply in_map_iff in H. destruct H as (x & E & Hx).
  apply string_of_list_ascii_inj in E. now subst.
Qed.

(** *** The function *)

(** [extract_scientific_names_from_text_fast] never raises, returns no name
    twice, and every name it returns is a scientific name in the sense of
    [is_scientific_name]: a capitalised genus of at least two letters, white
    space, and an epithet of at least two lower-case letters. *)
Theorem extracted_names_are_binomials :
  forall text : string,
    exists names : list string,
      extract_scientific_names_from_text_fast text = Some names /\
      NoDup names /\
      Forall (fun name => Heuristics.is_scientific_name name = true) names /\
      Forall (fun name => binomial_like (list_ascii_of_string name)) names.
Proof.
  intro text. unfold extract_scientific_names_from_text_fast, extract_with.
  destruct (Py.nonempty text); cbn [negb].
  2:{ exists []. repeat split; constructor. }
  change SCIENTIFIC_NAME_EXTRACT_PATTERNS
    with ([pair_pattern; parenthesised_pattern; ranked_pattern]
          ++ [abbreviated_pattern]).
  rewrite gather_app.
  destruct (@gather_extends binomial_like (list_ascii_of_string text) _
              (@found_by_the_first_three (list_ascii_of_string text)) [])
    as (e1 & -> & F1 & D1).
  destruct (@gather_extends abbreviated (list_ascii_of_string text) _
              (@found_by_the_fourth (list_ascii_of_string text)) ([] ++ e1))
    as (e2 & -> & F2 & D2).
  cbn [app] in *. specialize (D1 (NoDup_nil _)).
  rewrite filter_names_app, (filter_names_abbreviated F2).
  destruct (filter_names_binomial F1) as (kept & -> & I & D).
  rewrite app_nil_r. specialize (D D1).
  rewrite (@unique_NoDup kept [] D) by (intros n _ []).
  exists (map string_of_list_ascii kept). split; [reflexivity|].
  assert (B : Forall binomial_like kept).
  { apply Forall_forall. intros n Hn. rewrite Forall_forall in F1.
    apply F1, I, Hn. }
  split; [|split].
  - now apply NoDup_strings.
  - apply Forall_map. eapply Forall_impl; [|exact B].
    intros n. apply binomial_is_scientific.
  - apply Forall_map. eapply Forall_impl; [|exact B].
    intros n Hn. now rewrite list_ascii_of_string_of_list_ascii.
Qed.

(** The fourth pattern, for an abbreviated genus ("O. orca"), never
    contributes a name: what it finds is dropped by the second loop, which
    asks for a genus of more than one letter. The function returns what it
    would return with the first three patterns alone. *)
Theorem abbreviated_pattern_is_dead :
  forall text : string,
    extract_with [pair_pattern; parenthesised_pattern; ranked_pattern] text
    = extract_scientific_names_from_text_fast text.
Proof.
  intro text. unfold extract_scientific_names_from_text_fast, extract_with.
  destruct (Py.nonempty text); cbn [negb]; [|reflexivity].
  change SCIENTIFIC_NAME_EXTRACT_PATTERNS
    with ([pair_pattern; parenthesised_pattern; ranked_pattern]
          ++ [abbreviated_pattern]).
  rewrite gather_app.
  destruct (gather [pair_pattern; parenthesised_pattern; ranked_pattern]
              (list_ascii_of_string text) []) as [names|]; [|reflexivity].
  destruct (@gather_extends abbreviated (list_ascii_of_string text) _
              (@found_by_the_fourth (list_ascii_of_string text)) names)
    as (e2 & -> & F2 & _).
  rewrite filter_names_app, (filter_names_abbreviated F2).
  destruct (filter_names names) as [kept|]; [|reflexivity].
  now rewrite app_nil_r.
Qed.

(** The names read from a sentence: the pair in the text, the pair in
    parentheses and the pair after "genus" are one name; "Killer whales" has
    the form of a name; "The orca" and "Sharks range" are ruled out by their
    first word or as known false positives, "O. orca" by its genus. *)
Example names_of_a_sentence :
  extract_scientific_names_from_text_fast
    "The orca (Orcinus orca) is a toothed whale. Killer whales are found in the genus Orcinus orca and O. orca is abbreviated. Sharks range widely; Carcharodon carcharias too."
  = Some ["Orcinus orca"; "Killer whales"; "Carcharodon carcharias"]%string.
Proof. vm_compute. reflexivity. Qed.

End NamesFacts.
